(** * PythonPhysicsAlgorithms: collision and impulse core

    A shallow embedding of the rigid-body collision and impulse-response
    code (support oracle, contact-point reconstruction, collider caches,
    physics bodies, impulse resolver and joints) together with the
    properties of the specification that concern it.

    Number model.  Python floats and the components of [glm] vectors and
    matrices are idealised as real numbers ([R]); comparisons are the
    decidable comparisons of [R].  Python exceptions are the [Raise]
    results of the [result] type.  Where [glm] divides by zero it raises
    nothing and goes on with an infinity or a NaN, for which [R] has no
    value: a call that computes with such a number ends in [NotFinite].

    Object model.  A [glm.vec3] and a Python list are mutable objects.
    Where the sources change one in place while several references to it
    may exist (the default list of accelerations, the velocity vector a
    body keeps from its caller), the objects live in a heap and are named
    by their location. *)

From Stdlib Require Import Reals Lra Lia List Bool ZArith Permutation.
Import ListNotations.
Open Scope R_scope.

(** ** Exceptions *)

Inductive exn : Type :=
| IndexError
| TypeError
| ZeroDivisionError
| ValueError
| UnboundLocalError
| AttributeError.

(** The outcome of a call: it returns, it raises, or it goes on with
    numbers that are not finite and returns what is no state of reals. *)
Inductive result (A : Type) : Type :=
| Ok (a : A)
| Raise (e : exn)
| NotFinite.

Arguments Ok {A} a.
Arguments Raise {A} e.
Arguments NotFinite {A}.

Definition bind {A B : Type} (r : result A) (k : A -> result B) : result B :=
  match r with
  | Ok a => k a
  | Raise e => Raise e
  | NotFinite => NotFinite
  end.

Notation "x <- r ;; k" := (bind r (fun x => k))
  (at level 61, r at next level, right associativity).

Definition of_option {A : Type} (e : exn) (o : option A) : result A :=
  match o with
  | Some a => Ok a
  | None => Raise e
  end.

(** The use of a value that [glm] may have computed with a division by
    zero: [None] stands for a value with infinite or NaN components. *)
Definition finite {A : Type} (o : option A) : result A :=
  match o with
  | Some a => Ok a
  | None => NotFinite
  end.

(** ** The part of [glm] the sources call *)

Module Glm.

Record vec3 : Type := mkvec3 { x : R; y : R; z : R }.

Record vec4 : Type := mkvec4 { x4 : R; y4 : R; z4 : R; w4 : R }.

(** Column-major, as in GLM: [m[i]] is column [i]. *)
Record mat3 : Type := mkmat3 { m0 : vec3; m1 : vec3; m2 : vec3 }.

Record mat4 : Type := mkmat4 { c0 : vec4; c1 : vec4; c2 : vec4; c3 : vec4 }.

Record quat : Type := mkquat { qw : R; qx : R; qy : R; qz : R }.

(** [glm.quat((0, 0, 0))]: the rotation of zero Euler angles. *)
Definition quat_identity : quat := mkquat 1 0 0 0.

Definition vzero : vec3 := mkvec3 0 0 0.

Definition vadd (a b : vec3) : vec3 :=
  mkvec3 (x a + x b) (y a + y b) (z a + z b).

Definition vsub (a b : vec3) : vec3 :=
  mkvec3 (x a - x b) (y a - y b) (z a - z b).

Definition vneg (a : vec3) : vec3 := mkvec3 (- x a) (- y a) (- z a).

(** [s * v] and [v * s]. *)
Definition vscale (s : R) (a : vec3) : vec3 :=
  mkvec3 (s * x a) (s * y a) (s * z a).

(** [v / s]. *)
Definition vdiv (a : vec3) (s : R) : vec3 :=
  mkvec3 (x a / s) (y a / s) (z a / s).

Definition dot (a b : vec3) : R := x a * x b + y a * y b + z a * z b.

Definition cross (a b : vec3) : vec3 :=
  mkvec3 (y a * z b - z a * y b)
         (z a * x b - x a * z b)
         (x a * y b - y a * x b).

Definition length (a : vec3) : R := sqrt (dot a a).

(** GLM: [v * inversesqrt(dot(v, v))]. *)
Definition normalize (a : vec3) : vec3 := vscale (1 / sqrt (dot a a)) a.

(** Component [i] of a vector, [v[i]] for [i] in [range(3)]. *)
Definition vget (a : vec3) (i : nat) : R :=
  match i with
  | O => x a
  | S O => y a
  | _ => z a
  end.

Definition vset (a : vec3) (i : nat) (r : R) : vec3 :=
  match i with
  | O => mkvec3 r (y a) (z a)
  | S O => mkvec3 (x a) r (z a)
  | _ => mkvec3 (x a) (y a) r
  end.

(** *** 3x3 matrices *)

Definition mat3_zero : mat3 := mkmat3 vzero vzero vzero.

(** [m * v]. *)
Definition mat3_mulv (m : mat3) (v : vec3) : vec3 :=
  vadd (vadd (vscale (x v) (m0 m)) (vscale (y v) (m1 m))) (vscale (z v) (m2 m)).

(** [s * m]. *)
Definition mat3_scale (s : R) (m : mat3) : mat3 :=
  mkmat3 (vscale s (m0 m)) (vscale s (m1 m)) (vscale s (m2 m)).

(** [m / s]. *)
Definition mat3_div (m : mat3) (s : R) : mat3 :=
  mkmat3 (vdiv (m0 m) s) (vdiv (m1 m) s) (vdiv (m2 m) s).

Definition determinant (m : mat3) : R :=
  let a00 := x (m0 m) in let a01 := y (m0 m) in let a02 := z (m0 m) in
  let a10 := x (m1 m) in let a11 := y (m1 m) in let a12 := z (m1 m) in
  let a20 := x (m2 m) in let a21 := y (m2 m) in let a22 := z (m2 m) in
  a00 * (a11 * a22 - a21 * a12)
  - a10 * (a01 * a22 - a21 * a02)
  + a20 * (a01 * a12 - a11 * a02).

(** [glm.inverse] of a 3x3 matrix: every cofactor times
    [OneOverDeterminant = 1 / determinant].  GLM does not test the
    determinant.  For a singular matrix it divides 1 by 0, which gives an
    infinity, and every entry of the result, a cofactor times that
    infinity, is infinite or NaN: no matrix of reals, [None]. *)
Definition inverse (m : mat3) : option mat3 :=
  let a00 := x (m0 m) in let a01 := y (m0 m) in let a02 := z (m0 m) in
  let a10 := x (m1 m) in let a11 := y (m1 m) in let a12 := z (m1 m) in
  let a20 := x (m2 m) in let a21 := y (m2 m) in let a22 := z (m2 m) in
  if Req_dec_T (determinant m) 0 then None
  else
    let one_over_det := 1 / determinant m in
    Some
      (mkmat3
         (mkvec3 ((a11 * a22 - a21 * a12) * one_over_det)
                 (- (a01 * a22 - a21 * a02) * one_over_det)
                 ((a01 * a12 - a11 * a02) * one_over_det))
         (mkvec3 (- (a10 * a22 - a20 * a12) * one_over_det)
                 ((a00 * a22 - a20 * a02) * one_over_det)
                 (- (a00 * a12 - a10 * a02) * one_over_det))
         (mkvec3 ((a10 * a21 - a20 * a11) * one_over_det)
                 (- (a00 * a21 - a20 * a01) * one_over_det)
                 ((a00 * a11 - a10 * a01) * one_over_det))).

(** *** 4x4 matrices *)

Definition v4add (a b : vec4) : vec4 :=
  mkvec4 (x4 a + x4 b) (y4 a + y4 b) (z4 a + z4 b) (w4 a + w4 b).

Definition v4scale (s : R) (a : vec4) : vec4 :=
  mkvec4 (s * x4 a) (s * y4 a) (s * z4 a) (s * w4 a).

(** [glm.mat4()]: the identity. *)
Definition mat4_id : mat4 :=
  mkmat4 (mkvec4 1 0 0 0) (mkvec4 0 1 0 0) (mkvec4 0 0 1 0) (mkvec4 0 0 0 1).

Definition translate (m : mat4) (v : vec3) : mat4 :=
  mkmat4 (c0 m) (c1 m) (c2 m)
    (v4add (v4add (v4add (v4scale (x v) (c0 m)) (v4scale (y v) (c1 m)))
                  (v4scale (z v) (c2 m)))
           (c3 m)).

Definition rotate (m : mat4) (angle : R) (v : vec3) : mat4 :=
  let c := cos angle in
  let s := sin angle in
  let axis := normalize v in
  let temp := vscale (1 - c) axis in
  let r00 := c + x temp * x axis in
  let r01 := x temp * y axis + s * z axis in
  let r02 := x temp * z axis - s * y axis in
  let r10 := y temp * x axis - s * z axis in
  let r11 := c + y temp * y axis in
  let r12 := y temp * z axis + s * x axis in
  let r20 := z temp * x axis + s * y axis in
  let r21 := z temp * y axis - s * x axis in
  let r22 := c + z temp * z axis in
  mkmat4
    (v4add (v4add (v4scale r00 (c0 m)) (v4scale r01 (c1 m))) (v4scale r02 (c2 m)))
    (v4add (v4add (v4scale r10 (c0 m)) (v4scale r11 (c1 m))) (v4scale r12 (c2 m)))
    (v4add (v4add (v4scale r20 (c0 m)) (v4scale r21 (c1 m))) (v4scale r22 (c2 m)))
    (c3 m).

Definition scale (m : mat4) (v : vec3) : mat4 :=
  mkmat4 (v4scale (x v) (c0 m)) (v4scale (y v) (c1 m)) (v4scale (z v) (c2 m)) (c3 m).

(** [glm.mul(m, (x, y, z, w))]. *)
Definition mat4_mulv (m : mat4) (v : vec4) : vec4 :=
  v4add (v4add (v4add (v4scale (x4 v) (c0 m)) (v4scale (y4 v) (c1 m)))
               (v4scale (z4 v) (c2 m)))
        (v4scale (w4 v) (c3 m)).

(** A Python sequence handed to a [glm] function that expects a 3-vector. *)
Definition vec3_of_list (l : list R) : result vec3 :=
  match l with
  | [a; b; c] => Ok (mkvec3 a b c)
  | _ => Raise TypeError
  end.

(** Python's [round(v, 3)] in the real-number model: the nearest multiple
    of 1/1000, a tie going to the even multiple. *)
Definition round_half_even (r : R) : Z :=
  let f := Int_part r in
  let d := r - IZR f in
  if Rlt_dec d (1 / 2) then f
  else if Rlt_dec (1 / 2) d then (f + 1)%Z
  else if Z.even f then f else (f + 1)%Z.

Definition round3 (r : R) : R := IZR (round_half_even (r * 1000)) / 1000.

(** [glm.vec3([round(v, 3) for v in a])]. *)
Definition vround3 (a : vec3) : vec3 :=
  mkvec3 (round3 (x a)) (round3 (y a)) (round3 (z a)).

(** *** Quaternions *)

(** [p * q]. *)
Definition quat_mul (p q : quat) : quat :=
  mkquat (qw p * qw q - qx p * qx q - qy p * qy q - qz p * qz q)
         (qw p * qx q + qx p * qw q + qy p * qz q - qz p * qy q)
         (qw p * qy q + qy p * qw q + qz p * qx q - qx p * qz q)
         (qw p * qz q + qz p * qw q + qx p * qy q - qy p * qx q).

(** [glm.angleAxis(angle, v)]. *)
Definition angleAxis (angle : R) (v : vec3) : quat :=
  let s := sin (angle * 0.5) in
  mkquat (cos (angle * 0.5)) (x v * s) (y v * s) (z v * s).

End Glm.

Import Glm.

(** ** collisions/math_functions.py *)

Module MathFunctions.

(** The loop of [get_furthest_point]: the state is
    [(best_point, best_dot)]. *)
Fixpoint furthest_loop (points : list vec3) (direction_vector : vec3)
    (best : vec3 * R) : vec3 * R :=
  match points with
  | [] => best
  | point :: rest =>
      let d := dot point direction_vector in
      if Rgt_dec d (snd best)
      then furthest_loop rest direction_vector (point, d)
      else furthest_loop rest direction_vector best
  end.

Definition get_furthest_point (points : list vec3) (direction_vector : vec3) : vec3 :=
  fst (furthest_loop points direction_vector (vzero, -1e6)).

(** The body evaluates the difference of the two supports and drops it:
    the function has no [return], so the call yields Python's [None]. *)
Definition get_support_point (points1 points2 : list vec3)
    (direction_vector : vec3) : option vec3 :=
  let _ := vsub (get_furthest_point points1 direction_vector)
                (get_furthest_point points2 (vneg direction_vector)) in
  None.

Definition get_average_point (polytope : list vec3) : vec3 :=
  vdiv (fold_left vadd polytope vzero) (INR (List.length polytope)).

Definition triple_product (vector1 vector2 vector3 : vec3) : vec3 :=
  cross (cross vector1 vector2) vector3.

End MathFunctions.

Import MathFunctions.

(** ** collisions/narrow_collisions.py *)

Module NarrowCollisions.

Definition signed_volume (normal p1 p2 p3 : vec3) : R :=
  dot (cross (vsub p1 p3) (vsub p2 p3)) normal / 6.

Definition get_support_points_from_minkowski (points1 points2 : list vec3)
    (minkowski_point : vec3) : vec3 * vec3 :=
  let direction := minkowski_point in
  (get_furthest_point points1 direction,
   get_furthest_point points2 (vneg direction)).

(** [face] holds three indices into [polytope]. *)
Definition calculate_contact_point (points1 points2 polytope : list vec3)
    (face : nat * nat * nat) (normal : vec3) : result vec3 :=
  let '(f0, f1, f2) := face in
  a <- of_option IndexError (nth_error polytope f0) ;;
  b <- of_option IndexError (nth_error polytope f1) ;;
  c <- of_option IndexError (nth_error polytope f2) ;;
  let total_volume := signed_volume normal a b c in
  if Req_dec_T total_volume 0 then Ok vzero
  else
    let volume_pbc := signed_volume normal vzero b c in
    let volume_pca := signed_volume normal vzero c a in
    let volume_pab := signed_volume normal vzero a b in
    let u := volume_pbc / total_volume in
    let v := volume_pca / total_volume in
    let w := volume_pab / total_volume in
    let sum_barycentric := u + v + w in
    let '(u, v, w) :=
      if Req_dec_T sum_barycentric 0 then (u, v, w)
      else (u / sum_barycentric, v / sum_barycentric, w / sum_barycentric) in
    let '(support1_a, support2_a) := get_support_points_from_minkowski points1 points2 a in
    let '(support1_b, support2_b) := get_support_points_from_minkowski points1 points2 b in
    let '(support1_c, support2_c) := get_support_points_from_minkowski points1 points2 c in
    let contact_point1 :=
      vadd (vadd (vscale u support1_a) (vscale v support1_b)) (vscale w support1_c) in
    let contact_point2 :=
      vadd (vadd (vscale u support2_a) (vscale v support2_b)) (vscale w support2_c) in
    Ok contact_point1.

End NarrowCollisions.

Import NarrowCollisions.

(** ** collisions/collider_handler.py *)

Module ColliderHandler.

(** A collider.  [unique_points] stands for
    [collider_handler.prefabs[prefab].unique_points], the local-space
    vertices of the prefab the collider refers to. *)
Record Collider : Type := mkCollider {
  data : list R;                 (* pos [:3], scale [3:6], rot [6:] *)
  unique_points : list vec3;
  vertices : list vec3;
  dimensions : vec3;
  geometric_center : vec3;
  base_volume : R;
  static : bool;
  elasticity : R;
  inertia_tensor : mat3;
  static_friction : R;
  kinetic_friction : R
}.

Definition list_R_eq_dec : forall a b : list R, {a = b} + {a <> b} :=
  list_eq_dec Req_dec_T.

(** Python slices [l[i:j]] and [l[i:]] for [0 <= i <= j]. *)
Definition slice (l : list R) (i j : nat) : list R := firstn (j - i) (skipn i l).

Definition slice_from (l : list R) (i : nat) : list R := skipn i l.

Definition get_model_matrix (data : list R) : result mat4 :=
  let model_matrix := mat4_id in
  t <- vec3_of_list (slice data 0 3) ;;
  let model_matrix := translate model_matrix t in
  rx <- of_option IndexError (nth_error data 6) ;;
  let model_matrix := rotate model_matrix rx (mkvec3 (-1) 0 0) in
  ry <- of_option IndexError (nth_error data 7) ;;
  let model_matrix := rotate model_matrix ry (mkvec3 0 (-1) 0) in
  rz <- of_option IndexError (nth_error data 8) ;;
  let model_matrix := rotate model_matrix rz (mkvec3 0 0 (-1)) in
  s <- vec3_of_list (slice data 3 6) ;;
  Ok (scale model_matrix s).

Definition get_real_vertex_locations (data : list R) (unique_points : list vec3)
    : result (list vec3) :=
  model_matrix <- get_model_matrix data ;;
  Ok (map (fun vertex =>
             let new := mat4_mulv model_matrix
                          (mkvec4 (x vertex) (y vertex) (z vertex) 1) in
             mkvec3 (x4 new) (y4 new) (z4 new))
          unique_points).

(** One pass of [for i in range(3)] over a point: the running
    [(minimums, maximums)] are updated component by component. *)
Definition minmax_step (point : vec3) (mm : vec3 * vec3) : vec3 * vec3 :=
  fold_left
    (fun (acc : vec3 * vec3) (i : nat) =>
       let '(minimums, maximums) := acc in
       let maximums :=
         if Rgt_dec (vget point i) (vget maximums i)
         then vset maximums i (vget point i) else maximums in
       let minimums :=
         if Rlt_dec (vget point i) (vget minimums i)
         then vset minimums i (vget point i) else minimums in
       (minimums, maximums))
    [0%nat; 1%nat; 2%nat] mm.

Definition minmax (points : list vec3) : vec3 * vec3 :=
  fold_left (fun acc point => minmax_step point acc) points
    (mkvec3 1e10 1e10 1e10, mkvec3 (-1e10) (-1e10) (-1e10)).

Definition get_geometric_center (vertices : list vec3) : vec3 :=
  let '(minimums, maximums) := minmax vertices in
  mkvec3 ((x maximums + x minimums) / 2)
         ((y maximums + y minimums) / 2)
         ((z maximums + z minimums) / 2).

(** The accumulation loop of [get_inertia_tensor]. *)
Definition inertia_step (center : vec3) (t : mat3) (vertex : vec3) : mat3 :=
  let r := vsub vertex center in
  mkmat3
    (mkvec3 (x (m0 t) + (y r * y r + z r * z r))
            (y (m0 t) - x r * y r)
            (z (m0 t) - x r * z r))
    (mkvec3 (x (m1 t))
            (y (m1 t) + (x r * x r + z r * z r))
            (z (m1 t) - y r * z r))
    (mkvec3 (x (m2 t))
            (y (m2 t))
            (z (m2 t) + (x r * x r + y r * y r))).

Definition get_inertia_tensor (vertices : list vec3) (center : vec3) (mass : R) : mat3 :=
  let t := fold_left (inertia_step center) vertices mat3_zero in
  let t := mkmat3 (m0 t)
                  (mkvec3 (y (m0 t)) (y (m1 t)) (z (m1 t)))
                  (mkvec3 (z (m0 t)) (z (m1 t)) (z (m2 t))) in
  mat3_div (mat3_scale mass t) (INR (List.length vertices)).

(** The scale components are read only inside the loop over the prefab
    points, so an empty prefab reads nothing. *)
Definition get_dimensions (data : list R) (unique_points : list vec3) : result vec3 :=
  match unique_points with
  | [] => Ok (mkvec3 (-1e10 - 1e10) (-1e10 - 1e10) (-1e10 - 1e10))
  | _ =>
      sx <- of_option IndexError (nth_error data 3) ;;
      sy <- of_option IndexError (nth_error data 4) ;;
      sz <- of_option IndexError (nth_error data 5) ;;
      let '(minimums, maximums) :=
        minmax (map (fun p => mkvec3 (x p * sx) (y p * sy) (z p * sz)) unique_points) in
      Ok (vsub maximums minimums)
  end.

(** [Collider.__init__]; [None] for [data] is any falsy argument. *)
Definition Collider_init (data : option (list R)) (unique_points : list vec3)
    (static : bool) (elasticity : R) : result Collider :=
  let data := match data with
              | Some (d :: l) => d :: l
              | _ => [0; 0; 0; 1; 1; 1; 0; 0; 0]
              end in
  vertices <- get_real_vertex_locations data unique_points ;;
  dimensions <- get_dimensions data unique_points ;;
  let geometric_center := get_geometric_center vertices in
  Ok {| data := data;
        unique_points := unique_points;
        vertices := vertices;
        dimensions := dimensions;
        geometric_center := geometric_center;
        base_volume := 8;
        static := static;
        elasticity := elasticity;
        inertia_tensor := get_inertia_tensor vertices geometric_center 1;
        static_friction := 0.8;
        kinetic_friction := 0.4 |}.

(** Python's [a != b] on lists of floats. *)
Definition list_ne (a b : list R) : bool :=
  if list_R_eq_dec a b then false else true.

Definition set_data (self : Collider) (new_data : list R) : result Collider :=
  let oldData := data self in
  (* updates vertices from new data *)
  vertices <- get_real_vertex_locations new_data (unique_points self) ;;
  let geometric_center := get_geometric_center vertices in
  if list_ne (slice oldData 3 6) (slice new_data 3 6)
  then
    dimensions <- get_dimensions new_data (unique_points self) ;;   (* scale changed *)
    let inertia_tensor :=
      if list_ne (slice_from oldData 6) (slice_from new_data 6)
      then get_inertia_tensor vertices geometric_center 1          (* rotation changed *)
      else inertia_tensor self in
    Ok {| data := new_data;
          unique_points := unique_points self;
          vertices := vertices;
          dimensions := dimensions;
          geometric_center := geometric_center;
          base_volume := base_volume self;
          static := static self;
          elasticity := elasticity self;
          inertia_tensor := inertia_tensor;
          static_friction := static_friction self;
          kinetic_friction := kinetic_friction self |}
  else
    Ok {| data := new_data;
          unique_points := unique_points self;
          vertices := vertices;
          dimensions := dimensions self;
          geometric_center := geometric_center;
          base_volume := base_volume self;
          static := static self;
          elasticity := elasticity self;
          inertia_tensor := inertia_tensor self;
          static_friction := static_friction self;
          kinetic_friction := kinetic_friction self |}.

Definition set_position (self : Collider) (position : list R) : result Collider :=
  set_data self (position ++ slice_from (data self) 3).

Definition set_scale (self : Collider) (scale : list R) : result Collider :=
  set_data self (slice (data self) 0 3 ++ scale ++ slice_from (data self) 6).

Definition set_rotation (self : Collider) (rotation : list R) : result Collider :=
  set_data self (slice (data self) 0 6 ++ rotation).

Definition get_radius_to_point (self : Collider) (point : vec3) : vec3 :=
  vsub point (geometric_center self).

Definition get_volume (self : Collider) : result R :=
  sx <- of_option IndexError (nth_error (data self) 3) ;;
  sy <- of_option IndexError (nth_error (data self) 4) ;;
  sz <- of_option IndexError (nth_error (data self) 5) ;;
  Ok (base_volume self * sx * sy * sz).

End ColliderHandler.

Import ColliderHandler.

(** ** physics/physics_body_handler.py *)

Module PhysicsBodyHandler.

Record PointPhysicsBody : Type := mkPointPhysicsBody {
  mass : R;
  velocity : vec3
}.

(** [PhysicsBody] extends [PointPhysicsBody]: [point] holds the inherited
    attributes. *)
Record PhysicsBody : Type := mkPhysicsBody {
  point : PointPhysicsBody;
  rotational_velocity : R;
  axis_of_rotation : vec3;
  rotation : quat
}.

(** [PointPhysicsBody.__init__].  An optional vector argument is [None]
    or a [glm.vec3], which is truthy. *)
Definition PointPhysicsBody_init (mass : R) (velocity : option vec3)
    : result PointPhysicsBody :=
  Ok {| mass := mass;
        velocity := match velocity with Some v => v | None => vzero end |}.

(** [PhysicsBody.__init__]. *)
Definition PhysicsBody_init (mass : R) (velocity : option vec3)
    (rotational_velocity : R) (axis_of_rotation : option vec3)
    : result PhysicsBody :=
  super <- PointPhysicsBody_init mass velocity ;;
  Ok {| point := super;
        rotational_velocity := rotational_velocity;
        axis_of_rotation :=
          match axis_of_rotation with Some a => a | None => mkvec3 1 0 0 end;
        rotation := quat_identity |}.

Definition get_delta_position (self : PointPhysicsBody) (delta_time : R) : vec3 :=
  vscale delta_time (velocity self).

(** The handler: only its list of bodies matters here. *)
Record Handler : Type := mkHandler { physics_bodies : list PhysicsBody }.

(** [add_physics_body] appends the new body and returns it
    ([physics_bodies[-1]]). *)
Definition add_physics_body (self : Handler) (mass : R) (velocity : option vec3)
    (rotational_velocity : R) (axis_of_rotation : option vec3)
    : result (Handler * PhysicsBody) :=
  body <- PhysicsBody_init mass velocity rotational_velocity axis_of_rotation ;;
  Ok ({| physics_bodies := physics_bodies self ++ [body] |}, body).

Definition set_velocity (b : PhysicsBody) (v : vec3) : PhysicsBody :=
  {| point := {| mass := mass (point b); velocity := v |};
     rotational_velocity := rotational_velocity b;
     axis_of_rotation := axis_of_rotation b;
     rotation := rotation b |}.

Section EulerAngles.

(** [glm.eulerAngles], which only shapes the value [get_new_rotation]
    returns, is left as a parameter. *)
Variable eulerAngles : quat -> vec3.

(** [get_new_rotation] updates [self.rotation] and returns its Euler
    angles: the result is the body after the call and the value
    returned. *)
Definition get_new_rotation (self : PhysicsBody) (delta_time : R)
    : PhysicsBody * vec3 :=
  (* get change in angle *)
  let theta := - rotational_velocity self * delta_time in
  (* calculate rotation quaternion *)
  let axis_world :=
    if Rgt_dec (length (axis_of_rotation self)) 0
    then normalize (axis_of_rotation self) else mkvec3 1 0 0 in
  let rq := angleAxis theta axis_world in
  (* calculate and return using quaternions *)
  let rotation' := quat_mul (rotation self) rq in
  ({| point := point self;
      rotational_velocity := rotational_velocity self;
      axis_of_rotation := axis_of_rotation self;
      rotation := rotation' |},
   eulerAngles rotation').

End EulerAngles.

(** [set_velocity_component(x, y, z)] on a body by value, that is a body
    whose velocity vector no other body holds: a component is overwritten
    when its argument is not [None]; the [print] at the end has no effect
    on the body. *)
Definition set_velocity_component (self : PhysicsBody) (vx vy vz : option R)
    : PhysicsBody :=
  let v := velocity (point self) in
  let v := match vx with Some r => mkvec3 r (y v) (z v) | None => v end in
  let v := match vy with Some r => mkvec3 (x v) r (z v) | None => v end in
  let v := match vz with Some r => mkvec3 (x v) (y v) r | None => v end in
  set_velocity self v.

End PhysicsBodyHandler.

Import PhysicsBodyHandler.

(** ** physics/physics_handler.py *)

Module PhysicsHandler.

(** The local variables of an impulse computation that the returned
    value is built from. *)
Record impulse_locals : Type := mkLocals {
  rel_tan_vel : vec3;
  normal_impulse : vec3;
  friction_impulse : vec3
}.

(** The body of [calculate_impluse1] up to its [return]. *)
Definition impluse1_locals (physics_body : PhysicsBody) (inv_mass : R)
    (omega radius : vec3) (inv_inertia : mat3)
    (elasticity kinetic static : R) (normal : vec3) : result impulse_locals :=
  (* normal impulse *)
  let relative_velocity := vadd (velocity (point physics_body)) (cross omega radius) in
  let relative_normal_velocity := dot relative_velocity normal in
  (* calculate denominator *)
  let denominator :=
    inv_mass + dot normal (cross (mat3_mulv inv_inertia (cross radius normal)) radius) in
  (* calculate normal impulse *)
  if Req_dec_T denominator 0 then Raise ZeroDivisionError
  else
    let normal_impulse_magnitude :=
      - (1 + elasticity) * relative_normal_velocity / denominator in
    let normal_impulse := vscale normal_impulse_magnitude normal in
    (* friction impulse *)
    let rel_tan_vel :=
      vsub relative_velocity (vscale (dot relative_velocity normal) normal) in
    let friction_impulse :=
      if Rlt_dec (length rel_tan_vel) 1e-6 then vzero
      else vscale (- kinetic * length normal_impulse) (normalize rel_tan_vel) in
    Ok {| rel_tan_vel := rel_tan_vel;
          normal_impulse := normal_impulse;
          friction_impulse := friction_impulse |}.

Definition calculate_impluse1 (physics_body : PhysicsBody) (inv_mass : R)
    (omega radius : vec3) (inv_inertia : mat3)
    (elasticity kinetic static : R) (normal : vec3) : result vec3 :=
  l <- impluse1_locals physics_body inv_mass omega radius inv_inertia
         elasticity kinetic static normal ;;
  (* return total impulse *)
  Ok (vround3 (vadd (normal_impulse l) (friction_impulse l))).

(** The body of [calculate_impulse2] up to its [return]. *)
Definition impulse2_locals (physics_body1 physics_body2 : PhysicsBody)
    (inv_mass1 inv_mass2 : R) (omega1 omega2 radius1 radius2 : vec3)
    (inv_inertia1 inv_inertia2 : mat3)
    (elasticity kinetic static : R) (normal : vec3) : result impulse_locals :=
  (* normal impulse *)
  let relative_velocity :=
    vsub (vadd (velocity (point physics_body1)) (cross omega1 radius1))
         (vadd (velocity (point physics_body2)) (cross omega2 radius2)) in
  let relative_normal_velocity := dot relative_velocity normal in
  (* calculate denominator *)
  let term1 := inv_mass1 + inv_mass2 in
  let term2 :=
    dot normal
      (vadd (cross (mat3_mulv inv_inertia1 (cross radius1 normal)) radius1)
            (cross (mat3_mulv inv_inertia2 (cross radius2 normal)) radius2)) in
  (* calculate normal impulse *)
  if Req_dec_T (term1 + term2) 0 then Raise ZeroDivisionError
  else
    let normal_impulse :=
      vscale (- (1 + elasticity) * relative_normal_velocity / (term1 + term2)) normal in
    (* friction impulse *)
    let rel_tan_vel :=
      vsub relative_velocity (vscale (dot relative_velocity normal) normal) in
    let friction_impulse :=
      if Rlt_dec (length rel_tan_vel) 1e6 then vzero
      else vscale (- kinetic * length normal_impulse) (normalize rel_tan_vel) in
    Ok {| rel_tan_vel := rel_tan_vel;
          normal_impulse := normal_impulse;
          friction_impulse := friction_impulse |}.

Definition calculate_impulse2 (physics_body1 physics_body2 : PhysicsBody)
    (inv_mass1 inv_mass2 : R) (omega1 omega2 radius1 radius2 : vec3)
    (inv_inertia1 inv_inertia2 : mat3)
    (elasticity kinetic static : R) (normal : vec3) : result vec3 :=
  l <- impulse2_locals physics_body1 physics_body2 inv_mass1 inv_mass2
         omega1 omega2 radius1 radius2 inv_inertia1 inv_inertia2
         elasticity kinetic static normal ;;
  (* return total impulse *)
  Ok (vround3 (vadd (normal_impulse l) (friction_impulse l))).

Definition apply_impulse (radius impulse_signed : vec3) (inv_inertia : mat3)
    (inv_mass : R) (physics_body : PhysicsBody) : PhysicsBody :=
  (* update linear velocity *)
  let velocity' := vadd (velocity (point physics_body)) (vscale inv_mass impulse_signed) in
  (* update rotational velocity *)
  let delta_omega := mat3_mulv inv_inertia (cross radius impulse_signed) in
  let angular_velocity_vector :=
    vadd (vscale (rotational_velocity physics_body) (axis_of_rotation physics_body))
         delta_omega in
  if Rlt_dec (length angular_velocity_vector) 1e-6   (* no rotation *)
  then
    {| point := {| mass := mass (point physics_body); velocity := velocity' |};
       rotational_velocity := 0;
       axis_of_rotation := mkvec3 1 0 0;
       rotation := rotation physics_body |}
  else
    {| point := {| mass := mass (point physics_body); velocity := velocity' |};
       rotational_velocity := length angular_velocity_vector;
       axis_of_rotation := normalize angular_velocity_vector;
       rotation := rotation physics_body |}.

(** [1 / mass] on Python numbers. *)
Definition py_inv (m : R) : result R :=
  if Req_dec_T m 0 then Raise ZeroDivisionError else Ok (1 / m).

Definition omega_of (b : PhysicsBody) : vec3 :=
  vscale (rotational_velocity b) (axis_of_rotation b).

(** The loops of [calculate_collisions], first on bodies given by value:
    two bodies are then two objects that share no vector.  ([Objects]
    below has the same call on bodies that may share their velocity
    vector.)

    An inverse inertia tensor with infinite or NaN entries makes every
    number computed from it infinite or NaN: the denominator of the
    impulse is then never [0], nothing is raised, and the iteration leaves
    a body whose rotational velocity is no real number. *)

(** One iteration of the loop over contact points when both colliders
    have a physics body. *)
Definition contact_step2 (normal : vec3) (collider1 collider2 : Collider)
    (inv_mass1 inv_mass2 : R) (inv_inertia1 inv_inertia2 : option mat3)
    (elasticity kinetic static : R) (num_points : nat)
    (bodies : PhysicsBody * PhysicsBody) (contact_point : vec3)
    : result (PhysicsBody * PhysicsBody) :=
  let '(physics_body1, physics_body2) := bodies in
  (* apply impulse based reduced by total points *)
  let radius1 := vsub contact_point (geometric_center collider1) in
  let radius2 := vsub contact_point (geometric_center collider2) in
  inv_inertia1 <- finite inv_inertia1 ;;
  inv_inertia2 <- finite inv_inertia2 ;;
  impulse <- calculate_impulse2 physics_body1 physics_body2 inv_mass1 inv_mass2
               (omega_of physics_body1) (omega_of physics_body2) radius1 radius2
               inv_inertia1 inv_inertia2 elasticity kinetic static normal ;;
  let impulse := vdiv impulse (INR num_points) in
  (* apply impulses *)
  Ok (apply_impulse radius1 impulse inv_inertia1 inv_mass1 physics_body1,
      apply_impulse radius2 (vneg impulse) inv_inertia2 inv_mass2 physics_body2).

(** One iteration of either loop over contact points when exactly one
    collider has a physics body; [sign] is [vneg] for body 1 and the
    identity for body 2. *)
Definition contact_step1 (normal : vec3) (collider : Collider)
    (inv_mass : R) (inv_inertia : option mat3)
    (elasticity kinetic static : R) (num_points : nat) (sign : vec3 -> vec3)
    (physics_body : PhysicsBody) (contact_point : vec3) : result PhysicsBody :=
  let radius := vsub contact_point (geometric_center collider) in
  inv_inertia <- finite inv_inertia ;;
  impulse <- calculate_impluse1 physics_body inv_mass (omega_of physics_body) radius
               inv_inertia elasticity kinetic static normal ;;
  let impulse := vdiv impulse (INR num_points) in
  Ok (apply_impulse radius (sign impulse) inv_inertia inv_mass physics_body).

(** A [for] loop over a list whose body may raise. *)
Fixpoint for_each {S A : Type} (step : S -> A -> result S) (l : list A) (s : S)
    : result S :=
  match l with
  | [] => Ok s
  | a :: rest => s' <- step s a ;; for_each step rest s'
  end.

(** [1 / mass] and the inverse inertia tensor of a collider that has a
    physics body.  The mass is divided first and raises for [0]; the
    inverse is only stored here. *)
Definition physics_data (collider : Collider) (physics_body : PhysicsBody)
    : result (R * option mat3) :=
  inv_mass <- py_inv (mass (point physics_body)) ;;
  Ok (inv_mass,
      inverse (get_inertia_tensor (vertices collider) (geometric_center collider)
                 (mass (point physics_body)))).

Definition calculate_collisions (normal : vec3) (collider1 collider2 : Collider)
    (physics_body1 physics_body2 : option PhysicsBody) (contact_points : list vec3)
    : result (option PhysicsBody * option PhysicsBody) :=
  (* gets coefficients *)
  let elasticity := Rmax (elasticity collider1) (elasticity collider2) in
  let kinetic := 0.8 in
  let static := Rmin (static_friction collider1) (static_friction collider2) in
  let num_points := List.length contact_points in
  match physics_body1, physics_body2 with
  | Some b1, Some b2 =>
      (* get physics data from valid bodies *)
      d1 <- physics_data collider1 b1 ;;
      d2 <- physics_data collider2 b2 ;;
      (* calculate impulses from contact points *)
      bs <- for_each (contact_step2 normal collider1 collider2 (fst d1) (fst d2)
                        (snd d1) (snd d2) elasticity kinetic static num_points)
              contact_points (b1, b2) ;;
      Ok (Some (fst bs), Some (snd bs))
  | Some b1, None =>
      d1 <- physics_data collider1 b1 ;;
      b <- for_each (contact_step1 normal collider1 (fst d1) (snd d1)
                       elasticity kinetic static num_points vneg)
             contact_points b1 ;;
      Ok (Some b, None)
  | None, Some b2 =>   (* only physics body 2 *)
      d2 <- physics_data collider2 b2 ;;
      b <- for_each (contact_step1 normal collider2 (fst d2) (snd d2)
                       elasticity kinetic static num_points (fun i => i))
             contact_points b2 ;;
      Ok (None, Some b)
  | None, None =>
      (* the last loop reads [inv_mass2], which was never assigned *)
      match contact_points with
      | [] => Ok (None, None)
      | _ :: _ => Raise UnboundLocalError
      end
  end.

(** The inner loop of [update] for one body whose velocity vector is none
    of the accelerations:
    [for acceleration in self.accelerations: body.velocity += acceleration * delta_time]. *)
Definition accelerate_body (accelerations : list vec3) (delta_time : R)
    (body : PhysicsBody) : PhysicsBody :=
  fold_left
    (fun b acceleration =>
       set_velocity b (vadd (velocity (point b)) (vscale delta_time acceleration)))
    accelerations body.

(** *** Objects *)

(** Python objects, by identity.  A location names a [glm.vec3] object or
    a list object; a list of vectors holds the locations of its items.
    [self.accelerations] is a reference to a list object; the list
    written as default argument of [__init__] is one object, made when the
    class body runs and handed to every handler that is built without
    [accelerations]. *)
Definition loc : Type := nat.

Record Heap : Type := mkHeap {
  vecs : loc -> vec3;
  lists : loc -> list loc
}.

(** [vec += v] on the [glm.vec3] object at [l]: the object is changed in
    place, for every holder of a reference to it. *)
Definition iadd (heap : Heap) (l : loc) (v : vec3) : Heap :=
  {| vecs := fun l' => if Nat.eqb l' l then vadd (vecs heap l') v else vecs heap l';
     lists := lists heap |}.

Definition default_accelerations : loc := 0%nat.

(** The vector [glm.vec3(0, -.8, 0)] of the default list. *)
Definition default_acceleration : loc := 0%nat.

(** The heap once the class is defined: the default list holds
    [glm.vec3(0, -.8, 0)]. *)
Definition initial_heap : Heap :=
  {| vecs := fun l => if Nat.eqb l default_acceleration
                      then mkvec3 0 (-0.8) 0 else vzero;
     lists := fun l => if Nat.eqb l default_accelerations
                       then [default_acceleration] else [] |}.

Module Objects.

(** A physics body as an object.  [PointPhysicsBody.__init__] keeps the
    vector it is given ([self.velocity = velocity if velocity else ...]),
    so [velocity] is a reference, which several bodies may hold, and
    [body.velocity += ...] changes the vector in place.  The other
    attributes are numbers or vectors that the body copies
    ([glm.vec3(axis_of_rotation)]) or rebinds, never changes in place:
    they are held by value. *)
Record PhysicsBody : Type := mkPhysicsBody {
  mass : R;
  velocity : loc;
  rotational_velocity : R;
  axis_of_rotation : vec3;
  rotation : quat
}.

(** What the attributes of a body are worth in a heap. *)
Definition value (heap : Heap) (b : PhysicsBody) : PhysicsBodyHandler.PhysicsBody :=
  {| point := {| PhysicsBodyHandler.mass := mass b;
                 PhysicsBodyHandler.velocity := vecs heap (velocity b) |};
     PhysicsBodyHandler.rotational_velocity := rotational_velocity b;
     PhysicsBodyHandler.axis_of_rotation := axis_of_rotation b;
     PhysicsBodyHandler.rotation := rotation b |}.

(** The handler: only its list of bodies matters here. *)
Record Handler : Type := mkHandler { physics_bodies : list PhysicsBody }.

(** [apply_impulse]: the body after the call and the heap after it. *)
Definition apply_impulse (radius impulse_signed : vec3) (inv_inertia : mat3)
    (inv_mass : R) (physics_body : PhysicsBody) (heap : Heap)
    : PhysicsBody * Heap :=
  (* update linear velocity *)
  let heap := iadd heap (velocity physics_body) (vscale inv_mass impulse_signed) in
  (* update rotational velocity *)
  let delta_omega := mat3_mulv inv_inertia (cross radius impulse_signed) in
  let angular_velocity_vector :=
    vadd (vscale (rotational_velocity physics_body) (axis_of_rotation physics_body))
         delta_omega in
  if Rlt_dec (length angular_velocity_vector) 1e-6   (* no rotation *)
  then
    ({| mass := mass physics_body;
        velocity := velocity physics_body;
        rotational_velocity := 0;
        axis_of_rotation := mkvec3 1 0 0;
        rotation := rotation physics_body |}, heap)
  else
    ({| mass := mass physics_body;
        velocity := velocity physics_body;
        rotational_velocity := length angular_velocity_vector;
        axis_of_rotation := normalize angular_velocity_vector;
        rotation := rotation physics_body |}, heap).

(** One iteration of the loop over contact points when both colliders
    have a physics body.  The impulse is computed from the velocities
    as they are in the heap; body 2 is changed after body 1, in the heap
    that the change of body 1 leaves. *)
Definition contact_step2 (normal : vec3) (collider1 collider2 : Collider)
    (inv_mass1 inv_mass2 : R) (inv_inertia1 inv_inertia2 : option mat3)
    (elasticity kinetic static : R) (num_points : nat)
    (state : PhysicsBody * PhysicsBody * Heap) (contact_point : vec3)
    : result (PhysicsBody * PhysicsBody * Heap) :=
  let '(physics_body1, physics_body2, heap) := state in
  (* apply impulse based reduced by total points *)
  let radius1 := vsub contact_point (geometric_center collider1) in
  let radius2 := vsub contact_point (geometric_center collider2) in
  inv_inertia1 <- finite inv_inertia1 ;;
  inv_inertia2 <- finite inv_inertia2 ;;
  impulse <- calculate_impulse2 (value heap physics_body1) (value heap physics_body2)
               inv_mass1 inv_mass2
               (omega_of (value heap physics_body1)) (omega_of (value heap physics_body2))
               radius1 radius2 inv_inertia1 inv_inertia2
               elasticity kinetic static normal ;;
  let impulse := vdiv impulse (INR num_points) in
  (* apply impulses *)
  let '(physics_body1, heap) :=
    apply_impulse radius1 impulse inv_inertia1 inv_mass1 physics_body1 heap in
  let '(physics_body2, heap) :=
    apply_impulse radius2 (vneg impulse) inv_inertia2 inv_mass2 physics_body2 heap in
  Ok (physics_body1, physics_body2, heap).

(** One iteration of either loop over contact points when exactly one
    collider has a physics body; [sign] is [vneg] for body 1 and the
    identity for body 2. *)
Definition contact_step1 (normal : vec3) (collider : Collider)
    (inv_mass : R) (inv_inertia : option mat3)
    (elasticity kinetic static : R) (num_points : nat) (sign : vec3 -> vec3)
    (state : PhysicsBody * Heap) (contact_point : vec3)
    : result (PhysicsBody * Heap) :=
  let '(physics_body, heap) := state in
  let radius := vsub contact_point (geometric_center collider) in
  inv_inertia <- finite inv_inertia ;;
  impulse <- calculate_impluse1 (value heap physics_body) inv_mass
               (omega_of (value heap physics_body)) radius
               inv_inertia elasticity kinetic static normal ;;
  let impulse := vdiv impulse (INR num_points) in
  Ok (apply_impulse radius (sign impulse) inv_inertia inv_mass physics_body heap).

(** [calculate_collisions]: the two bodies and the heap after the call.
    The two bodies are two objects; what they may share is the vector
    that their [velocity] refers to. *)
Definition calculate_collisions (normal : vec3) (collider1 collider2 : Collider)
    (physics_body1 physics_body2 : option PhysicsBody) (contact_points : list vec3)
    (heap : Heap)
    : result (option PhysicsBody * option PhysicsBody * Heap) :=
  (* gets coefficients *)
  let elasticity := Rmax (elasticity collider1) (elasticity collider2) in
  let kinetic := 0.8 in
  let static := Rmin (static_friction collider1) (static_friction collider2) in
  let num_points := List.length contact_points in
  match physics_body1, physics_body2 with
  | Some b1, Some b2 =>
      (* get physics data from valid bodies *)
      d1 <- physics_data collider1 (value heap b1) ;;
      d2 <- physics_data collider2 (value heap b2) ;;
      (* calculate impulses from contact points *)
      s <- for_each (contact_step2 normal collider1 collider2 (fst d1) (fst d2)
                       (snd d1) (snd d2) elasticity kinetic static num_points)
             contact_points (b1, b2, heap) ;;
      Ok (Some (fst (fst s)), Some (snd (fst s)), snd s)
  | Some b1, None =>
      d1 <- physics_data collider1 (value heap b1) ;;
      s <- for_each (contact_step1 normal collider1 (fst d1) (snd d1)
                       elasticity kinetic static num_points vneg)
             contact_points (b1, heap) ;;
      Ok (Some (fst s), None, snd s)
  | None, Some b2 =>   (* only physics body 2 *)
      d2 <- physics_data collider2 (value heap b2) ;;
      s <- for_each (contact_step1 normal collider2 (fst d2) (snd d2)
                       elasticity kinetic static num_points (fun i => i))
             contact_points (b2, heap) ;;
      Ok (None, Some (fst s), snd s)
  | None, None =>
      (* the last loop reads [inv_mass2], which was never assigned *)
      match contact_points with
      | [] => Ok (None, None, heap)
      | _ :: _ => Raise UnboundLocalError
      end
  end.

(** The inner loop of [update]:
    [for acceleration in self.accelerations: body.velocity += acceleration * delta_time].
    The product is a new vector; the sum is stored in the vector that
    [body.velocity] refers to. *)
Definition accelerate_body (accelerations : list loc) (delta_time : R)
    (heap : Heap) (body : PhysicsBody) : Heap :=
  fold_left
    (fun heap acceleration =>
       iadd heap (velocity body) (vscale delta_time (vecs heap acceleration)))
    accelerations heap.

End Objects.

(** *** The handler object and its accelerations *)

Section Update.

(** The scene: the physics body handler and the collection handler, whose
    class is not among the sources; its [update], which may change any
    object, is a parameter. *)
Variable CollectionHandler : Type.

Record Scene : Type := mkScene {
  physics_body_handler : Objects.Handler;
  collection_handler : CollectionHandler
}.

Variable collection_handler_update : Scene -> Heap -> R -> Scene * Heap.

Record PhysicsHandlerObj : Type := mkPhysicsHandler {
  scene : option Scene;
  accelerations : loc
}.

(** [PhysicsHandler.__init__]; [None] for [accelerations] is the omitted
    argument. *)
Definition PhysicsHandler_init (scene : option Scene) (accelerations : option loc)
    : PhysicsHandlerObj :=
  {| scene := scene;
     accelerations := match accelerations with
                      | Some l => l
                      | None => default_accelerations
                      end |}.

(** [add_acceleration]: [self.accelerations.append(acceleration)]. *)
Definition add_acceleration (self : PhysicsHandlerObj) (heap : Heap)
    (acceleration : loc) : Heap :=
  {| vecs := vecs heap;
     lists := fun l => if Nat.eqb l (accelerations self)
                       then lists heap l ++ [acceleration]
                       else lists heap l |}.

(** [update]: the handler and the heap after the call. *)
Definition update (self : PhysicsHandlerObj) (heap : Heap) (delta_time : R)
    : PhysicsHandlerObj * Heap :=
  match scene self with
  | None => (self, heap)   (* when project has no scene *)
  | Some sc =>
      (* accelerate all physics bodies by external accelerations *)
      let heap :=
        fold_left
          (fun heap body =>
             Objects.accelerate_body (lists heap (accelerations self)) delta_time
               heap body)
          (Objects.physics_bodies (physics_body_handler sc)) heap in
      (* update collections *)
      let '(sc, heap) := collection_handler_update sc heap delta_time in
      ({| scene := Some sc; accelerations := accelerations self |}, heap)
  end.

End Update.

End PhysicsHandler.

Import PhysicsHandler.

(** ** skeletons/joints.py *)

Module Joints.

(** Modelled from the spec: the class [Collection] of
    [scripts/collections/collection.py] is not among the sources.  A
    collection is given the two attributes [Joint.restrict] reads and
    writes: a world position and a physics body that may be absent. *)
Record Collection : Type := mkCollection {
  position : vec3;
  physics_body : option PhysicsBody
}.

Record Joint : Type := mkJoint {
  parent_offset : vec3;
  original_parent_offset : vec4;
  child_offset : R;              (* radial joint *)
  spring_constant : R;
  min_radius : R;
  max_radius : R
}.

(** [Joint.__init__]. *)
Definition Joint_init (parent_offset child_offset : vec3)
    (spring_constant min_radius max_radius : R) : Joint :=
  {| parent_offset := parent_offset;
     original_parent_offset :=
       mkvec4 0 (x parent_offset) (y parent_offset) (z parent_offset);
     child_offset := length child_offset;
     spring_constant := spring_constant;
     min_radius := min_radius;
     max_radius := max_radius |}.

Definition has_body (c : Collection) : bool :=
  match physics_body c with Some _ => true | None => false end.

Definition with_body (c : Collection) (pos : vec3) (b : PhysicsBody) : Collection :=
  {| position := pos; physics_body := Some b |}.

(** [math.sqrt]. *)
Definition py_sqrt (r : R) : result R :=
  if Rlt_dec r 0 then Raise ValueError else Ok (sqrt r).

(** The spring branch of [restrict], the one guarded by
    [False and (child.physics_body or parent.physics_body)]. *)
Definition restrict_spring (self : Joint) (parent child : Collection)
    (delta_time : R) (origin direction : vec3) : result (Collection * Collection) :=
  let force_spring :=
    vscale (length (vsub origin (position child)) - child_offset self)
           (vscale (spring_constant self) direction) in
  root <- py_sqrt (spring_constant self) ;;
  child_body <- of_option AttributeError (physics_body child) ;;
  let force_dampen := vscale (- root) (velocity (point child_body)) in
  let force_total :=
    vscale (if has_body child && has_body parent then 0.5 else 1)
           (vadd force_spring force_dampen) in
  let child :=
    match physics_body child with
    | Some b =>
        let acceleration := vdiv force_total (mass (point b)) in
        let v := vadd (velocity (point b)) (vscale delta_time acceleration) in
        with_body child (vadd (position child) (vscale delta_time v)) (set_velocity b v)
    | None => child
    end in
  let parent :=
    match physics_body parent with
    | Some b =>
        let acceleration := vdiv (vneg force_total) (mass (point b)) in
        let v := vadd (velocity (point b)) (vscale delta_time acceleration) in
        with_body parent (vadd (position parent) (vscale delta_time v)) (set_velocity b v)
    | None => parent
    end in
  Ok (parent, child).

(** [Joint.restrict]; the result is the pair [(parent, child)] after the
    call. *)
Definition restrict (self : Joint) (parent child : Collection) (delta_time : R)
    : result (Collection * Collection) :=
  let origin := vadd (position parent) (parent_offset self) in
  let displacement := vsub origin (position child) in
  if Rlt_dec (length displacement) 1e-7 then Ok (parent, child)
  else
    let direction := normalize displacement in
    (* if the collection has a physics body do this *)
    if false && (has_body child || has_body parent)
    then restrict_spring self parent child delta_time origin direction
    (* snap to position if it does not *)
    else Ok (parent, {| position := origin; physics_body := physics_body child |}).

End Joints.

Import Joints.

(** ** collisions/sutherland_hodgman.py *)

Module SutherlandHodgman.

Definition inside_plane (point plane_point plane_normal : vec3) : bool :=
  if Rge_dec (dot plane_normal (vsub point plane_point)) 0 then true else false.

Definition line_intersect (point1 point2 plane_point plane_normal : vec3)
    : result vec3 :=
  let line := vsub point2 point1 in
  (* watch this line for division by zero *)
  if Req_dec_T (dot plane_normal line) 0 then Raise ZeroDivisionError
  else
    let t := dot plane_normal (vsub plane_point point1) / dot plane_normal line in
    Ok (vadd point1 (vscale t line)).

End SutherlandHodgman.

Import SutherlandHodgman.

(** * Stated properties and sample inputs *)

(** ** Support oracle *)

(** [p] is the first point of [points] at which the dot product with
    [direction] is maximal. *)
Definition first_argmax (points : list vec3) (direction p : vec3) : Prop :=
  exists l1 l2 : list vec3,
    points = l1 ++ p :: l2 /\
    (forall q, In q l1 -> dot q direction < dot p direction) /\
    (forall q, In q l2 -> dot q direction <= dot p direction).

Definition unit_x : vec3 := mkvec3 1 0 0.

(** One point two million units down the x axis. *)
Definition far_points : list vec3 := [mkvec3 (-2000000) 0 0].

(** ** Contact point *)

(** A degenerate nearest face: three distinct collinear vertices. *)
Definition flat_polytope : list vec3 := [mkvec3 1 0 0; mkvec3 2 0 0; mkvec3 3 0 0].

Definition flat_face : nat * nat * nat := (0%nat, 1%nat, 2%nat).

Definition body1_points : list vec3 := [mkvec3 2 0 0].

Definition body2_points : list vec3 := [vzero].

(** The body-1 support points of the three vertices of a face. *)
Definition face_supports1 (points1 points2 : list vec3) (a b c : vec3) : list vec3 :=
  [fst (get_support_points_from_minkowski points1 points2 a);
   fst (get_support_points_from_minkowski points1 points2 b);
   fst (get_support_points_from_minkowski points1 points2 c)].

(** The combination of the three body-1 support points with the signed
    volumes of the origin against the edges of the face, each divided by
    [d]. *)
Definition barycentric_interpolation (points1 : list vec3) (normal a b c : vec3)
    (d : R) : vec3 :=
  vadd (vadd (vscale (signed_volume normal vzero b c / d) (get_furthest_point points1 a))
             (vscale (signed_volume normal vzero c a / d) (get_furthest_point points1 b)))
       (vscale (signed_volume normal vzero a b / d) (get_furthest_point points1 c)).

(** ** Physics bodies *)

Definition mat3_id : mat3 := mkmat3 (mkvec3 1 0 0) (mkvec3 0 1 0) (mkvec3 0 0 1).




(** The body made by [PhysicsBody(-1)]. *)
Definition negative_mass_body : PhysicsBody :=
  {| point := {| mass := -1; velocity := vzero |};
     rotational_velocity := 0;
     axis_of_rotation := mkvec3 1 0 0;
     rotation := quat_identity |}.

(** ** Impulses *)

(** A unit-mass body that moves along the normal (1, 0, 0) and slides
    along y, without rotating. *)
Definition sliding_body : PhysicsBody :=
  {| point := {| mass := 1; velocity := mkvec3 1 1 0 |};
     rotational_velocity := 0;
     axis_of_rotation := mkvec3 1 0 0;
     rotation := quat_identity |}.

(** A unit-mass body at rest. *)
Definition resting_body : PhysicsBody :=
  {| point := {| mass := 1; velocity := vzero |};
     rotational_velocity := 0;
     axis_of_rotation := mkvec3 1 0 0;
     rotation := quat_identity |}.

(** The impulse that the formula [-kinetic * |J| * normalize(v_t)] gives. *)
Definition kinetic_friction_formula (kinetic : R) (l : impulse_locals) : vec3 :=
  vscale (- kinetic * length (normal_impulse l)) (normalize (rel_tan_vel l)).

(** A unit-mass body that moves along the normal. *)
Definition moving_body : PhysicsBody :=
  {| point := {| mass := 1; velocity := mkvec3 1 0 0 |};
     rotational_velocity := 0;
     axis_of_rotation := mkvec3 1 0 0;
     rotation := quat_identity |}.

(** A prefab of two opposite corners, and the collider it gives at
    position (tx, 0, 0) with unit scale, no rotation and elasticity 1. *)
Definition corner_prefab : list vec3 := [mkvec3 1 1 1; mkvec3 (-1) (-1) (-1)].

Definition corner_collider (tx : R) : Collider :=
  let vertices := [mkvec3 (tx + 1) 1 1; mkvec3 (tx - 1) (-1) (-1)] in
  {| data := [tx; 0; 0; 1; 1; 1; 0; 0; 0];
     unique_points := corner_prefab;
     vertices := vertices;
     dimensions := mkvec3 2 2 2;
     geometric_center := mkvec3 tx 0 0;
     base_volume := 8;
     static := false;
     elasticity := 1;
     inertia_tensor := get_inertia_tensor vertices (mkvec3 tx 0 0) 1;
     static_friction := 0.8;
     kinetic_friction := 0.4 |}.

(** Total change of linear momentum of two bodies. *)
Definition momentum_change (before1 after1 before2 after2 : PhysicsBody) : vec3 :=
  vadd (vscale (mass (point before1))
               (vsub (velocity (point after1)) (velocity (point before1))))
       (vscale (mass (point before2))
               (vsub (velocity (point after2)) (velocity (point before2)))).

(** A cube of side 2, and the collider it gives at position (tx, 0, 0)
    with unit scale, no rotation and elasticity 1.  Its inertia tensor is
    twice the identity. *)
Definition cube_prefab : list vec3 :=
  [mkvec3 1 1 1; mkvec3 1 1 (-1); mkvec3 1 (-1) 1; mkvec3 1 (-1) (-1);
   mkvec3 (-1) 1 1; mkvec3 (-1) 1 (-1); mkvec3 (-1) (-1) 1; mkvec3 (-1) (-1) (-1)].

Definition cube_collider (tx : R) : Collider :=
  let vertices := map (vadd (mkvec3 tx 0 0)) cube_prefab in
  {| data := [tx; 0; 0; 1; 1; 1; 0; 0; 0];
     unique_points := cube_prefab;
     vertices := vertices;
     dimensions := mkvec3 2 2 2;
     geometric_center := mkvec3 tx 0 0;
     base_volume := 8;
     static := false;
     elasticity := 1;
     inertia_tensor := get_inertia_tensor vertices (mkvec3 tx 0 0) 1;
     static_friction := 0.8;
     kinetic_friction := 0.4 |}.

Definition half_id : mat3 :=
  mkmat3 (mkvec3 (1 / 2) 0 0) (mkvec3 0 (1 / 2) 0) (mkvec3 0 0 (1 / 2)).

(** Two unit-mass bodies as objects, with velocity vectors of their own
    at locations 1 and 2, and a heap in which the first moves along x and
    the second is at rest. *)
Definition moving_object : Objects.PhysicsBody :=
  {| Objects.mass := 1;
     Objects.velocity := 1%nat;
     Objects.rotational_velocity := 0;
     Objects.axis_of_rotation := mkvec3 1 0 0;
     Objects.rotation := quat_identity |}.

Definition resting_object : Objects.PhysicsBody :=
  {| Objects.mass := 1;
     Objects.velocity := 2%nat;
     Objects.rotational_velocity := 0;
     Objects.axis_of_rotation := mkvec3 1 0 0;
     Objects.rotation := quat_identity |}.

Definition head_on_heap : Heap :=
  {| vecs := fun l => if Nat.eqb l 1 then mkvec3 1 0 0 else vzero;
     lists := fun _ => [] |}.

(** The number of bodies of a list that hold the vector at [r] as their
    velocity. *)
Fixpoint holders (r : loc) (bodies : list Objects.PhysicsBody) : nat :=
  match bodies with
  | [] => 0
  | b :: rest => (if Nat.eqb (Objects.velocity b) r then 1 else 0) + holders r rest
  end.

(** The sum of the vectors that a list of accelerations holds. *)
Definition acceleration_sum (heap : Heap) (accelerations : list loc) : vec3 :=
  fold_left vadd (map (vecs heap) accelerations) vzero.

(** A body built from the velocity vector of [moving_object], and a scene
    of three bodies of which the first two share that vector, under a
    handler built without [accelerations].  The collection handler of the
    scene does nothing. *)
Definition twin_object : Objects.PhysicsBody :=
  {| Objects.mass := 2;
     Objects.velocity := 1%nat;
     Objects.rotational_velocity := 0;
     Objects.axis_of_rotation := mkvec3 1 0 0;
     Objects.rotation := quat_identity |}.

Definition twin_bodies : list Objects.PhysicsBody :=
  [moving_object; twin_object; resting_object].

Definition twin_scene : Scene unit :=
  {| physics_body_handler := {| Objects.physics_bodies := twin_bodies |};
     collection_handler := tt |}.

Definition twin_handler : PhysicsHandlerObj unit :=
  PhysicsHandler_init unit (Some twin_scene) None.

Definition idle_update (sc : Scene unit) (heap : Heap) (delta_time : R)
    : Scene unit * Heap := (sc, heap).

(** The impulse before rounding. *)
Definition raw_impulse (l : impulse_locals) : vec3 :=
  vadd (normal_impulse l) (friction_impulse l).

(** A unit-mass body that creeps along the normal. *)
Definition creeping_body : PhysicsBody :=
  {| point := {| mass := 1; velocity := mkvec3 0.0001 0 0 |};
     rotational_velocity := 0;
     axis_of_rotation := mkvec3 1 0 0;
     rotation := quat_identity |}.

(** ** Joints *)

(** A joint with no offsets and spring constant 1. *)
Definition unit_joint : Joint := Joint_init vzero vzero 1 0 1.

(** A parent without physics body, two units from the child. *)
Definition anchor_parent : Collection :=
  {| position := mkvec3 2 0 0; physics_body := None |}.

(** A child with a physics body, at the origin. *)
Definition spring_child : Collection :=
  {| position := vzero; physics_body := Some resting_body |}.

(** The anchor of a joint in world space. *)
Definition anchor (self : Joint) (parent : Collection) : vec3 :=
  vadd (position parent) (parent_offset self).

(** ** Collider caches *)

(** What [set_data] makes of the collider at the origin when only the x
    scale is doubled: every cache follows the new data except the
    inertia tensor. *)
Definition stretched_collider : Collider :=
  {| data := [0; 0; 0; 2; 1; 1; 0; 0; 0];
     unique_points := corner_prefab;
     vertices := [mkvec3 2 1 1; mkvec3 (-2) (-1) (-1)];
     dimensions := mkvec3 4 2 2;
     geometric_center := vzero;
     base_volume := 8;
     static := false;
     elasticity := 1;
     inertia_tensor := inertia_tensor (corner_collider 0);
     static_friction := 0.8;
     kinetic_friction := 0.4 |}.

(** What [set_data] makes of it when only the x rotation is set to a
    quarter turn. *)
Definition turned_collider : Collider :=
  {| data := [0; 0; 0; 1; 1; 1; PI / 2; 0; 0];
     unique_points := corner_prefab;
     vertices := [mkvec3 1 1 (-1); mkvec3 (-1) (-1) 1];
     dimensions := mkvec3 2 2 2;
     geometric_center := vzero;
     base_volume := 8;
     static := false;
     elasticity := 1;
     inertia_tensor := inertia_tensor (corner_collider 0);
     static_friction := 0.8;
     kinetic_friction := 0.4 |}.

(** The inertia tensor that belongs to the cached vertices. *)
Definition fresh_inertia_tensor (c : Collider) : mat3 :=
  get_inertia_tensor (vertices c) (geometric_center c) 1.

(** ** Rounding *)

(** A vector whose three components are multiples of 1/1000. *)
Definition three_decimals (v : vec3) : Prop :=
  exists kx ky kz : Z,
    v = mkvec3 (IZR kx / 1000) (IZR ky / 1000) (IZR kz / 1000).

(** All three components are below 0.0005 in magnitude. *)
Definition below_half_unit (v : vec3) : Prop :=
  Rabs (x v) < 0.0005 /\ Rabs (y v) < 0.0005 /\ Rabs (z v) < 0.0005.

(** Each component is within half a unit of the last place. *)
Definition within_half_unit (v w : vec3) : Prop :=
  Rabs (x v - x w) <= 0.0005 /\ Rabs (y v - y w) <= 0.0005 /\
  Rabs (z v - z w) <= 0.0005.

(** What rounding to three decimals means for the returned vector [J] of
    an unrounded impulse [raw]; the last part is what the caller then
    applies, [J / num_points] and its negation. *)
Definition rounded_from (raw J : vec3) : Prop :=
  J = vround3 raw /\
  three_decimals J /\
  within_half_unit J raw /\
  (below_half_unit raw ->
   J = vzero /\
   forall num_points : nat,
     vdiv J (INR num_points) = vzero /\ vneg (vdiv J (INR num_points)) = vzero).

(** ** Further sample inputs *)

(** Three points, two of which tie in the x direction. *)
Definition tie_points : list vec3 := [vzero; mkvec3 1 0 0; mkvec3 1 1 0].

(** A proper nearest face: the triangle on the three unit points, with a
    normal along its own. *)
Definition unit_triangle : list vec3 := [mkvec3 1 0 0; mkvec3 0 1 0; mkvec3 0 0 1].

Definition diagonal : vec3 := mkvec3 1 1 1.

(** ** The model transform, part by part *)

(** Rotations by [a] about the negative x, y and z axes. *)
Definition rot_x (a : R) (v : vec3) : vec3 :=
  mkvec3 (x v) (cos a * y v + sin a * z v) (- sin a * y v + cos a * z v).

Definition rot_y (a : R) (v : vec3) : vec3 :=
  mkvec3 (cos a * x v - sin a * z v) (y v) (sin a * x v + cos a * z v).

Definition rot_z (a : R) (v : vec3) : vec3 :=
  mkvec3 (cos a * x v + sin a * y v) (- sin a * x v + cos a * y v) (z v).

(** Component-wise product. *)
Definition vmul (s v : vec3) : vec3 := mkvec3 (x s * x v) (y s * y v) (z s * z v).

(** ** Bounding boxes *)

(** Component-wise order. *)
Definition vle (a b : vec3) : Prop := x a <= x b /\ y a <= y b /\ z a <= z b.

(** Every coordinate lies strictly between the start values -1e10 and
    1e10 of the bounding-box loops. *)
Definition in_box_range (v : vec3) : Prop :=
  (-1e10 < x v < 1e10) /\ (-1e10 < y v < 1e10) /\ (-1e10 < z v < 1e10).

(** [lo] and [hi] are the corners of the smallest box around [vs]: every
    point lies between them and every face of the box touches a point. *)
Definition tight_box (vs : list vec3) (lo hi : vec3) : Prop :=
  (forall v, In v vs -> vle lo v /\ vle v hi) /\
  (exists v, In v vs /\ x v = x lo) /\ (exists v, In v vs /\ x v = x hi) /\
  (exists v, In v vs /\ y v = y lo) /\ (exists v, In v vs /\ y v = y hi) /\
  (exists v, In v vs /\ z v = z lo) /\ (exists v, In v vs /\ z v = z hi).

(** ** Inertia tensors *)

(** The quadratic form [v . (m v)] of a matrix. *)
Definition quadratic_form (m : mat3) (v : vec3) : R := dot v (mat3_mulv m v).

Definition symmetric (m : mat3) : Prop :=
  x (m1 m) = y (m0 m) /\ x (m2 m) = z (m0 m) /\ y (m2 m) = z (m1 m).

(** The form carried by the entries the accumulation loop writes: the
    diagonal and the entries [0][1], [0][2] and [1][2]. *)
Definition upper_form (t : mat3) (v : vec3) : R :=
  x (m0 t) * (x v * x v) + y (m1 t) * (y v * y v) + z (m2 t) * (z v * z v)
  + 2 * (y (m0 t) * (x v * y v)) + 2 * (z (m0 t) * (x v * z v))
  + 2 * (z (m1 t) * (y v * z v)).

(** ** Orientation *)

(** The squared norm of a quaternion. *)
Definition quat_norm2 (q : quat) : R :=
  qw q * qw q + qx q * qx q + qy q * qy q + qz q * qz q.

(** ** Bodies in a collision *)

(** The part of a body that no impulse changes. *)
Definition fixed_part (b : PhysicsBody) : R * quat := (mass (point b), rotation b).

(** The angular velocity vector that [apply_impulse] computes before it
    tests its length. *)
Definition angular_velocity_vector
    (radius impulse : vec3) (inv_inertia : mat3) (b : PhysicsBody) : vec3 :=
  vadd (omega_of b) (mat3_mulv inv_inertia (cross radius impulse)).

(** * Properties *)

(** ** Vectors and rounding *)

Lemma vec3_eq (a b : vec3) : x a = x b -> y a = y b -> z a = z b -> a = b.
Proof. destruct a, b; simpl; intros; subst; reflexivity. Qed.

Lemma dot_self_nonneg (a : vec3) : 0 <= dot a a.
Proof. unfold dot. nra. Qed.

Lemma length_nonneg (a : vec3) : 0 <= length a.
Proof. apply sqrt_pos. Qed.

Lemma dot_vscale (s : R) (a : vec3) : dot (vscale s a) (vscale s a) = (s * s) * dot a a.
Proof. unfold dot, vscale; simpl. ring. Qed.

Lemma length_vscale (s : R) (a : vec3) : 0 <= s -> length (vscale s a) = s * length a.
Proof.
  intros Hs. unfold length. rewrite dot_vscale.
  rewrite sqrt_mult by (try apply dot_self_nonneg; nra).
  rewrite sqrt_square by assumption. reflexivity.
Qed.

(** A vector of non-zero length is normalised to unit length. *)
Lemma length_normalize (a : vec3) : length a <> 0 -> length (normalize a) = 1.
Proof.
  intros Hn. unfold normalize. fold (length a).
  assert (Hpos : 0 < length a) by (pose proof (length_nonneg a); lra).
  rewrite length_vscale.
  - field. assumption.
  - apply Rlt_le. apply Rdiv_lt_0_compat; lra.
Qed.


Lemma length_vzero : length vzero = 0.
Proof.
  unfold length, dot, vzero; simpl.
  replace (0 * 0 + 0 * 0 + 0 * 0) with 0 by ring. apply sqrt_0.
Qed.

Lemma vneg_vzero : vneg vzero = vzero.
Proof. apply vec3_eq; simpl; ring. Qed.

Lemma vdiv_vzero (s : R) : vdiv vzero s = vzero.
Proof. apply vec3_eq; simpl; unfold Rdiv; ring. Qed.

Lemma vscale_vzero (s : R) : vscale s vzero = vzero.
Proof. apply vec3_eq; simpl; ring. Qed.

(** [Int_part] is the floor. *)
Lemma Int_part_bounds (r : R) : IZR (Int_part r) <= r < IZR (Int_part r) + 1.
Proof.
  unfold Int_part. rewrite minus_IZR. destruct (archimed r) as [H1 H2]. lra.
Qed.

Lemma Int_part_unique (r : R) (k : Z) : IZR k <= r < IZR k + 1 -> Int_part r = k.
Proof.
  intros [H1 H2]. destruct (Int_part_bounds r) as [H3 H4].
  assert (Hlt1 : (Int_part r < k + 1)%Z).
  { apply lt_IZR. rewrite plus_IZR. lra. }
  assert (Hlt2 : (k < Int_part r + 1)%Z).
  { apply lt_IZR. rewrite plus_IZR. lra. }
  lia.
Qed.

Lemma Int_part_IZR (k : Z) : Int_part (IZR k) = k.
Proof. apply Int_part_unique. lra. Qed.

Lemma round_half_even_IZR (k : Z) : round_half_even (IZR k) = k.
Proof.
  unfold round_half_even. rewrite Int_part_IZR.
  destruct (Rlt_dec (IZR k - IZR k) (1 / 2)) as [_ | H]; [reflexivity | lra].
Qed.

(** The rounded value is within one half of the argument. *)
Lemma round_half_even_near (r : R) : Rabs (IZR (round_half_even r) - r) <= 1 / 2.
Proof.
  unfold round_half_even. destruct (Int_part_bounds r) as [H1 H2].
  destruct (Rlt_dec (r - IZR (Int_part r)) (1 / 2)) as [Ha | Ha].
  - apply Rabs_le. lra.
  - destruct (Rlt_dec (1 / 2) (r - IZR (Int_part r))) as [Hb | Hb].
    + rewrite plus_IZR. apply Rabs_le. lra.
    + destruct (Z.even (Int_part r)); [| rewrite plus_IZR]; apply Rabs_le; lra.
Qed.

Lemma round_half_even_small (r : R) : Rabs r < 1 / 2 -> round_half_even r = 0%Z.
Proof.
  intros Hr. apply Rabs_def2 in Hr. destruct Hr as [Hu Hl].
  unfold round_half_even.
  destruct (Rle_lt_dec 0 r) as [Hpos | Hneg].
  - rewrite (Int_part_unique r 0) by lra.
    destruct (Rlt_dec (r - 0) (1 / 2)); [reflexivity | lra].
  - rewrite (Int_part_unique r (-1)) by lra.
    destruct (Rlt_dec (r - -1) (1 / 2)); [lra |].
    destruct (Rlt_dec (1 / 2) (r - -1)); [reflexivity | lra].
Qed.

Lemma round3_small (r : R) : Rabs r < 0.0005 -> round3 r = 0.
Proof.
  intros Hr. unfold round3. rewrite round_half_even_small.
  - lra.
  - rewrite Rabs_mult. rewrite (Rabs_pos_eq 1000) by lra. lra.
Qed.

Lemma Rabs_le_bounds (a b : R) : Rabs a <= b -> - b <= a <= b.
Proof.
  intros H. unfold Rabs in H. destruct (Rcase_abs a); lra.
Qed.

Lemma round3_near (r : R) : Rabs (round3 r - r) <= 0.0005.
Proof.
  unfold round3. pose proof (round_half_even_near (r * 1000)) as H.
  apply Rabs_le_bounds in H. apply Rabs_le. lra.
Qed.

Lemma round3_IZR (k : Z) (r : R) : r * 1000 = IZR k -> round3 r = r.
Proof.
  intros H. unfold round3. rewrite H, round_half_even_IZR. lra.
Qed.

Lemma vround3_three_decimals (v : vec3) : three_decimals (vround3 v).
Proof.
  exists (round_half_even (x v * 1000)), (round_half_even (y v * 1000)),
         (round_half_even (z v * 1000)).
  reflexivity.
Qed.

Lemma vround3_near (v : vec3) : within_half_unit (vround3 v) v.
Proof. repeat split; simpl; apply round3_near. Qed.

Lemma vround3_small (v : vec3) : below_half_unit v -> vround3 v = vzero.
Proof.
  intros (Hx & Hy & Hz). unfold vround3.
  rewrite !round3_small by assumption. reflexivity.
Qed.

(** ** Support oracle *)

(** Decides the comparisons of a loop run on concrete numbers. *)
Ltac contradict_R := exfalso; unfold dot in *; simpl in *; lra.

Ltac decide_R :=
  repeat match goal with
    | |- context [Rgt_dec ?a ?b] =>
        first [ destruct (Rgt_dec a b) as [_ | ?]; [| contradict_R]
              | destruct (Rgt_dec a b) as [? | _]; [contradict_R |] ]
    | |- context [Rlt_dec ?a ?b] =>
        first [ destruct (Rlt_dec a b) as [_ | ?]; [| contradict_R]
              | destruct (Rlt_dec a b) as [? | _]; [contradict_R |] ]
    | |- context [Req_dec_T ?a ?b] =>
        first [ destruct (Req_dec_T a b) as [_ | ?]; [| contradict_R]
              | destruct (Req_dec_T a b) as [? | _]; [contradict_R |] ]
    end.

(** What the loop returns, for any starting pair: either the starting pair,
    no point having beaten it, or the first point with the largest dot
    product, which beats the starting value. *)
Lemma furthest_loop_spec (points : list vec3) (d : vec3) :
  forall (bp : vec3) (bd : R),
    (furthest_loop points d (bp, bd) = (bp, bd) /\
     forall q, In q points -> dot q d <= bd)
    \/
    (exists p, furthest_loop points d (bp, bd) = (p, dot p d) /\
               bd < dot p d /\ first_argmax points d p).
Proof.
  induction points as [| point rest IH]; intros bp bd; simpl.
  - left. split; [reflexivity | intros q []].
  - destruct (Rgt_dec (dot point d) bd) as [Hgt | Hle].
    + right. destruct (IH point (dot point d)) as [[Heq Hall] | (p & Heq & Hlt & Harg)].
      * exists point. rewrite Heq. repeat split; try lra.
        exists [], rest. repeat split; [intros q [] | exact Hall].
      * exists p. rewrite Heq. repeat split; try lra.
        destruct Harg as (l1 & l2 & Hl & H1 & H2).
        exists (point :: l1), l2. repeat split.
        -- rewrite Hl. reflexivity.
        -- intros q [<- | Hq]; [lra | auto].
        -- exact H2.
    + destruct (IH bp bd) as [[Heq Hall] | (p & Heq & Hlt & Harg)].
      * left. split; [exact Heq |].
        intros q [<- | Hq]; [lra | auto].
      * right. exists p. repeat split; try assumption.
        destruct Harg as (l1 & l2 & Hl & H1 & H2).
        exists (point :: l1), l2. repeat split.
        -- rewrite Hl. reflexivity.
        -- intros q [<- | Hq]; [lra | auto].
        -- exact H2.
Qed.

(** When some point has a dot product above the starting value -1e6, the
    result is the first point of the list with the largest dot product. *)
Lemma get_furthest_point_first_argmax (points : list vec3) (d : vec3) :
  (exists p, In p points /\ -1e6 < dot p d) ->
  first_argmax points d (get_furthest_point points d).
Proof.
  intros (p & Hin & Hp). unfold get_furthest_point.
  destruct (furthest_loop_spec points d vzero (-1e6)) as [[_ Hall] | (q & Heq & _ & Harg)].
  - specialize (Hall p Hin). lra.
  - rewrite Heq. exact Harg.
Qed.

(** When no point has a dot product above -1e6, the result is the initial
    [glm.vec3(0, 0, 0)]. *)
Lemma get_furthest_point_default (points : list vec3) (d : vec3) :
  (forall p, In p points -> dot p d <= -1e6) ->
  get_furthest_point points d = vzero.
Proof.
  intros Hall. unfold get_furthest_point.
  destruct (furthest_loop_spec points d vzero (-1e6)) as [[Heq _] | (q & _ & Hlt & Harg)].
  - rewrite Heq. reflexivity.
  - destruct Harg as (l1 & l2 & Hl & _ & _).
    assert (Hin : In q points) by (rewrite Hl; apply in_elt).
    specialize (Hall q Hin). lra.
Qed.

(** C7.  [get_furthest_point] does not return the furthest point of every
    non-empty list: on the single point (-2000000, 0, 0) and the direction
    (1, 0, 0) the only dot product, -2000000, does not exceed the starting
    value -1e6, and the call returns (0, 0, 0), which is not in the list
    and whose dot product with the direction is not the maximum. *)
Theorem get_furthest_point_beyond_start_value :
  get_furthest_point far_points unit_x = vzero /\
  ~ In (get_furthest_point far_points unit_x) far_points /\
  (forall p, In p far_points -> dot p unit_x = -2000000) /\
  dot (get_furthest_point far_points unit_x) unit_x = 0.
Proof.
  assert (H : get_furthest_point far_points unit_x = vzero).
  { apply get_furthest_point_default. intros p [<- | []].
    unfold dot, unit_x; simpl. lra. }
  rewrite H. repeat split.
  - intros [Heq | []]. apply (f_equal x) in Heq. simpl in Heq. lra.
  - intros p [<- | []]. unfold dot, unit_x; simpl. lra.
  - unfold dot, unit_x, vzero; simpl. lra.
Qed.

(** C1.  [get_support_point] never returns the Minkowski-difference
    support: its body computes the difference and has no [return], so
    every call yields [None]; for the two one-point lists below the
    difference it drops is (1, 0, 0). *)
Theorem get_support_point_returns_nothing :
  (forall points1 points2 d, get_support_point points1 points2 d = None) /\
  get_support_point [mkvec3 1 0 0] [vzero] unit_x = None /\
  vsub (get_furthest_point [mkvec3 1 0 0] unit_x)
       (get_furthest_point [vzero] (vneg unit_x)) = mkvec3 1 0 0.
Proof.
  split; [reflexivity | split; [reflexivity |]].
  unfold get_furthest_point, unit_x, vzero, vneg, dot; simpl.
  decide_R; simpl; apply vec3_eq; simpl; lra.
Qed.

(** ** Contact point *)

(** C5, the claim refuted.  The collinear face has total signed volume 0,
    below every positive epsilon; [calculate_contact_point] returns
    (0, 0, 0) for it, whereas the mean of the three body-1 support points
    is (2, 0, 0). *)
Lemma contact_point_zero_volume_is_not_mean :
  signed_volume unit_x (mkvec3 1 0 0) (mkvec3 2 0 0) (mkvec3 3 0 0) = 0 /\
  calculate_contact_point body1_points body2_points flat_polytope flat_face unit_x
    = Ok vzero /\
  get_average_point
    (face_supports1 body1_points body2_points
       (mkvec3 1 0 0) (mkvec3 2 0 0) (mkvec3 3 0 0)) = mkvec3 2 0 0 /\
  calculate_contact_point body1_points body2_points flat_polytope flat_face unit_x
    <> Ok (get_average_point
             (face_supports1 body1_points body2_points
                (mkvec3 1 0 0) (mkvec3 2 0 0) (mkvec3 3 0 0))).
Proof.
  assert (Hvol : signed_volume unit_x (mkvec3 1 0 0) (mkvec3 2 0 0) (mkvec3 3 0 0) = 0).
  { unfold signed_volume, dot, cross, vsub, unit_x; simpl. lra. }
  assert (Hcall : calculate_contact_point body1_points body2_points flat_polytope
                    flat_face unit_x = Ok vzero).
  { unfold calculate_contact_point, flat_face, flat_polytope; simpl.
    destruct (Req_dec_T _ 0) as [_ | Hne]; [reflexivity | contradiction]. }
  assert (Hmean : get_average_point
                    (face_supports1 body1_points body2_points
                       (mkvec3 1 0 0) (mkvec3 2 0 0) (mkvec3 3 0 0)) = mkvec3 2 0 0).
  { unfold get_average_point, face_supports1, get_support_points_from_minkowski,
      get_furthest_point, body1_points; simpl.
    decide_R; simpl; apply vec3_eq; simpl; lra. }
  repeat split; try assumption.
  rewrite Hcall, Hmean. intros Heq. injection Heq as Hx. lra.
Qed.

(** C5, amended.  There is no epsilon and no averaging.  When the total
    signed volume of the nearest face is exactly 0,
    [calculate_contact_point] returns (0, 0, 0), not the mean of the
    body-1 support points.  For every other volume, however small, it
    returns the barycentric interpolation of the three body-1 support
    points: the weights are the signed volumes of the origin against the
    three edges, divided by their sum, or, when their sum is 0, by the
    total volume. *)
Theorem calculate_contact_point_zero_volume
    (points1 points2 polytope : list vec3) (f0 f1 f2 : nat) (normal a b c : vec3) :
  nth_error polytope f0 = Some a ->
  nth_error polytope f1 = Some b ->
  nth_error polytope f2 = Some c ->
  let total_volume := signed_volume normal a b c in
  let sum_volumes :=
    signed_volume normal vzero b c + signed_volume normal vzero c a
    + signed_volume normal vzero a b in
  (total_volume = 0 ->
   calculate_contact_point points1 points2 polytope (f0, f1, f2) normal = Ok vzero) /\
  (total_volume <> 0 -> sum_volumes <> 0 ->
   calculate_contact_point points1 points2 polytope (f0, f1, f2) normal
   = Ok (barycentric_interpolation points1 normal a b c sum_volumes)) /\
  (total_volume <> 0 -> sum_volumes = 0 ->
   calculate_contact_point points1 points2 polytope (f0, f1, f2) normal
   = Ok (barycentric_interpolation points1 normal a b c total_volume)).
Proof.
  intros Ha Hb Hc total_volume sum_volumes.
  unfold calculate_contact_point, barycentric_interpolation.
  rewrite Ha, Hb, Hc. cbn [of_option bind get_support_points_from_minkowski].
  subst total_volume sum_volumes.
  remember (signed_volume normal a b c) as t eqn:Et.
  remember (signed_volume normal vzero b c) as pbc eqn:Ebc.
  remember (signed_volume normal vzero c a) as pca eqn:Eca.
  remember (signed_volume normal vzero a b) as pab eqn:Eab.
  clear Et Ebc Eca Eab.
  assert (Hsum : t <> 0 -> pbc / t + pca / t + pab / t = (pbc + pca + pab) / t)
    by (intros Ht; field; exact Ht).
  repeat split.
  - intros Hvol. destruct (Req_dec_T t 0); [reflexivity | contradiction].
  - intros Hvol Hs. destruct (Req_dec_T t 0) as [He | _]; [contradiction |].
    destruct (Req_dec_T (pbc / t + pca / t + pab / t) 0) as [Hz | Hnz].
    + exfalso. rewrite (Hsum Hvol) in Hz. apply Hs.
      replace (pbc + pca + pab) with ((pbc + pca + pab) / t * t) by (field; exact Hvol).
      rewrite Hz. ring.
    + f_equal. rewrite (Hsum Hvol).
      apply vec3_eq; cbn [vadd vscale x y z]; field; split; assumption.
  - intros Hvol Hs. destruct (Req_dec_T t 0) as [He | _]; [contradiction |].
    destruct (Req_dec_T (pbc / t + pca / t + pab / t) 0) as [_ | Hnz].
    + reflexivity.
    + exfalso. apply Hnz. rewrite (Hsum Hvol), Hs. field. exact Hvol.
Qed.

(** The amended statement at the collinear face, of volume 0, and at the
    unit triangle, whose volume and weights are not 0. *)
Lemma calculate_contact_point_zero_volume_witness :
  calculate_contact_point body1_points body2_points flat_polytope (0, 1, 2)%nat unit_x
    = Ok vzero /\
  calculate_contact_point body1_points body2_points unit_triangle (0, 1, 2)%nat diagonal
    = Ok (barycentric_interpolation body1_points diagonal
            (mkvec3 1 0 0) (mkvec3 0 1 0) (mkvec3 0 0 1)
            (signed_volume diagonal vzero (mkvec3 0 1 0) (mkvec3 0 0 1)
             + signed_volume diagonal vzero (mkvec3 0 0 1) (mkvec3 1 0 0)
             + signed_volume diagonal vzero (mkvec3 1 0 0) (mkvec3 0 1 0))).
Proof.
  split.
  - apply (calculate_contact_point_zero_volume body1_points body2_points flat_polytope
             0 1 2 unit_x (mkvec3 1 0 0) (mkvec3 2 0 0) (mkvec3 3 0 0)
             eq_refl eq_refl eq_refl).
    unfold signed_volume, dot, cross, vsub, unit_x; simpl. lra.
  - apply (calculate_contact_point_zero_volume body1_points body2_points unit_triangle
             0 1 2 diagonal (mkvec3 1 0 0) (mkvec3 0 1 0) (mkvec3 0 0 1)
             eq_refl eq_refl eq_refl).
    + unfold signed_volume, dot, cross, vsub, diagonal; simpl. lra.
    + unfold signed_volume, dot, cross, vsub, diagonal, vzero; simpl. lra.
Defined.

(** Every other volume, however small, takes the interpolation path: the
    result is the combination of the three body-1 support points with the
    barycentric weights, which sum to 1 whenever their raw sum is not 0. *)
Lemma calculate_contact_point_nonzero_volume
    (points1 points2 polytope : list vec3) (f0 f1 f2 : nat) (normal a b c : vec3) :
  nth_error polytope f0 = Some a ->
  nth_error polytope f1 = Some b ->
  nth_error polytope f2 = Some c ->
  signed_volume normal a b c <> 0 ->
  exists u v w : R,
    calculate_contact_point points1 points2 polytope (f0, f1, f2) normal
      = Ok (vadd (vadd (vscale u (get_furthest_point points1 a))
                       (vscale v (get_furthest_point points1 b)))
                 (vscale w (get_furthest_point points1 c))) /\
    (signed_volume normal vzero b c + signed_volume normal vzero c a
       + signed_volume normal vzero a b <> 0 ->
     u + v + w = 1).
Proof.
  intros Ha Hb Hc Hvol. unfold calculate_contact_point.
  rewrite Ha, Hb, Hc; simpl.
  destruct (Req_dec_T (signed_volume normal a b c) 0) as [He | _]; [contradiction |].
  remember (signed_volume normal a b c) as t eqn:Et.
  remember (signed_volume normal vzero b c) as pbc eqn:Ebc.
  remember (signed_volume normal vzero c a) as pca eqn:Eca.
  remember (signed_volume normal vzero a b) as pab eqn:Eab.
  clear Et Ebc Eca Eab.
  destruct (Req_dec_T (pbc / t + pca / t + pab / t) 0) as [Hs | Hs].
  - exists (pbc / t), (pca / t), (pab / t). split; [reflexivity |].
    intros Hsum. exfalso. apply Hsum.
    replace (pbc + pca + pab) with ((pbc / t + pca / t + pab / t) * t)
      by (field; assumption).
    rewrite Hs. ring.
  - remember (pbc / t) as u. remember (pca / t) as v. remember (pab / t) as w.
    exists (u / (u + v + w)), (v / (u + v + w)), (w / (u + v + w)).
    split; [reflexivity |]. intros _. field. assumption.
Qed.

(** ** Physics bodies *)

(** C6, the claim refuted.  A mass of -1 is not rejected: each of the
    three ways to make a body returns normally with mass -1. *)
Lemma negative_mass_is_accepted :
  -1 <= 0 /\
  PointPhysicsBody_init (-1) None = Ok {| mass := -1; velocity := vzero |} /\
  PhysicsBody_init (-1) None 0 None = Ok negative_mass_body /\
  add_physics_body {| physics_bodies := [] |} (-1) None 0 None
    = Ok ({| physics_bodies := [negative_mass_body] |}, negative_mass_body).
Proof. split; [lra | repeat split]. Qed.

(** C6, amended.  Construction never fails on the mass: for every mass,
    positive or not, [PointPhysicsBody], [PhysicsBody] and
    [add_physics_body] return a body that stores the mass as given, and
    [add_physics_body] appends that body to the handler's list. *)
Theorem body_construction_accepts_every_mass
    (m : R) (v : option vec3) (w : R) (a : option vec3) (h : Handler) :
  (exists pb, PointPhysicsBody_init m v = Ok pb /\ mass pb = m) /\
  (exists b, PhysicsBody_init m v w a = Ok b /\ mass (point b) = m /\
             add_physics_body h m v w a
               = Ok ({| physics_bodies := physics_bodies h ++ [b] |}, b)).
Proof.
  split.
  - eexists. split; reflexivity.
  - eexists. repeat split.
Qed.






(** ** Impulses *)

(** Unfolds the vector operations on concrete vectors. *)
Ltac vsimpl :=
  cbv [dot cross vadd vsub vscale vneg vdiv mat3_mulv mat3_scale mat3_div vzero
       x y z m0 m1 m2] in *.

Lemma length_eq (v : vec3) (r : R) : 0 <= r -> dot v v = r * r -> length v = r.
Proof. intros Hr Hd. unfold length. rewrite Hd. apply sqrt_square. exact Hr. Qed.

Lemma normalize_eq (v : vec3) (r : R) : length v = r -> normalize v = vscale (1 / r) v.
Proof. intros <-. reflexivity. Qed.

(** Replaces the length of a concrete vector in the goal by its value [r]. *)
Tactic Notation "length_is" constr(r) :=
  match goal with
  | |- context [length ?v] =>
      let H := fresh "Hlen" in
      assert (H : length v = r) by (apply length_eq; [lra | vsimpl; lra]);
      rewrite ?(normalize_eq v r H); rewrite ?H
  | |- context [normalize ?v] =>
      let H := fresh "Hlen" in
      assert (H : length v = r) by (apply length_eq; [lra | vsimpl; lra]);
      rewrite ?(normalize_eq v r H)
  end.

Lemma impulse2_locals_sliding :
  impulse2_locals sliding_body resting_body 1 1 vzero vzero vzero vzero
    mat3_id mat3_id 0 0.8 0.8 unit_x
  = Ok {| rel_tan_vel := mkvec3 0 1 0;
          normal_impulse := mkvec3 (-0.5) 0 0;
          friction_impulse := vzero |}.
Proof.
  unfold impulse2_locals.
  cbv [sliding_body resting_body mat3_id unit_x velocity point].
  destruct (Req_dec_T _ 0) as [He | _]; [exfalso; vsimpl; lra |].
  do 2 f_equal; try (apply vec3_eq; vsimpl; lra).
  length_is 1. destruct (Rlt_dec 1 1e6); [reflexivity | lra].
Qed.

Lemma impluse1_locals_sliding :
  impluse1_locals sliding_body 1 vzero vzero mat3_id 0 0.8 0.8 unit_x
  = Ok {| rel_tan_vel := mkvec3 0 1 0;
          normal_impulse := mkvec3 (-1) 0 0;
          friction_impulse := mkvec3 0 (-0.8) 0 |}.
Proof.
  unfold impluse1_locals.
  cbv [sliding_body mat3_id unit_x velocity point].
  destruct (Req_dec_T _ 0) as [He | _]; [exfalso; vsimpl; lra |].
  do 2 f_equal; try (apply vec3_eq; vsimpl; lra).
  length_is 1. destruct (Rlt_dec 1 1e-6); [lra |].
  length_is 1. apply vec3_eq; vsimpl; lra.
Qed.

(** C3.  The two paths do not treat friction alike.  Body 1 moves at
    (1, 1, 0) against a body at rest, normal (1, 0, 0), kinetic
    coefficient 0.8, no restitution: the tangential relative velocity is
    (0, 1, 0), of length 1, far above 1e-6.  [calculate_impulse2] tests
    the length against 1e6 and gives the friction impulse (0, 0, 0),
    where the formula gives (0, -0.4, 0); [calculate_impluse1], on the
    same moving body, tests against 1e-6 and gives (0, -0.8, 0). *)
Theorem two_body_friction_is_zero_while_sliding :
  let l2 := {| rel_tan_vel := mkvec3 0 1 0;
               normal_impulse := mkvec3 (-0.5) 0 0;
               friction_impulse := vzero |} in
  let l1 := {| rel_tan_vel := mkvec3 0 1 0;
               normal_impulse := mkvec3 (-1) 0 0;
               friction_impulse := mkvec3 0 (-0.8) 0 |} in
  impulse2_locals sliding_body resting_body 1 1 vzero vzero vzero vzero
    mat3_id mat3_id 0 0.8 0.8 unit_x = Ok l2 /\
  length (rel_tan_vel l2) = 1 /\
  ~ length (rel_tan_vel l2) < 1e-6 /\
  kinetic_friction_formula 0.8 l2 = mkvec3 0 (-0.4) 0 /\
  friction_impulse l2 <> kinetic_friction_formula 0.8 l2 /\
  impluse1_locals sliding_body 1 vzero vzero mat3_id 0 0.8 0.8 unit_x = Ok l1 /\
  friction_impulse l1 = kinetic_friction_formula 0.8 l1.
Proof.
  intros l2 l1.
  assert (Hlen : length (mkvec3 0 1 0) = 1) by (apply length_eq; [lra | vsimpl; lra]).
  assert (Hf2 : kinetic_friction_formula 0.8 l2 = mkvec3 0 (-0.4) 0).
  { unfold kinetic_friction_formula, l2; simpl.
    length_is 0.5. length_is 1. apply vec3_eq; vsimpl; lra. }
  assert (Hf1 : kinetic_friction_formula 0.8 l1 = mkvec3 0 (-0.8) 0).
  { unfold kinetic_friction_formula, l1; simpl.
    length_is 1. length_is 1. apply vec3_eq; vsimpl; lra. }
  repeat split.
  - apply impulse2_locals_sliding.
  - exact Hlen.
  - simpl. rewrite Hlen. lra.
  - exact Hf2.
  - rewrite Hf2. simpl. intros Heq. apply (f_equal y) in Heq. simpl in Heq. lra.
  - apply impluse1_locals_sliding.
  - rewrite Hf1. reflexivity.
Qed.

(** *** Rounding of the returned impulse *)

Lemma calculate_impluse1_rounded
    (b : PhysicsBody) (inv_mass : R) (omega radius : vec3) (inv_inertia : mat3)
    (e k s : R) (n J : vec3) :
  calculate_impluse1 b inv_mass omega radius inv_inertia e k s n = Ok J ->
  exists l, impluse1_locals b inv_mass omega radius inv_inertia e k s n = Ok l /\
            J = vround3 (raw_impulse l).
Proof.
  unfold calculate_impluse1.
  destruct (impluse1_locals b inv_mass omega radius inv_inertia e k s n) as [l | err |];
    simpl; intros H; [| discriminate ..].
  injection H as <-. exists l. split; reflexivity.
Qed.

Lemma calculate_impulse2_rounded
    (b1 b2 : PhysicsBody) (inv_mass1 inv_mass2 : R)
    (omega1 omega2 radius1 radius2 : vec3) (inv_inertia1 inv_inertia2 : mat3)
    (e k s : R) (n J : vec3) :
  calculate_impulse2 b1 b2 inv_mass1 inv_mass2 omega1 omega2 radius1 radius2
    inv_inertia1 inv_inertia2 e k s n = Ok J ->
  exists l, impulse2_locals b1 b2 inv_mass1 inv_mass2 omega1 omega2 radius1 radius2
              inv_inertia1 inv_inertia2 e k s n = Ok l /\
            J = vround3 (raw_impulse l).
Proof.
  unfold calculate_impulse2.
  destruct (impulse2_locals b1 b2 inv_mass1 inv_mass2 omega1 omega2 radius1 radius2
              inv_inertia1 inv_inertia2 e k s n) as [l | err |];
    simpl; intros H; [| discriminate ..].
  injection H as <-. exists l. split; reflexivity.
Qed.

Lemma vround3_rounded_from (raw : vec3) : rounded_from raw (vround3 raw).
Proof.
  repeat split; try apply vround3_near.
  - apply vround3_three_decimals.
  - apply vround3_small. assumption.
  - rewrite vround3_small by assumption. apply vdiv_vzero.
  - rewrite vround3_small by assumption. rewrite vdiv_vzero. apply vneg_vzero.
Qed.

(** C10.  Whenever [calculate_impluse1] or [calculate_impulse2] returns, the
    vector returned is the unrounded sum of normal and friction impulse
    with each component rounded to three decimals: its components are
    multiples of 1/1000 within 0.0005 of the unrounded ones, and when all
    unrounded components are below 0.0005 in magnitude the vector returned,
    and with it the impulse the caller applies, is (0, 0, 0). *)
Theorem impulses_are_rounded_to_three_decimals
    (b : PhysicsBody) (inv_mass : R) (omega radius : vec3) (inv_inertia : mat3)
    (e k s : R) (n J1 : vec3)
    (b1 b2 : PhysicsBody) (inv_mass1 inv_mass2 : R)
    (omega1 omega2 radius1 radius2 : vec3) (inv_inertia1 inv_inertia2 : mat3)
    (e' k' s' : R) (n' J2 : vec3) :
  calculate_impluse1 b inv_mass omega radius inv_inertia e k s n = Ok J1 ->
  calculate_impulse2 b1 b2 inv_mass1 inv_mass2 omega1 omega2 radius1 radius2
    inv_inertia1 inv_inertia2 e' k' s' n' = Ok J2 ->
  (exists l1, impluse1_locals b inv_mass omega radius inv_inertia e k s n = Ok l1 /\
              rounded_from (raw_impulse l1) J1) /\
  (exists l2, impulse2_locals b1 b2 inv_mass1 inv_mass2 omega1 omega2 radius1 radius2
                inv_inertia1 inv_inertia2 e' k' s' n' = Ok l2 /\
              rounded_from (raw_impulse l2) J2).
Proof.
  intros H1 H2.
  apply calculate_impluse1_rounded in H1. destruct H1 as (l1 & Hl1 & ->).
  apply calculate_impulse2_rounded in H2. destruct H2 as (l2 & Hl2 & ->).
  split; [exists l1 | exists l2]; (split; [assumption | apply vround3_rounded_from]).
Qed.

Lemma vround3_exact (v : vec3) (kx ky kz : Z) :
  x v * 1000 = IZR kx -> y v * 1000 = IZR ky -> z v * 1000 = IZR kz ->
  vround3 v = v.
Proof.
  intros Hx Hy Hz. apply vec3_eq; simpl; eapply round3_IZR; eassumption.
Qed.

Lemma calculate_impulse2_sliding :
  calculate_impulse2 sliding_body resting_body 1 1 vzero vzero vzero vzero
    mat3_id mat3_id 0 0.8 0.8 unit_x = Ok (mkvec3 (-0.5) 0 0).
Proof.
  unfold calculate_impulse2. rewrite impulse2_locals_sliding. simpl. f_equal.
  rewrite (vround3_exact _ (-500) 0 0) by (vsimpl; lra).
  apply vec3_eq; vsimpl; lra.
Qed.

Lemma calculate_impluse1_sliding :
  calculate_impluse1 sliding_body 1 vzero vzero mat3_id 0 0.8 0.8 unit_x
  = Ok (mkvec3 (-1) (-0.8) 0).
Proof.
  unfold calculate_impluse1. rewrite impluse1_locals_sliding. simpl. f_equal.
  rewrite (vround3_exact _ (-1000) (-800) 0) by (vsimpl; lra).
  apply vec3_eq; vsimpl; lra.
Qed.

Lemma impluse1_locals_creeping :
  impluse1_locals creeping_body 1 vzero vzero mat3_id 0 0.8 0.8 unit_x
  = Ok {| rel_tan_vel := vzero;
          normal_impulse := mkvec3 (-0.0001) 0 0;
          friction_impulse := vzero |}.
Proof.
  unfold impluse1_locals.
  cbv [creeping_body mat3_id unit_x velocity point].
  destruct (Req_dec_T _ 0) as [He | _]; [exfalso; vsimpl; lra |].
  do 2 f_equal; try (apply vec3_eq; vsimpl; lra).
  length_is 0. destruct (Rlt_dec 0 1e-6); [reflexivity | lra].
Qed.

(** An impulse of a tenth of a thousandth is returned as no impulse. *)
Lemma calculate_impluse1_creeping :
  calculate_impluse1 creeping_body 1 vzero vzero mat3_id 0 0.8 0.8 unit_x = Ok vzero.
Proof.
  unfold calculate_impluse1. rewrite impluse1_locals_creeping. simpl. f_equal.
  apply vround3_small. unfold below_half_unit. vsimpl.
  repeat split; apply Rabs_def1; lra.
Qed.

(** The statement of C10 at the creeping body (one-body path) and at the
    sliding pair (two-body path). *)
Lemma impulses_are_rounded_to_three_decimals_witness :
  (exists l1, impluse1_locals creeping_body 1 vzero vzero mat3_id 0 0.8 0.8 unit_x
                = Ok l1 /\
              rounded_from (raw_impulse l1) vzero) /\
  (exists l2, impulse2_locals sliding_body resting_body 1 1 vzero vzero vzero vzero
                mat3_id mat3_id 0 0.8 0.8 unit_x = Ok l2 /\
              rounded_from (raw_impulse l2) (mkvec3 (-0.5) 0 0)).
Proof.
  apply impulses_are_rounded_to_three_decimals.
  - exact calculate_impluse1_creeping.
  - exact calculate_impulse2_sliding.
Defined.

(** *** Momentum *)

Lemma apply_impulse_point
    (radius impulse : vec3) (inv_inertia : mat3) (inv_mass : R) (b : PhysicsBody) :
  point (apply_impulse radius impulse inv_inertia inv_mass b)
  = {| mass := mass (point b);
       velocity := vadd (velocity (point b)) (vscale inv_mass impulse) |}.
Proof.
  unfold apply_impulse. destruct (Rlt_dec _ 1e-6); reflexivity.
Qed.

Lemma py_inv_ok (m i : R) : py_inv m = Ok i -> m <> 0 /\ i = 1 / m.
Proof.
  unfold py_inv. destruct (Req_dec_T m 0); [discriminate |].
  intros H. injection H as <-. split; [assumption | reflexivity].
Qed.

(** [apply_impulse] on a body object: mass and velocity reference stay,
    and the heap changes at the velocity vector only. *)
Lemma object_apply_impulse
    (radius impulse : vec3) (inv_inertia : mat3) (inv_mass : R)
    (b b' : Objects.PhysicsBody) (heap heap' : Heap) :
  Objects.apply_impulse radius impulse inv_inertia inv_mass b heap = (b', heap') ->
  Objects.mass b' = Objects.mass b /\
  Objects.velocity b' = Objects.velocity b /\
  heap' = iadd heap (Objects.velocity b) (vscale inv_mass impulse).
Proof.
  unfold Objects.apply_impulse.
  destruct (Rlt_dec _ 1e-6); intros H; injection H as <- <-; repeat split.
Qed.

(** One contact: the impulse [J] goes to body 1 and [-J] to body 2.  When
    the two velocity vectors are two objects the mass-weighted changes
    cancel; when they are one object it gains [J / m1 - J / m2], which is
    nothing for equal masses. *)
Lemma object_contact_step2_momentum
    (normal : vec3) (c1 c2 : Collider) (ii1 ii2 : option mat3) (e k s : R)
    (num_points : nat) (b1 b2 b1' b2' : Objects.PhysicsBody) (heap heap' : Heap)
    (contact_point : vec3) :
  Objects.mass b1 <> 0 -> Objects.mass b2 <> 0 ->
  Objects.mass b1 = Objects.mass b2 \/ Objects.velocity b1 <> Objects.velocity b2 ->
  Objects.contact_step2 normal c1 c2 (1 / Objects.mass b1) (1 / Objects.mass b2)
    ii1 ii2 e k s num_points (b1, b2, heap) contact_point = Ok (b1', b2', heap') ->
  Objects.mass b1' = Objects.mass b1 /\ Objects.velocity b1' = Objects.velocity b1 /\
  Objects.mass b2' = Objects.mass b2 /\ Objects.velocity b2' = Objects.velocity b2 /\
  momentum_change (Objects.value heap b1) (Objects.value heap' b1')
                  (Objects.value heap b2) (Objects.value heap' b2') = vzero.
Proof.
  intros Hm1 Hm2 Hshare. unfold Objects.contact_step2.
  destruct ii1 as [i1 |]; cbn [finite bind]; [| discriminate].
  destruct ii2 as [i2 |]; cbn [finite bind]; [| discriminate].
  destruct (calculate_impulse2 _ _ _ _ _ _ _ _ _ _ _ _ _ _) as [J | err |];
    cbn [bind]; [| discriminate ..].
  destruct (Objects.apply_impulse _ _ i1 _ b1 heap) as [d1 h1] eqn:E1.
  destruct (Objects.apply_impulse _ _ i2 _ b2 h1) as [d2 h2] eqn:E2.
  intros H. injection H as <- <- <-.
  apply object_apply_impulse in E1. destruct E1 as (M1 & V1 & ->).
  apply object_apply_impulse in E2. destruct E2 as (M2 & V2 & ->).
  repeat split; try assumption.
  unfold momentum_change, Objects.value.
  cbn [mass velocity point vecs iadd]. rewrite V1, V2, !Nat.eqb_refl.
  generalize (vdiv J (INR num_points)). intros t.
  destruct (Nat.eqb_spec (Objects.velocity b1) (Objects.velocity b2)) as [Heq | Hne].
  - destruct Hshare as [Hmass | Hdiff]; [| contradiction].
    rewrite <- Heq, Nat.eqb_refl, Hmass.
    apply vec3_eq; vsimpl; field; auto.
  - destruct (Nat.eqb_spec (Objects.velocity b2) (Objects.velocity b1)) as [Heq | _];
      [symmetry in Heq; contradiction |].
    apply vec3_eq; vsimpl; field; auto.
Qed.

Lemma momentum_change_trans (a1 b1 c1 a2 b2 c2 : PhysicsBody) :
  mass (point b1) = mass (point a1) ->
  mass (point b2) = mass (point a2) ->
  momentum_change a1 b1 a2 b2 = vzero ->
  momentum_change b1 c1 b2 c2 = vzero ->
  momentum_change a1 c1 a2 c2 = vzero.
Proof.
  unfold momentum_change. intros -> -> H1 H2.
  apply (f_equal x) in H1 as H1x. apply (f_equal y) in H1 as H1y.
  apply (f_equal z) in H1 as H1z.
  apply (f_equal x) in H2 as H2x. apply (f_equal y) in H2 as H2y.
  apply (f_equal z) in H2 as H2z.
  simpl in *. apply vec3_eq; simpl; lra.
Qed.

(** The whole loop over the contact points, by induction on the points
    still to be visited. *)
Lemma object_contact_loop2_momentum
    (normal : vec3) (c1 c2 : Collider) (m1 m2 : R) (r1 r2 : loc)
    (ii1 ii2 : option mat3) (e k s : R)
    (num_points : nat) (contact_points : list vec3) :
  m1 <> 0 -> m2 <> 0 -> m1 = m2 \/ r1 <> r2 ->
  forall b1 b2 heap b1' b2' heap',
    Objects.mass b1 = m1 -> Objects.mass b2 = m2 ->
    Objects.velocity b1 = r1 -> Objects.velocity b2 = r2 ->
    for_each (Objects.contact_step2 normal c1 c2 (1 / m1) (1 / m2) ii1 ii2 e k s
                num_points)
      contact_points (b1, b2, heap) = Ok (b1', b2', heap') ->
    momentum_change (Objects.value heap b1) (Objects.value heap' b1')
                    (Objects.value heap b2) (Objects.value heap' b2') = vzero.
Proof.
  intros Hm1 Hm2 Hshare.
  induction contact_points as [| cp rest IH];
    intros b1 b2 heap b1' b2' heap' E1 E2 R1 R2; cbn [for_each].
  - intros H. injection H as <- <- <-.
    unfold momentum_change. apply vec3_eq; simpl; ring.
  - destruct (Objects.contact_step2 normal c1 c2 (1 / m1) (1 / m2) ii1 ii2 e k s
                num_points (b1, b2, heap) cp)
      as [[[d1 d2] h] | err |] eqn:Hstep; cbn [bind]; [| discriminate ..].
    intros Hrest. subst m1 m2 r1 r2.
    apply object_contact_step2_momentum in Hstep; try assumption.
    destruct Hstep as (M1 & V1 & M2 & V2 & Hmom).
    assert (Hrest' := IH d1 d2 h b1' b2' heap' M1 M2 V1 V2 Hrest).
    apply (momentum_change_trans _ (Objects.value h d1) _ _ (Objects.value h d2) _);
      try assumption.
Qed.

Lemma mat3_eq (a b : mat3) : m0 a = m0 b -> m1 a = m1 b -> m2 a = m2 b -> a = b.
Proof. destruct a, b; simpl; intros -> -> ->; reflexivity. Qed.

(** The two-corner collider has all its mass on one line through its
    center: its inertia tensor is singular. *)
Lemma corner_inverse_inertia (tx : R) :
  inverse (get_inertia_tensor (vertices (corner_collider tx))
             (geometric_center (corner_collider tx)) 1) = None.
Proof.
  assert (Ht : get_inertia_tensor (vertices (corner_collider tx))
                 (geometric_center (corner_collider tx)) 1
               = mkmat3 (mkvec3 2 (-1) (-1)) (mkvec3 (-1) 2 (-1)) (mkvec3 (-1) (-1) 2)).
  { unfold get_inertia_tensor, corner_collider.
    cbn [vertices geometric_center fold_left List.length].
    replace (INR 2) with 2 by (simpl; lra).
    unfold inertia_step, mat3_zero.
    apply mat3_eq; apply vec3_eq; vsimpl; field. }
  rewrite Ht. unfold inverse, determinant. cbn [m0 m1 m2 x y z].
  destruct (Req_dec_T _ 0) as [_ | Hdet]; [reflexivity | exfalso; lra].
Qed.

Lemma inertia_step_mk
    (c : vec3) (a00 a01 a02 a10 a11 a12 a20 a21 a22 : R) (p : vec3) :
  inertia_step c
    (mkmat3 (mkvec3 a00 a01 a02) (mkvec3 a10 a11 a12) (mkvec3 a20 a21 a22))
    (vadd c p)
  = mkmat3 (mkvec3 (a00 + (y p * y p + z p * z p)) (a01 - x p * y p) (a02 - x p * z p))
           (mkvec3 a10 (a11 + (x p * x p + z p * z p)) (a12 - y p * z p))
           (mkvec3 a20 a21 (a22 + (x p * x p + y p * y p))).
Proof.
  unfold inertia_step. apply mat3_eq; apply vec3_eq; vsimpl; ring.
Qed.

(** The cube collider has inertia tensor twice the identity, with inverse
    half the identity. *)
Lemma cube_inverse_inertia (tx : R) :
  inverse (get_inertia_tensor (vertices (cube_collider tx))
             (geometric_center (cube_collider tx)) 1) = Some half_id.
Proof.
  assert (Ht : get_inertia_tensor (vertices (cube_collider tx))
                 (geometric_center (cube_collider tx)) 1
               = mkmat3 (mkvec3 2 0 0) (mkvec3 0 2 0) (mkvec3 0 0 2)).
  { unfold get_inertia_tensor, cube_collider, cube_prefab.
    cbn [vertices geometric_center map fold_left List.length].
    replace (INR 8) with 8 by (simpl; lra).
    unfold mat3_zero, vzero. rewrite !inertia_step_mk. cbn [x y z m0 m1 m2].
    apply mat3_eq; apply vec3_eq; vsimpl; field. }
  rewrite Ht. unfold inverse, determinant. cbn [m0 m1 m2 x y z].
  destruct (Req_dec_T _ 0) as [Hdet | _]; [exfalso; lra |].
  unfold half_id. f_equal. apply mat3_eq; apply vec3_eq; cbn [m0 m1 m2 x y z]; lra.
Qed.

(** The impulse of the head-on collision of the two unit masses, with
    full restitution and the inverse inertia tensors of the cubes. *)
Lemma calculate_impulse2_head_on :
  calculate_impulse2 moving_body resting_body (1 / 1) (1 / 1)
    (omega_of moving_body) (omega_of resting_body)
    (vsub vzero (mkvec3 (-1) 0 0)) (vsub vzero (mkvec3 1 0 0))
    half_id half_id (Rmax 1 1) 0.8 (Rmin 0.8 0.8) unit_x
  = Ok (mkvec3 (-1) 0 0).
Proof.
  unfold calculate_impulse2, impulse2_locals.
  cbv [omega_of moving_body resting_body half_id unit_x mass point velocity
       rotational_velocity axis_of_rotation].
  destruct (Req_dec_T _ 0) as [He | _]; [exfalso; vsimpl; lra |].
  cbn [bind normal_impulse friction_impulse].
  length_is 0. destruct (Rlt_dec 0 1e6) as [_ | Hn]; [| exfalso; lra].
  rewrite (Rmax_left 1 1) by lra.
  match goal with
  | |- context [Rdiv _ ?d] =>
      let H := fresh "Hden" in assert (H : d = 2) by (vsimpl; lra); rewrite H
  end.
  f_equal. rewrite (vround3_exact _ (-1000) 0 0) by (vsimpl; lra).
  apply vec3_eq; vsimpl; lra.
Qed.

(** A head-on collision of two unit-mass cubes with full restitution: the
    moving body stops and the resting body leaves with its velocity. *)
Lemma calculate_collisions_head_on :
  calculate_collisions unit_x (cube_collider (-1)) (cube_collider 1)
    (Some moving_body) (Some resting_body) [vzero]
  = Ok (Some resting_body, Some moving_body).
Proof.
  unfold calculate_collisions, physics_data, py_inv.
  rewrite !cube_inverse_inertia.
  change (mass (point moving_body)) with 1. change (mass (point resting_body)) with 1.
  destruct (Req_dec_T 1 0) as [He | _]; [exfalso; lra |].
  cbn [bind fst snd for_each List.length].
  unfold contact_step2. cbn [finite bind].
  change (geometric_center (cube_collider (-1))) with (mkvec3 (-1) 0 0).
  change (geometric_center (cube_collider 1)) with (mkvec3 1 0 0).
  change (elasticity (cube_collider (-1))) with 1.
  change (elasticity (cube_collider 1)) with 1.
  change (static_friction (cube_collider (-1))) with 0.8.
  change (static_friction (cube_collider 1)) with 0.8.
  rewrite calculate_impulse2_head_on. cbn [bind INR].
  unfold apply_impulse.
  cbv [moving_body resting_body half_id mass point velocity rotational_velocity
       axis_of_rotation rotation].
  length_is 0. destruct (Rlt_dec 0 1e-6) as [_ | Hn]; [| exfalso; lra].
  length_is 0. destruct (Rlt_dec 0 1e-6) as [_ | Hn]; [| exfalso; lra].
  cbn [fst snd]. repeat f_equal; apply vec3_eq; vsimpl; lra.
Qed.

(** The same collision between the two body objects: the heap after it
    holds the two impulses, added to the two velocity vectors. *)
Lemma object_calculate_collisions_head_on :
  Objects.calculate_collisions unit_x (cube_collider (-1)) (cube_collider 1)
    (Some moving_object) (Some resting_object) [vzero] head_on_heap
  = Ok (Some moving_object, Some resting_object,
        iadd (iadd head_on_heap 1%nat (vscale (1 / 1) (vdiv (mkvec3 (-1) 0 0) 1)))
             2%nat (vscale (1 / 1) (vneg (vdiv (mkvec3 (-1) 0 0) 1)))).
Proof.
  unfold Objects.calculate_collisions, physics_data, py_inv.
  rewrite !cube_inverse_inertia.
  change (Objects.value head_on_heap moving_object) with moving_body.
  change (Objects.value head_on_heap resting_object) with resting_body.
  change (mass (point moving_body)) with 1. change (mass (point resting_body)) with 1.
  destruct (Req_dec_T 1 0) as [He | _]; [exfalso; lra |].
  cbn [bind fst snd for_each List.length].
  unfold Objects.contact_step2. cbn [finite bind].
  change (Objects.value head_on_heap moving_object) with moving_body.
  change (Objects.value head_on_heap resting_object) with resting_body.
  change (geometric_center (cube_collider (-1))) with (mkvec3 (-1) 0 0).
  change (geometric_center (cube_collider 1)) with (mkvec3 1 0 0).
  change (elasticity (cube_collider (-1))) with 1.
  change (elasticity (cube_collider 1)) with 1.
  change (static_friction (cube_collider (-1))) with 0.8.
  change (static_friction (cube_collider 1)) with 0.8.
  rewrite calculate_impulse2_head_on. cbn [bind INR].
  unfold Objects.apply_impulse.
  cbv [moving_object resting_object half_id Objects.mass Objects.velocity
       Objects.rotational_velocity Objects.axis_of_rotation Objects.rotation].
  length_is 0. destruct (Rlt_dec 0 1e-6) as [_ | Hn]; [| exfalso; lra].
  length_is 0. destruct (Rlt_dec 0 1e-6) as [_ | Hn]; [| exfalso; lra].
  cbn [fst snd]. reflexivity.
Qed.

(** What [apply_impulse] leaves of a body object is what [apply_impulse]
    makes of its value. *)
Lemma object_apply_impulse_value
    (radius impulse : vec3) (inv_inertia : mat3) (inv_mass : R)
    (b b' : Objects.PhysicsBody) (heap heap' : Heap) :
  Objects.apply_impulse radius impulse inv_inertia inv_mass b heap = (b', heap') ->
  Objects.value heap' b'
  = apply_impulse radius impulse inv_inertia inv_mass (Objects.value heap b).
Proof.
  unfold Objects.apply_impulse, apply_impulse, Objects.value.
  cbn [point mass velocity rotational_velocity axis_of_rotation rotation].
  destruct (Rlt_dec _ 1e-6); intros H; injection H as <- <-;
    cbn [Objects.mass Objects.velocity Objects.rotational_velocity
         Objects.axis_of_rotation Objects.rotation vecs iadd];
    rewrite Nat.eqb_refl; reflexivity.
Qed.

(** A body whose velocity is another vector keeps its value. *)
Lemma iadd_value_other (heap : Heap) (l : loc) (v : vec3) (b : Objects.PhysicsBody) :
  Objects.velocity b <> l -> Objects.value (iadd heap l v) b = Objects.value heap b.
Proof.
  intros Hne. unfold Objects.value. cbn [vecs iadd].
  destruct (Nat.eqb_spec (Objects.velocity b) l) as [Heq | _];
    [contradiction | reflexivity].
Qed.

(** A loop that simulates another, step by step. *)
Lemma for_each_simulation {S T A : Type} (related : S -> T -> Prop)
    (f : S -> A -> result S) (g : T -> A -> result T) :
  (forall s t a, related s t ->
     match f s a with
     | Ok s' => exists t', g t a = Ok t' /\ related s' t'
     | Raise e => g t a = Raise e
     | NotFinite => g t a = NotFinite
     end) ->
  forall l s t, related s t ->
    match for_each f l s with
    | Ok s' => exists t', for_each g l t = Ok t' /\ related s' t'
    | Raise e => for_each g l t = Raise e
    | NotFinite => for_each g l t = NotFinite
    end.
Proof.
  intros Hstep. induction l as [| a l IH]; intros s t Hrel; cbn [for_each].
  - exists t. split; [reflexivity | exact Hrel].
  - specialize (Hstep s t a Hrel).
    destruct (f s a) as [s1 | e |]; cbn [bind].
    + destruct Hstep as (t1 & -> & Hrel1). cbn [bind]. apply IH. exact Hrel1.
    + rewrite Hstep. reflexivity.
    + rewrite Hstep. reflexivity.
Qed.

Lemma object_contact_step1_value
    (normal : vec3) (c : Collider) (im : R) (ii : option mat3) (e k s : R) (n : nat)
    (sign : vec3 -> vec3) (o : Objects.PhysicsBody) (h : Heap) (cp : vec3) :
  match Objects.contact_step1 normal c im ii e k s n sign (o, h) cp with
  | Ok s' =>
      exists t',
        contact_step1 normal c im ii e k s n sign (Objects.value h o) cp = Ok t' /\
        t' = Objects.value (snd s') (fst s')
  | Raise err =>
      contact_step1 normal c im ii e k s n sign (Objects.value h o) cp = Raise err
  | NotFinite =>
      contact_step1 normal c im ii e k s n sign (Objects.value h o) cp = NotFinite
  end.
Proof.
  unfold Objects.contact_step1, contact_step1.
  destruct ii as [i |]; cbn [finite bind]; [| reflexivity].
  destruct (calculate_impluse1 _ _ _ _ _ _ _ _ _) as [J | err |];
    cbn [bind]; [| reflexivity ..].
  destruct (Objects.apply_impulse _ _ i _ o h) as [o' h'] eqn:E.
  eexists. split; [reflexivity |]. cbn [fst snd].
  symmetry. apply (object_apply_impulse_value _ _ _ _ _ _ _ _ E).
Qed.

Lemma object_contact_loop1_value
    (normal : vec3) (c : Collider) (im : R) (ii : option mat3) (e k s : R) (n : nat)
    (sign : vec3 -> vec3) (contact_points : list vec3)
    (o : Objects.PhysicsBody) (h : Heap) :
  match for_each (Objects.contact_step1 normal c im ii e k s n sign)
          contact_points (o, h) with
  | Ok s' =>
      for_each (contact_step1 normal c im ii e k s n sign) contact_points
        (Objects.value h o) = Ok (Objects.value (snd s') (fst s'))
  | Raise err =>
      for_each (contact_step1 normal c im ii e k s n sign) contact_points
        (Objects.value h o) = Raise err
  | NotFinite =>
      for_each (contact_step1 normal c im ii e k s n sign) contact_points
        (Objects.value h o) = NotFinite
  end.
Proof.
  pose proof (for_each_simulation
                (fun (s' : Objects.PhysicsBody * Heap) (t : PhysicsBody) =>
                   t = Objects.value (snd s') (fst s'))
                (Objects.contact_step1 normal c im ii e k s n sign)
                (contact_step1 normal c im ii e k s n sign)) as Hsim.
  assert (Hstep : forall (s' : Objects.PhysicsBody * Heap) (t : PhysicsBody) (a : vec3),
            t = Objects.value (snd s') (fst s') ->
            match Objects.contact_step1 normal c im ii e k s n sign s' a with
            | Ok s'' =>
                exists t', contact_step1 normal c im ii e k s n sign t a = Ok t' /\
                           t' = Objects.value (snd s'') (fst s'')
            | Raise err => contact_step1 normal c im ii e k s n sign t a = Raise err
            | NotFinite => contact_step1 normal c im ii e k s n sign t a = NotFinite
            end).
  { intros [o' h'] t a ->. apply object_contact_step1_value. }
  specialize (Hsim Hstep contact_points (o, h) (Objects.value h o) eq_refl).
  destruct (for_each _ contact_points (o, h)) as [s' | err |].
  - destruct Hsim as (t' & -> & ->). reflexivity.
  - exact Hsim.
  - exact Hsim.
Qed.

Lemma object_contact_loop2_value
    (normal : vec3) (c1 c2 : Collider) (im1 im2 : R) (ii1 ii2 : option mat3)
    (e k s : R) (n : nat) (contact_points : list vec3)
    (b1 b2 : Objects.PhysicsBody) (heap : Heap) :
  Objects.velocity b1 <> Objects.velocity b2 ->
  match for_each (Objects.contact_step2 normal c1 c2 im1 im2 ii1 ii2 e k s n)
          contact_points (b1, b2, heap) with
  | Ok s' =>
      for_each (contact_step2 normal c1 c2 im1 im2 ii1 ii2 e k s n) contact_points
        (Objects.value heap b1, Objects.value heap b2)
      = Ok (Objects.value (snd s') (fst (fst s')),
            Objects.value (snd s') (snd (fst s')))
  | Raise err =>
      for_each (contact_step2 normal c1 c2 im1 im2 ii1 ii2 e k s n) contact_points
        (Objects.value heap b1, Objects.value heap b2) = Raise err
  | NotFinite =>
      for_each (contact_step2 normal c1 c2 im1 im2 ii1 ii2 e k s n) contact_points
        (Objects.value heap b1, Objects.value heap b2) = NotFinite
  end.
Proof.
  intros Hshare.
  set (related :=
         fun (s' : Objects.PhysicsBody * Objects.PhysicsBody * Heap)
             (t : PhysicsBody * PhysicsBody) =>
           t = (Objects.value (snd s') (fst (fst s')),
                Objects.value (snd s') (snd (fst s'))) /\
           Objects.velocity (fst (fst s')) = Objects.velocity b1 /\
           Objects.velocity (snd (fst s')) = Objects.velocity b2).
  pose proof (for_each_simulation related
                (Objects.contact_step2 normal c1 c2 im1 im2 ii1 ii2 e k s n)
                (contact_step2 normal c1 c2 im1 im2 ii1 ii2 e k s n)) as Hsim.
  assert (Hstep : forall s' t a, related s' t ->
            match Objects.contact_step2 normal c1 c2 im1 im2 ii1 ii2 e k s n s' a with
            | Ok s'' =>
                exists t', contact_step2 normal c1 c2 im1 im2 ii1 ii2 e k s n t a = Ok t' /\
                           related s'' t'
            | Raise err => contact_step2 normal c1 c2 im1 im2 ii1 ii2 e k s n t a = Raise err
            | NotFinite => contact_step2 normal c1 c2 im1 im2 ii1 ii2 e k s n t a = NotFinite
            end).
  { intros [[o1 o2] h] t cp (-> & V1 & V2). cbn [fst snd] in *.
    unfold Objects.contact_step2, contact_step2.
    destruct ii1 as [i1 |]; cbn [finite bind]; [| reflexivity].
    destruct ii2 as [i2 |]; cbn [finite bind]; [| reflexivity].
    destruct (calculate_impulse2 _ _ _ _ _ _ _ _ _ _ _ _ _ _) as [J | err |];
      cbn [bind]; [| reflexivity ..].
    destruct (Objects.apply_impulse _ _ i1 _ o1 h) as [o1' h1] eqn:E1.
    destruct (Objects.apply_impulse _ _ i2 _ o2 h1) as [o2' h2] eqn:E2.
    pose proof (object_apply_impulse_value _ _ _ _ _ _ _ _ E1) as W1.
    pose proof (object_apply_impulse_value _ _ _ _ _ _ _ _ E2) as W2.
    apply object_apply_impulse in E1. destruct E1 as (_ & R1 & Eh1).
    apply object_apply_impulse in E2. destruct E2 as (_ & R2 & Eh2).
    eexists. split; [reflexivity |]. unfold related. cbn [fst snd].
    repeat split; try congruence.
    f_equal.
    - rewrite <- W1. rewrite Eh2. symmetry. apply iadd_value_other. congruence.
    - rewrite W2. f_equal. rewrite Eh1. symmetry. apply iadd_value_other.
      congruence. }
  specialize (Hsim Hstep contact_points (b1, b2, heap)
                (Objects.value heap b1, Objects.value heap b2)
                (conj eq_refl (conj eq_refl eq_refl))).
  destruct (for_each _ contact_points (b1, b2, heap)) as [s' | err |].
  - destruct Hsim as (t' & -> & -> & _). reflexivity.
  - exact Hsim.
  - exact Hsim.
Qed.

(** Two bodies by value are two body objects that share no vector: when
    the velocity vectors of the two objects are two vectors,
    [calculate_collisions] on the objects leaves the values that
    [calculate_collisions] on their values returns, and fails as it
    fails.  With one body, or none, there is nothing to share. *)
Lemma calculate_collisions_by_value
    (normal : vec3) (c1 c2 : Collider) (pb1 pb2 : option Objects.PhysicsBody)
    (contact_points : list vec3) (heap : Heap) :
  (forall b1 b2, pb1 = Some b1 -> pb2 = Some b2 ->
                 Objects.velocity b1 <> Objects.velocity b2) ->
  calculate_collisions normal c1 c2
    (option_map (Objects.value heap) pb1) (option_map (Objects.value heap) pb2)
    contact_points
  = match Objects.calculate_collisions normal c1 c2 pb1 pb2 contact_points heap with
    | Ok (pb1', pb2', heap') =>
        Ok (option_map (Objects.value heap') pb1', option_map (Objects.value heap') pb2')
    | Raise e => Raise e
    | NotFinite => NotFinite
    end.
Proof.
  intros Hshare. unfold calculate_collisions, Objects.calculate_collisions.
  destruct pb1 as [b1 |], pb2 as [b2 |]; cbn [option_map].
  - specialize (Hshare b1 b2 eq_refl eq_refl).
    destruct (physics_data c1 (Objects.value heap b1)) as [d1 | e |]; cbn [bind];
      [| reflexivity ..].
    destruct (physics_data c2 (Objects.value heap b2)) as [d2 | e |]; cbn [bind];
      [| reflexivity ..].
    match goal with
    | |- context [for_each (Objects.contact_step2 ?n ?a ?b ?i1 ?i2 ?j1 ?j2 ?e ?k ?s ?m)
                    contact_points (b1, b2, heap)] =>
        pose proof (object_contact_loop2_value n a b i1 i2 j1 j2 e k s m
                      contact_points b1 b2 heap Hshare) as Hloop
    end.
    destruct (for_each _ contact_points (b1, b2, heap)) as [[[o1 o2] h] | e |];
      cbn [bind fst snd] in *; rewrite Hloop; reflexivity.
  - destruct (physics_data c1 (Objects.value heap b1)) as [d1 | e |]; cbn [bind];
      [| reflexivity ..].
    match goal with
    | |- context [for_each (Objects.contact_step1 ?n ?a ?i ?j ?e ?k ?s ?m ?sg)
                    contact_points (b1, heap)] =>
        pose proof (object_contact_loop1_value n a i j e k s m sg
                      contact_points b1 heap) as Hloop
    end.
    destruct (for_each _ contact_points (b1, heap)) as [[o h] | e |];
      cbn [bind fst snd] in *; rewrite Hloop; reflexivity.
  - destruct (physics_data c2 (Objects.value heap b2)) as [d2 | e |]; cbn [bind];
      [| reflexivity ..].
    match goal with
    | |- context [for_each (Objects.contact_step1 ?n ?a ?i ?j ?e ?k ?s ?m ?sg)
                    contact_points (b2, heap)] =>
        pose proof (object_contact_loop1_value n a i j e k s m sg
                      contact_points b2 heap) as Hloop
    end.
    destruct (for_each _ contact_points (b2, heap)) as [[o h] | e |];
      cbn [bind fst snd] in *; rewrite Hloop; reflexivity.
  - destruct contact_points; reflexivity.
Qed.

(** C9, the claim refuted.  Two bodies of equal mass 1 on the two-corner
    colliders meet head-on, with no friction impulse.  The inertia tensor
    of such a collider is singular, [glm.inverse] returns infinite
    entries, the impulse is computed from them, and the velocities the
    call leaves are NaN: there is no momentum that could be conserved. *)
Lemma singular_inertia_tensor_breaks_momentum :
  Objects.mass moving_object = Objects.mass resting_object /\
  Objects.calculate_collisions unit_x (corner_collider (-1)) (corner_collider 1)
    (Some moving_object) (Some resting_object) [vzero] head_on_heap = NotFinite /\
  forall b1' b2' heap',
    Objects.calculate_collisions unit_x (corner_collider (-1)) (corner_collider 1)
      (Some moving_object) (Some resting_object) [vzero] head_on_heap
    <> Ok (Some b1', Some b2', heap').
Proof.
  assert (Hcall : Objects.calculate_collisions unit_x (corner_collider (-1))
                    (corner_collider 1) (Some moving_object) (Some resting_object)
                    [vzero] head_on_heap = NotFinite).
  { unfold Objects.calculate_collisions, physics_data, py_inv.
    rewrite !corner_inverse_inertia.
    change (mass (point (Objects.value head_on_heap moving_object))) with 1.
    change (mass (point (Objects.value head_on_heap resting_object))) with 1.
    destruct (Req_dec_T 1 0) as [He | _]; [exfalso; lra |].
    reflexivity. }
  split; [reflexivity |]. split; [exact Hcall |].
  intros b1' b2' heap'. rewrite Hcall. discriminate.
Qed.

(** C9, amended.  Whenever [calculate_collisions] resolves, with finite
    numbers, a collision between two colliders that both have a physics
    body, the linear momentum of the pair is unchanged,
    [m1 * dv1 + m2 * dv2 = 0], provided the masses are equal or the two
    bodies do not share their velocity vector: each contact applies the
    same impulse with sign + to body 1 and sign - to body 2.  A zero
    friction impulse, which the claim supposes, is not needed. *)
Theorem calculate_collisions_conserves_momentum
    (normal : vec3) (collider1 collider2 : Collider)
    (b1 b2 b1' b2' : Objects.PhysicsBody) (heap heap' : Heap)
    (contact_points : list vec3) :
  Objects.calculate_collisions normal collider1 collider2 (Some b1) (Some b2)
    contact_points heap = Ok (Some b1', Some b2', heap') ->
  Objects.mass b1 = Objects.mass b2 \/ Objects.velocity b1 <> Objects.velocity b2 ->
  momentum_change (Objects.value heap b1) (Objects.value heap' b1')
                  (Objects.value heap b2) (Objects.value heap' b2') = vzero.
Proof.
  unfold Objects.calculate_collisions, physics_data.
  change (mass (point (Objects.value heap b1))) with (Objects.mass b1).
  change (mass (point (Objects.value heap b2))) with (Objects.mass b2).
  destruct (py_inv (Objects.mass b1)) as [i1 | err |] eqn:H1; cbn [bind];
    [| discriminate ..].
  destruct (py_inv (Objects.mass b2)) as [i2 | err |] eqn:H2; cbn [bind];
    [| discriminate ..].
  apply py_inv_ok in H1. destruct H1 as [Hm1 ->].
  apply py_inv_ok in H2. destruct H2 as [Hm2 ->].
  cbn [fst snd].
  match goal with
  | |- context [for_each ?f contact_points (b1, b2, heap)] =>
      destruct (for_each f contact_points (b1, b2, heap))
        as [[[d1 d2] h] | err |] eqn:Hloop
  end; cbn [bind]; [| discriminate ..].
  cbn [fst snd]. intros H Hshare. injection H as <- <- <-.
  exact (object_contact_loop2_momentum normal collider1 collider2 _ _ _ _ _ _ _ _ _ _
           contact_points Hm1 Hm2 Hshare b1 b2 heap d1 d2 h
           eq_refl eq_refl eq_refl eq_refl Hloop).
Qed.

(** The amended statement at the head-on collision of the two cubes. *)
Lemma calculate_collisions_conserves_momentum_witness :
  momentum_change
    (Objects.value head_on_heap moving_object)
    (Objects.value
       (iadd (iadd head_on_heap 1%nat (vscale (1 / 1) (vdiv (mkvec3 (-1) 0 0) 1)))
             2%nat (vscale (1 / 1) (vneg (vdiv (mkvec3 (-1) 0 0) 1))))
       moving_object)
    (Objects.value head_on_heap resting_object)
    (Objects.value
       (iadd (iadd head_on_heap 1%nat (vscale (1 / 1) (vdiv (mkvec3 (-1) 0 0) 1)))
             2%nat (vscale (1 / 1) (vneg (vdiv (mkvec3 (-1) 0 0) 1))))
       resting_object)
  = vzero.
Proof.
  apply (calculate_collisions_conserves_momentum unit_x (cube_collider (-1))
           (cube_collider 1) moving_object resting_object moving_object
           resting_object head_on_heap _ [vzero]).
  - exact object_calculate_collisions_head_on.
  - left. reflexivity.
Defined.

(** ** Joints *)

Lemma length_anchor_gap :
  length (vsub (anchor unit_joint anchor_parent) (position spring_child)) = 2.
Proof.
  apply length_eq; [lra |].
  cbv [anchor unit_joint Joint_init anchor_parent spring_child position parent_offset].
  vsimpl. lra.
Qed.

(** C2, the claim refuted.  The child has a physics body and is two units
    from the anchor; [restrict] with a time step of 0.5 snaps it to the
    anchor (2, 0, 0) and leaves its velocity at (0, 0, 0).  The spring
    update the claim describes would have moved it to (0.5, 0, 0) with
    velocity (1, 0, 0). *)
Lemma restrict_snaps_a_child_with_physics :
  has_body spring_child = true /\
  ~ length (vsub (anchor unit_joint anchor_parent) (position spring_child)) < 1e-7 /\
  restrict unit_joint anchor_parent spring_child 0.5
    = Ok (anchor_parent,
          {| position := mkvec3 2 0 0; physics_body := Some resting_body |}) /\
  restrict_spring unit_joint anchor_parent spring_child 0.5
    (anchor unit_joint anchor_parent)
    (normalize (vsub (anchor unit_joint anchor_parent) (position spring_child)))
    = Ok (anchor_parent,
          {| position := mkvec3 0.5 0 0;
             physics_body := Some (set_velocity resting_body (mkvec3 1 0 0)) |}).
Proof.
  pose proof length_anchor_gap as Hgap.
  split; [reflexivity |]. split; [rewrite Hgap; lra |]. split.
  - unfold restrict. fold (anchor unit_joint anchor_parent). rewrite Hgap.
    destruct (Rlt_dec 2 1e-7) as [Hlt | _]; [exfalso; lra |].
    cbn [andb]. do 3 f_equal. clear Hgap.
    cbv [anchor unit_joint Joint_init anchor_parent position parent_offset].
    apply vec3_eq; vsimpl; lra.
  - rewrite (normalize_eq _ 2 Hgap).
    unfold restrict_spring, py_sqrt. rewrite Hgap.
    assert (Hk : spring_constant unit_joint = 1) by reflexivity.
    assert (Hoff : child_offset unit_joint = 0) by apply length_vzero.
    rewrite Hk, Hoff, sqrt_1. clear Hgap Hk Hoff.
    destruct (Rlt_dec 1 0) as [Hlt | _]; [exfalso; lra |].
    cbn [of_option bind physics_body spring_child anchor_parent has_body andb].
    unfold with_body, set_velocity. do 3 f_equal.
    + cbv [anchor unit_joint Joint_init anchor_parent spring_child resting_body
           position parent_offset velocity point mass].
      apply vec3_eq; vsimpl; lra.
    + do 3 f_equal.
      cbv [anchor unit_joint Joint_init anchor_parent spring_child resting_body
           position parent_offset velocity point mass].
      apply vec3_eq; vsimpl; lra.
Qed.

(** C2, amended.  When the anchor is at least 1e-7 from the child,
    [restrict] snaps the child to the anchor whether or not the parent or
    the child has a physics body: the spring branch is switched off by its
    [False and ...] guard, so the parent, the bodies and their velocities
    are left as they were. *)
Theorem restrict_always_snaps
    (self : Joint) (parent child : Collection) (delta_time : R) :
  ~ length (vsub (anchor self parent) (position child)) < 1e-7 ->
  restrict self parent child delta_time
  = Ok (parent, {| position := anchor self parent;
                   physics_body := physics_body child |}).
Proof.
  intros Hfar. unfold restrict. fold (anchor self parent).
  destruct (Rlt_dec _ 1e-7) as [Hnear | _]; [contradiction | reflexivity].
Qed.

(** Within 1e-7 of the anchor nothing is changed. *)
Lemma restrict_near_anchor
    (self : Joint) (parent child : Collection) (delta_time : R) :
  length (vsub (anchor self parent) (position child)) < 1e-7 ->
  restrict self parent child delta_time = Ok (parent, child).
Proof.
  intros Hnear. unfold restrict. fold (anchor self parent).
  destruct (Rlt_dec _ 1e-7) as [_ | Hfar]; [reflexivity | contradiction].
Qed.

(** The amended statement at the child with a physics body. *)
Lemma restrict_always_snaps_witness :
  restrict unit_joint anchor_parent spring_child 0.5
  = Ok (anchor_parent,
        {| position := anchor unit_joint anchor_parent;
           physics_body := physics_body spring_child |}).
Proof.
  apply restrict_always_snaps.
  rewrite length_anchor_gap. lra.
Defined.

(** ** Collider caches *)

Lemma vec4_eq (a b : vec4) :
  x4 a = x4 b -> y4 a = y4 b -> z4 a = z4 b -> w4 a = w4 b -> a = b.
Proof. destruct a, b; simpl; intros; subst; reflexivity. Qed.

Lemma normalize_axis (v : vec3) : dot v v = 1 -> normalize v = v.
Proof.
  intros H. unfold normalize. rewrite H, sqrt_1.
  apply vec3_eq; simpl; field.
Qed.

(** The model matrix of a transform that rotates about x only. *)
Lemma get_model_matrix_x_rotation (tx ty tz sx sy sz rx : R) :
  get_model_matrix [tx; ty; tz; sx; sy; sz; rx; 0; 0]
  = Ok (mkmat4 (mkvec4 sx 0 0 0)
               (mkvec4 0 (sy * cos rx) (- (sy * sin rx)) 0)
               (mkvec4 0 (sz * sin rx) (sz * cos rx) 0)
               (mkvec4 tx ty tz 1)).
Proof.
  unfold get_model_matrix.
  cbn [slice firstn skipn Nat.sub vec3_of_list bind nth_error of_option].
  unfold rotate.
  rewrite !normalize_axis by (unfold dot; simpl; ring).
  rewrite cos_0, sin_0.
  unfold scale, translate, mat4_id. cbn [c0 c1 c2 c3 x y z vscale].
  f_equal. f_equal; apply vec4_eq; cbn [v4add v4scale x4 y4 z4 w4]; ring.
Qed.

Lemma get_real_vertex_locations_x_rotation
    (tx ty tz sx sy sz rx : R) (pts : list vec3) :
  get_real_vertex_locations [tx; ty; tz; sx; sy; sz; rx; 0; 0] pts
  = Ok (map (fun v => mkvec3 (tx + sx * x v)
                             (ty + sy * cos rx * y v + sz * sin rx * z v)
                             (tz - sy * sin rx * y v + sz * cos rx * z v)) pts).
Proof.
  unfold get_real_vertex_locations. rewrite get_model_matrix_x_rotation.
  cbn [bind]. f_equal. apply map_ext. intros v.
  apply vec3_eq; cbn [mat4_mulv v4add v4scale x4 y4 z4 w4 c0 c1 c2 c3 x y z]; ring.
Qed.

Lemma corner_vertices_unrotated (tx sx : R) :
  get_real_vertex_locations [tx; 0; 0; sx; 1; 1; 0; 0; 0] corner_prefab
  = Ok [mkvec3 (tx + sx) 1 1; mkvec3 (tx - sx) (-1) (-1)].
Proof.
  rewrite get_real_vertex_locations_x_rotation. rewrite cos_0, sin_0.
  unfold corner_prefab. cbn [map x y z].
  do 2 f_equal; [| f_equal]; apply vec3_eq; cbn [x y z]; ring.
Qed.

Lemma corner_vertices_quarter_turn :
  get_real_vertex_locations [0; 0; 0; 1; 1; 1; PI / 2; 0; 0] corner_prefab
  = Ok [mkvec3 1 1 (-1); mkvec3 (-1) (-1) 1].
Proof.
  rewrite get_real_vertex_locations_x_rotation. rewrite cos_PI2, sin_PI2.
  unfold corner_prefab. cbn [map x y z].
  do 2 f_equal; [| f_equal]; apply vec3_eq; cbn [x y z]; ring.
Qed.

(** One point against the running bounds: each bound is replaced only by
    a component strictly beyond it. *)
Lemma minmax_step_eq (p mins maxs : vec3) :
  minmax_step p (mins, maxs)
  = (mkvec3 (if Rlt_dec (x p) (x mins) then x p else x mins)
            (if Rlt_dec (y p) (y mins) then y p else y mins)
            (if Rlt_dec (z p) (z mins) then z p else z mins),
     mkvec3 (if Rgt_dec (x p) (x maxs) then x p else x maxs)
            (if Rgt_dec (y p) (y maxs) then y p else y maxs)
            (if Rgt_dec (z p) (z maxs) then z p else z maxs)).
Proof.
  destruct p as [px py pz], mins as [ax ay az], maxs as [bx by' bz].
  unfold minmax_step. cbn [fold_left vget vset x y z].
  repeat (match goal with
          | |- context [Rgt_dec ?a ?b] =>
              is_var a; is_var b; destruct (Rgt_dec a b)
          | |- context [Rlt_dec ?a ?b] =>
              is_var a; is_var b; destruct (Rlt_dec a b)
          end; cbn [vget vset x y z]);
    reflexivity.
Qed.

Lemma corner_center (tx sx : R) :
  -1e9 < tx < 1e9 -> 0 < sx < 1e9 ->
  get_geometric_center [mkvec3 (tx + sx) 1 1; mkvec3 (tx - sx) (-1) (-1)]
  = mkvec3 tx 0 0.
Proof.
  intros Ht Hs. unfold get_geometric_center, minmax. cbn [fold_left].
  rewrite !minmax_step_eq. cbn [x y z]. decide_R.
  apply vec3_eq; cbn [x y z]; lra.
Qed.

Lemma turned_center :
  get_geometric_center [mkvec3 1 1 (-1); mkvec3 (-1) (-1) 1] = vzero.
Proof.
  unfold get_geometric_center, minmax. cbn [fold_left].
  rewrite !minmax_step_eq. cbn [x y z]. decide_R.
  apply vec3_eq; cbn [x y z vzero]; lra.
Qed.

Lemma corner_dimensions (tx sx : R) :
  0 < sx < 1e9 ->
  get_dimensions [tx; 0; 0; sx; 1; 1; 0; 0; 0] corner_prefab = Ok (mkvec3 (2 * sx) 2 2).
Proof.
  intros Hs. unfold get_dimensions, corner_prefab, minmax.
  cbn [nth_error of_option bind map fold_left].
  rewrite !minmax_step_eq. cbn [x y z]. decide_R.
  f_equal. apply vec3_eq; cbn [x y z vsub]; lra.
Qed.

(** The sample colliders are what the constructor builds. *)
Lemma Collider_init_corner (tx : R) :
  -1e9 < tx < 1e9 ->
  Collider_init (Some [tx; 0; 0; 1; 1; 1; 0; 0; 0]) corner_prefab false 1
  = Ok (corner_collider tx).
Proof.
  intros Ht. unfold Collider_init.
  rewrite corner_vertices_unrotated. cbn [bind].
  rewrite corner_dimensions by lra. cbn [bind].
  rewrite corner_center by lra.
  unfold corner_collider. do 2 f_equal. apply vec3_eq; cbn [x y z]; lra.
Qed.

(** After [set_data] the vertex cache and the geometric center belong to
    the new data, whatever changed. *)
Lemma set_data_refreshes_vertices (c c' : Collider) (new_data : list R) :
  set_data c new_data = Ok c' ->
  data c' = new_data /\
  get_real_vertex_locations new_data (unique_points c) = Ok (vertices c') /\
  geometric_center c' = get_geometric_center (vertices c').
Proof.
  unfold set_data.
  destruct (get_real_vertex_locations new_data (unique_points c)) as [vs | err |];
    cbn [bind]; [| discriminate ..].
  destruct (list_ne (slice (data c) 3 6) (slice new_data 3 6)).
  - destruct (get_dimensions new_data (unique_points c)) as [d | err |];
      cbn [bind]; [| discriminate ..].
    intros H. injection H as <-. repeat split.
  - intros H. injection H as <-. repeat split.
Qed.

(** The inertia tensor is recomputed only when the scale and the rotation
    both changed; otherwise the old one is kept. *)
Lemma set_data_inertia_tensor (c c' : Collider) (new_data : list R) :
  set_data c new_data = Ok c' ->
  inertia_tensor c'
  = if list_ne (slice (data c) 3 6) (slice new_data 3 6)
       && list_ne (slice_from (data c) 6) (slice_from new_data 6)
    then fresh_inertia_tensor c'
    else inertia_tensor c.
Proof.
  unfold set_data, fresh_inertia_tensor.
  destruct (get_real_vertex_locations new_data (unique_points c)) as [vs | err |];
    cbn [bind]; [| discriminate ..].
  destruct (list_ne (slice (data c) 3 6) (slice new_data 3 6)); cbn [andb].
  - destruct (get_dimensions new_data (unique_points c)) as [d | err |];
      cbn [bind]; [| discriminate ..].
    intros H. injection H as <-. cbn [inertia_tensor vertices geometric_center].
    destruct (list_ne _ _); reflexivity.
  - intros H. injection H as <-. reflexivity.
Qed.

Lemma set_data_stretched :
  set_data (corner_collider 0) [0; 0; 0; 2; 1; 1; 0; 0; 0] = Ok stretched_collider.
Proof.
  unfold set_data. cbn [unique_points corner_collider].
  rewrite corner_vertices_unrotated. cbn [bind].
  rewrite corner_center by lra.
  unfold list_ne. cbn [data corner_collider slice slice_from firstn skipn Nat.sub].
  destruct (list_R_eq_dec [1; 1; 1] [2; 1; 1]) as [Heq | _].
  { exfalso. injection Heq as Heq. lra. }
  rewrite corner_dimensions by lra. cbn [bind].
  destruct (list_R_eq_dec [0; 0; 0] [0; 0; 0]) as [_ | Hne]; [| contradiction].
  unfold stretched_collider. cbn [dimensions base_volume static elasticity
    static_friction kinetic_friction inertia_tensor corner_collider].
  f_equal. f_equal; repeat f_equal; lra.
Qed.

Lemma set_data_turned :
  set_data (corner_collider 0) [0; 0; 0; 1; 1; 1; PI / 2; 0; 0] = Ok turned_collider.
Proof.
  unfold set_data. cbn [unique_points corner_collider].
  rewrite corner_vertices_quarter_turn. cbn [bind].
  rewrite turned_center.
  unfold list_ne. cbn [data corner_collider slice slice_from firstn skipn Nat.sub].
  destruct (list_R_eq_dec [1; 1; 1] [1; 1; 1]) as [_ | Hne]; [| contradiction].
  reflexivity.
Qed.

Lemma INR_2 : INR 2 = 2.
Proof. simpl. lra. Qed.

(** C4.  [set_data] does not keep the inertia tensor consistent with the
    transform.  The collider built at the origin from the two-corner
    prefab is given, first, a doubled x scale and, second, a quarter turn
    about x.  Each time the vertex cache is recomputed; each time the
    stored inertia tensor stays the one of the old transform and differs
    from the tensor of the new vertices (entry [1][1] is 2 instead of 5
    after the stretch, entry [0][2] is -1 instead of 1 after the turn). *)
Theorem set_data_keeps_stale_inertia_tensor :
  Collider_init (Some [0; 0; 0; 1; 1; 1; 0; 0; 0]) corner_prefab false 1
    = Ok (corner_collider 0) /\
  set_data (corner_collider 0) [0; 0; 0; 2; 1; 1; 0; 0; 0] = Ok stretched_collider /\
  vertices stretched_collider = [mkvec3 2 1 1; mkvec3 (-2) (-1) (-1)] /\
  inertia_tensor stretched_collider = inertia_tensor (corner_collider 0) /\
  inertia_tensor stretched_collider <> fresh_inertia_tensor stretched_collider /\
  set_data (corner_collider 0) [0; 0; 0; 1; 1; 1; PI / 2; 0; 0] = Ok turned_collider /\
  vertices turned_collider = [mkvec3 1 1 (-1); mkvec3 (-1) (-1) 1] /\
  inertia_tensor turned_collider = inertia_tensor (corner_collider 0) /\
  inertia_tensor turned_collider <> fresh_inertia_tensor turned_collider.
Proof.
  split; [apply Collider_init_corner; lra |].
  split; [exact set_data_stretched |].
  split; [reflexivity |]. split; [reflexivity |].
  split.
  { intros Heq. apply (f_equal (fun m => y (m1 m))) in Heq.
    unfold fresh_inertia_tensor, stretched_collider, corner_collider,
      get_inertia_tensor, inertia_step in Heq.
    cbn [inertia_tensor vertices geometric_center fold_left List.length] in Heq.
    rewrite INR_2 in Heq. vsimpl. lra. }
  split; [exact set_data_turned |].
  split; [reflexivity |]. split; [reflexivity |].
  intros Heq. apply (f_equal (fun m => z (m0 m))) in Heq.
  unfold fresh_inertia_tensor, turned_collider, corner_collider,
    get_inertia_tensor, inertia_step in Heq.
  cbn [inertia_tensor vertices geometric_center fold_left List.length] in Heq.
  rewrite INR_2 in Heq. vsimpl. lra.
Qed.

(** * Further properties of the code *)

(** ** collisions/math_functions.py *)

(** X1.  When some point has a dot product with the direction above -1e6,
    [get_furthest_point] returns a point of the list whose dot product is
    the largest of all, and the first such point: every point before it
    has a strictly smaller dot product. *)
Theorem get_furthest_point_maximises (points : list vec3) (d : vec3) :
  (exists p, In p points /\ -1e6 < dot p d) ->
  In (get_furthest_point points d) points /\
  (forall q, In q points -> dot q d <= dot (get_furthest_point points d) d) /\
  exists l1 l2,
    points = l1 ++ get_furthest_point points d :: l2 /\
    forall q, In q l1 -> dot q d < dot (get_furthest_point points d) d.
Proof.
  intros Hex.
  destruct (get_furthest_point_first_argmax points d Hex) as (l1 & l2 & Hl & H1 & H2).
  set (r := get_furthest_point points d) in *.
  split; [rewrite Hl; apply in_elt |].
  split.
  - intros q Hq. rewrite Hl in Hq. apply in_app_or in Hq.
    destruct Hq as [Hq | [<- | Hq]].
    + apply Rlt_le. auto.
    + lra.
    + auto.
  - exists l1, l2. split; assumption.
Qed.

Lemma tie_points_furthest : get_furthest_point tie_points unit_x = mkvec3 1 0 0.
Proof.
  unfold get_furthest_point, tie_points, unit_x, vzero, dot; simpl.
  decide_R; reflexivity.
Qed.

(** X1 at three points of which the last two tie: the earlier one wins. *)
Lemma get_furthest_point_maximises_witness :
  In (get_furthest_point tie_points unit_x) tie_points /\
  (forall q, In q tie_points ->
             dot q unit_x <= dot (get_furthest_point tie_points unit_x) unit_x) /\
  exists l1 l2,
    tie_points = l1 ++ get_furthest_point tie_points unit_x :: l2 /\
    forall q, In q l1 -> dot q unit_x < dot (get_furthest_point tie_points unit_x) unit_x.
Proof.
  apply get_furthest_point_maximises.
  exists (mkvec3 1 0 0). split.
  - right. left. reflexivity.
  - unfold dot, unit_x; simpl. lra.
Defined.

(** X2.  For every list and direction the result is accounted for: either
    it is a point of the list whose dot product exceeds -1e6, or no point
    of the list exceeds -1e6 and the result is (0, 0, 0).  The empty list
    falls under the second case. *)
Theorem get_furthest_point_cases (points : list vec3) (d : vec3) :
  (In (get_furthest_point points d) points /\
   -1e6 < dot (get_furthest_point points d) d)
  \/
  (get_furthest_point points d = vzero /\
   forall p, In p points -> dot p d <= -1e6).
Proof.
  unfold get_furthest_point.
  destruct (furthest_loop_spec points d vzero (-1e6))
    as [[Heq Hall] | (q & Heq & Hlt & l1 & l2 & Hl & _)].
  - right. rewrite Heq. split; [reflexivity | exact Hall].
  - left. rewrite Heq. simpl. split; [rewrite Hl; apply in_elt | exact Hlt].
Qed.

(** The running total of [get_average_point], split from its start. *)
Lemma fold_left_vadd_acc (l : list vec3) :
  forall acc, fold_left vadd l acc = vadd acc (fold_left vadd l vzero).
Proof.
  induction l as [| a l IH]; intros acc; cbn [fold_left].
  - apply vec3_eq; simpl; ring.
  - rewrite (IH (vadd acc a)), (IH (vadd vzero a)).
    apply vec3_eq; simpl; ring.
Qed.

Lemma fold_left_vadd_map (t : vec3) (l : list vec3) :
  fold_left vadd (map (vadd t) l) vzero
  = vadd (vscale (INR (List.length l)) t) (fold_left vadd l vzero).
Proof.
  induction l as [| a l IH].
  - simpl. apply vec3_eq; simpl; ring.
  - cbn [map fold_left List.length]. rewrite S_INR.
    rewrite (fold_left_vadd_acc (map (vadd t) l)), (fold_left_vadd_acc l (vadd vzero a)).
    rewrite IH. apply vec3_eq; simpl; ring.
Qed.

Lemma INR_length_pos {A : Type} (l : list A) : l <> [] -> 0 < INR (List.length l).
Proof.
  destruct l as [| a l]; [congruence |]. intros _.
  cbn [List.length]. rewrite S_INR. pose proof (pos_INR (List.length l)). lra.
Qed.

(** X3.  The average of a non-empty list moves with the list: shifting
    every point by [t] shifts the average by [t]. *)
Theorem get_average_point_translate (t : vec3) (polytope : list vec3) :
  polytope <> [] ->
  get_average_point (map (vadd t) polytope) = vadd t (get_average_point polytope).
Proof.
  intros Hne. unfold get_average_point.
  rewrite fold_left_vadd_map, length_map.
  pose proof (INR_length_pos polytope Hne) as Hn.
  apply vec3_eq; simpl; field; lra.
Qed.

(** X3 at the three tie points, shifted by (1, 0, 0). *)
Lemma get_average_point_translate_witness :
  get_average_point (map (vadd unit_x) tie_points)
  = vadd unit_x (get_average_point tie_points).
Proof.
  apply get_average_point_translate. discriminate.
Defined.

Lemma dot_fold_left_vadd_le (d : vec3) (m : R) (l : list vec3) :
  (forall q, In q l -> dot q d <= m) ->
  dot (fold_left vadd l vzero) d <= INR (List.length l) * m.
Proof.
  induction l as [| a l IH]; intros Hall.
  - simpl. unfold dot, vzero; simpl. lra.
  - cbn [fold_left List.length]. rewrite S_INR, fold_left_vadd_acc.
    assert (Ha : dot a d <= m) by (apply Hall; left; reflexivity).
    assert (Hl : dot (fold_left vadd l vzero) d <= INR (List.length l) * m).
    { apply IH. intros q Hq. apply Hall. right. exact Hq. }
    unfold dot in *; simpl in *. lra.
Qed.

(** X4.  The average point never lies beyond the support point: when some
    point has a dot product with the direction above -1e6, the dot product
    of the average is at most that of [get_furthest_point]. *)
Theorem get_average_point_within_support (points : list vec3) (d : vec3) :
  (exists p, In p points /\ -1e6 < dot p d) ->
  dot (get_average_point points) d <= dot (get_furthest_point points d) d.
Proof.
  intros Hex.
  assert (Hne : points <> []).
  { destruct Hex as (p & Hin & _). intros ->. destruct Hin. }
  destruct (get_furthest_point_first_argmax points d Hex) as (l1 & l2 & Hl & H1 & H2).
  set (r := get_furthest_point points d) in *.
  assert (Hall : forall q, In q points -> dot q d <= dot r d).
  { intros q Hq. rewrite Hl in Hq. apply in_app_or in Hq.
    destruct Hq as [Hq | [<- | Hq]]; [apply Rlt_le; auto | lra | auto]. }
  pose proof (dot_fold_left_vadd_le d (dot r d) points Hall) as Hsum.
  pose proof (INR_length_pos points Hne) as Hn.
  unfold get_average_point.
  set (n := INR (List.length points)) in *.
  set (total := fold_left vadd points vzero) in *.
  replace (dot (vdiv total n) d) with (dot total d / n)
    by (unfold dot, vdiv; simpl; field; lra).
  apply Rmult_le_reg_r with n; [exact Hn |].
  replace (dot total d / n * n) with (dot total d) by (field; lra).
  lra.
Qed.

(** X4 at the three tie points. *)
Lemma get_average_point_within_support_witness :
  dot (get_average_point tie_points) unit_x
  <= dot (get_furthest_point tie_points unit_x) unit_x.
Proof.
  apply get_average_point_within_support.
  exists (mkvec3 1 0 0). split.
  - right. left. reflexivity.
  - unfold dot, unit_x; simpl. lra.
Defined.

(** X5.  [triple_product] is the expansion [(a . c) b - (b . c) a] of
    [(a x b) x c]; in particular it is orthogonal to its third argument
    and to the cross product of the first two. *)
Theorem triple_product_expansion (a b c : vec3) :
  triple_product a b c = vsub (vscale (dot a c) b) (vscale (dot b c) a) /\
  dot (triple_product a b c) c = 0 /\
  dot (triple_product a b c) (cross a b) = 0.
Proof.
  unfold triple_product, cross, dot. repeat split.
  - apply vec3_eq; simpl; ring.
  - simpl. ring.
  - simpl. ring.
Qed.

(** ** collisions/narrow_collisions.py *)

(** X6.  [calculate_contact_point] raises exactly when a face index is out
    of range: it returns a point when the three indices are below the
    length of the polytope and raises [IndexError] otherwise. *)
Theorem calculate_contact_point_index_range
    (points1 points2 polytope : list vec3) (f0 f1 f2 : nat) (normal : vec3) :
  ((f0 < List.length polytope)%nat /\ (f1 < List.length polytope)%nat /\
   (f2 < List.length polytope)%nat ->
   exists p, calculate_contact_point points1 points2 polytope (f0, f1, f2) normal = Ok p)
  /\
  (~ ((f0 < List.length polytope)%nat /\ (f1 < List.length polytope)%nat /\
      (f2 < List.length polytope)%nat) ->
   calculate_contact_point points1 points2 polytope (f0, f1, f2) normal
   = Raise IndexError).
Proof.
  unfold calculate_contact_point. split.
  - intros (H0 & H1 & H2).
    apply nth_error_Some in H0, H1, H2.
    destruct (nth_error polytope f0) as [a |]; [| congruence].
    destruct (nth_error polytope f1) as [b |]; [| congruence].
    destruct (nth_error polytope f2) as [c |]; [| congruence].
    cbn [of_option bind].
    destruct (Req_dec_T _ 0); [eexists; reflexivity |].
    destruct (Req_dec_T _ 0); eexists; reflexivity.
  - intros Hout.
    destruct (nth_error polytope f0) as [a |] eqn:E0; [| reflexivity].
    destruct (nth_error polytope f1) as [b |] eqn:E1; [| reflexivity].
    destruct (nth_error polytope f2) as [c |] eqn:E2; [| reflexivity].
    exfalso. apply Hout. repeat split; apply nth_error_Some; congruence.
Qed.

Lemma signed_volume_vscale (k : R) (normal p1 p2 p3 : vec3) :
  signed_volume (vscale k normal) p1 p2 p3 = k * signed_volume normal p1 p2 p3.
Proof. unfold signed_volume, dot, cross, vsub, vscale; simpl. field. Qed.

(** X7.  The contact point does not depend on the length or the sign of
    the normal: multiplying the normal by any non-zero factor leaves the
    result unchanged. *)
Theorem calculate_contact_point_normal_scale
    (points1 points2 polytope : list vec3) (face : nat * nat * nat)
    (normal : vec3) (k : R) :
  k <> 0 ->
  calculate_contact_point points1 points2 polytope face (vscale k normal)
  = calculate_contact_point points1 points2 polytope face normal.
Proof.
  intros Hk. destruct face as [[f0 f1] f2]. unfold calculate_contact_point.
  destruct (nth_error polytope f0) as [a |]; [| reflexivity].
  destruct (nth_error polytope f1) as [b |]; [| reflexivity].
  destruct (nth_error polytope f2) as [c |]; [| reflexivity].
  cbn [of_option bind]. rewrite !signed_volume_vscale.
  remember (signed_volume normal a b c) as t eqn:Et.
  remember (signed_volume normal vzero b c) as pbc eqn:Ebc.
  remember (signed_volume normal vzero c a) as pca eqn:Eca.
  remember (signed_volume normal vzero a b) as pab eqn:Eab.
  clear Et Ebc Eca Eab.
  destruct (Req_dec_T (k * t) 0) as [Hz | Hnz];
    destruct (Req_dec_T t 0) as [Ht | Ht]; try reflexivity.
  - exfalso. apply Rmult_integral in Hz. tauto.
  - exfalso. apply Hnz. rewrite Ht. ring.
  - replace (k * pbc / (k * t)) with (pbc / t) by (field; auto).
    replace (k * pca / (k * t)) with (pca / t) by (field; auto).
    replace (k * pab / (k * t)) with (pab / t) by (field; auto).
    reflexivity.
Qed.

(** X7 at the collinear face, the normal reversed and doubled. *)
Lemma calculate_contact_point_normal_scale_witness :
  calculate_contact_point body1_points body2_points flat_polytope flat_face
    (vscale (-2) unit_x)
  = calculate_contact_point body1_points body2_points flat_polytope flat_face unit_x.
Proof.
  apply calculate_contact_point_normal_scale. lra.
Defined.

(** X8.  When the face is not degenerate, the raw barycentric weights do
    not cancel, and body 1 has one and the same support point [s] for the
    three vertices of the face, the contact point is [s]. *)
Theorem calculate_contact_point_single_support
    (points1 points2 polytope : list vec3) (f0 f1 f2 : nat) (normal a b c s : vec3) :
  nth_error polytope f0 = Some a ->
  nth_error polytope f1 = Some b ->
  nth_error polytope f2 = Some c ->
  signed_volume normal a b c <> 0 ->
  signed_volume normal vzero b c + signed_volume normal vzero c a
    + signed_volume normal vzero a b <> 0 ->
  get_furthest_point points1 a = s ->
  get_furthest_point points1 b = s ->
  get_furthest_point points1 c = s ->
  calculate_contact_point points1 points2 polytope (f0, f1, f2) normal = Ok s.
Proof.
  intros Ha Hb Hc Hvol Hsum Sa Sb Sc.
  destruct (calculate_contact_point_nonzero_volume points1 points2 polytope
              f0 f1 f2 normal a b c Ha Hb Hc Hvol) as (u & v & w & Heq & Hone).
  specialize (Hone Hsum). rewrite Heq, Sa, Sb, Sc. f_equal.
  apply vec3_eq; simpl.
  - replace (u * x s + v * x s + w * x s) with ((u + v + w) * x s) by ring.
    rewrite Hone. ring.
  - replace (u * y s + v * y s + w * y s) with ((u + v + w) * y s) by ring.
    rewrite Hone. ring.
  - replace (u * z s + v * z s + w * z s) with ((u + v + w) * z s) by ring.
    rewrite Hone. ring.
Qed.

Lemma body1_support (d : vec3) :
  -1e6 < dot (mkvec3 2 0 0) d -> get_furthest_point body1_points d = mkvec3 2 0 0.
Proof.
  intros Hd. unfold get_furthest_point, body1_points. cbn [furthest_loop snd].
  destruct (Rgt_dec (dot (mkvec3 2 0 0) d) (-1e6)) as [_ | Hn]; [reflexivity | lra].
Qed.

(** X8 at the unit triangle, body 1 being the single point (2, 0, 0). *)
Lemma calculate_contact_point_single_support_witness :
  calculate_contact_point body1_points body2_points unit_triangle (0, 1, 2)%nat diagonal
  = Ok (mkvec3 2 0 0).
Proof.
  apply (calculate_contact_point_single_support body1_points body2_points
           unit_triangle 0 1 2 diagonal
           (mkvec3 1 0 0) (mkvec3 0 1 0) (mkvec3 0 0 1) (mkvec3 2 0 0)).
  - reflexivity.
  - reflexivity.
  - reflexivity.
  - unfold signed_volume, dot, cross, vsub, diagonal; simpl. lra.
  - unfold signed_volume, dot, cross, vsub, diagonal, vzero; simpl. lra.
  - apply body1_support. unfold dot; simpl. lra.
  - apply body1_support. unfold dot; simpl. lra.
  - apply body1_support. unfold dot; simpl. lra.
Defined.

(** ** collisions/collider_handler.py *)

Lemma get_real_vertex_locations_length_cases (data : list R) (pts : list vec3) :
  ((List.length data < 3)%nat ->
   get_real_vertex_locations data pts = Raise TypeError) /\
  ((3 <= List.length data < 9)%nat ->
   get_real_vertex_locations data pts = Raise IndexError) /\
  ((9 <= List.length data)%nat ->
   exists ws, get_real_vertex_locations data pts = Ok ws /\
              List.length ws = List.length pts).
Proof.
  unfold get_real_vertex_locations, get_model_matrix.
  destruct data as [| a0 [| a1 [| a2 [| a3 [| a4 [| a5 [| a6 [| a7 [| a8 rest]]]]]]]]];
    cbn [List.length slice firstn skipn Nat.sub vec3_of_list bind nth_error of_option];
    (split; [| split]); intros H; try lia; try reflexivity.
  eexists. split; [reflexivity |]. apply length_map.
Qed.

Lemma get_real_vertex_locations_ok_length
    (data : list R) (pts ws : list vec3) :
  get_real_vertex_locations data pts = Ok ws -> (9 <= List.length data)%nat.
Proof.
  intros H.
  destruct (get_real_vertex_locations_length_cases data pts) as (H1 & H2 & _).
  destruct (Nat.lt_ge_cases (List.length data) 3) as [Hlt | Hge].
  - rewrite (H1 Hlt) in H. discriminate.
  - destruct (Nat.lt_ge_cases (List.length data) 9) as [Hlt | Hge9]; [| exact Hge9].
    rewrite (H2 (conj Hge Hlt)) in H. discriminate.
Qed.

(** X9.  A transform needs at least nine entries.  With fewer than three,
    [glm.translate] rejects the position ([TypeError]); with three to
    eight, a rotation entry is missing ([IndexError]); and [set_data]
    fails in the same way.  With nine or more entries there is one world
    vertex for each point of the prefab. *)
Theorem get_real_vertex_locations_needs_nine
    (data : list R) (pts : list vec3) (c : Collider) :
  ((List.length data < 3)%nat ->
   get_real_vertex_locations data pts = Raise TypeError /\
   set_data c data = Raise TypeError) /\
  ((3 <= List.length data < 9)%nat ->
   get_real_vertex_locations data pts = Raise IndexError /\
   set_data c data = Raise IndexError) /\
  ((9 <= List.length data)%nat ->
   exists ws, get_real_vertex_locations data pts = Ok ws /\
              List.length ws = List.length pts).
Proof.
  destruct (get_real_vertex_locations_length_cases data pts) as (H1 & H2 & H3).
  destruct (get_real_vertex_locations_length_cases data (unique_points c))
    as (C1 & C2 & _).
  split; [| split].
  - intros H. split; [apply H1; exact H |].
    unfold set_data. rewrite (C1 H). reflexivity.
  - intros H. split; [apply H2; exact H |].
    unfold set_data. rewrite (C2 H). reflexivity.
  - exact H3.
Qed.

(** X10.  The model matrix acts on a prefab point in this order: scale it
    component-wise, rotate it about the negative z axis, then the negative
    y axis, then the negative x axis, and add the position.  Entries of
    the transform after the ninth are ignored. *)
Theorem get_real_vertex_locations_decomposition
    (tx ty tz sx sy sz rx ry rz : R) (rest : list R) (pts : list vec3) :
  get_real_vertex_locations ([tx; ty; tz; sx; sy; sz; rx; ry; rz] ++ rest) pts
  = Ok (map (fun v => vadd (mkvec3 tx ty tz)
                        (rot_x rx (rot_y ry (rot_z rz (vmul (mkvec3 sx sy sz) v)))))
            pts).
Proof.
  unfold get_real_vertex_locations, get_model_matrix.
  cbn [app slice firstn skipn Nat.sub vec3_of_list bind nth_error of_option].
  unfold rotate.
  rewrite !normalize_axis by (unfold dot; simpl; ring).
  f_equal. apply map_ext. intros v.
  unfold scale, translate, mat4_id, rot_x, rot_y, rot_z, vmul.
  apply vec3_eq;
    cbn [mat4_mulv v4add v4scale x4 y4 z4 w4 c0 c1 c2 c3 x y z vscale vadd]; ring.
Qed.

Lemma sin_cos_square (a : R) : sin a * sin a + cos a * cos a = 1.
Proof. pose proof (sin2_cos2 a) as H. unfold Rsqr in H. exact H. Qed.

Lemma rot_x_dot (a : R) (v : vec3) : dot (rot_x a v) (rot_x a v) = dot v v.
Proof.
  unfold dot, rot_x; simpl. pose proof (sin_cos_square a) as H.
  transitivity (x v * x v + y v * y v + z v * z v
                + (sin a * sin a + cos a * cos a - 1) * (y v * y v + z v * z v));
    [ring | rewrite H; ring].
Qed.

Lemma rot_y_dot (a : R) (v : vec3) : dot (rot_y a v) (rot_y a v) = dot v v.
Proof.
  unfold dot, rot_y; simpl. pose proof (sin_cos_square a) as H.
  transitivity (x v * x v + y v * y v + z v * z v
                + (sin a * sin a + cos a * cos a - 1) * (x v * x v + z v * z v));
    [ring | rewrite H; ring].
Qed.

Lemma rot_z_dot (a : R) (v : vec3) : dot (rot_z a v) (rot_z a v) = dot v v.
Proof.
  unfold dot, rot_z; simpl. pose proof (sin_cos_square a) as H.
  transitivity (x v * x v + y v * y v + z v * z v
                + (sin a * sin a + cos a * cos a - 1) * (x v * x v + y v * y v));
    [ring | rewrite H; ring].
Qed.

(** X11.  With scale (1, 1, 1) the model transform is rigid: the distance
    between two world vertices is the distance between the prefab points
    they come from, whatever the position and the three angles. *)
Theorem unit_scale_transform_is_rigid
    (tx ty tz rx ry rz : R) (rest : list R) (pts ws : list vec3)
    (i j : nat) (v w v' w' : vec3) :
  get_real_vertex_locations ([tx; ty; tz; 1; 1; 1; rx; ry; rz] ++ rest) pts = Ok ws ->
  nth_error pts i = Some v -> nth_error pts j = Some w ->
  nth_error ws i = Some v' -> nth_error ws j = Some w' ->
  length (vsub v' w') = length (vsub v w).
Proof.
  rewrite get_real_vertex_locations_decomposition.
  intros Hws Hv Hw Hv' Hw'. injection Hws as <-.
  rewrite nth_error_map, Hv in Hv'. rewrite nth_error_map, Hw in Hw'.
  injection Hv' as <-. injection Hw' as <-.
  unfold length. f_equal.
  match goal with
  | |- dot ?p ?p = _ =>
      replace p with (rot_x rx (rot_y ry (rot_z rz (vsub v w))))
  end.
  - rewrite rot_x_dot, rot_y_dot, rot_z_dot. reflexivity.
  - unfold rot_x, rot_y, rot_z, vmul. apply vec3_eq; simpl; ring.
Qed.

(** X11 at the two corners of the sample prefab, turned a quarter about x
    and moved to (5, 0, 0). *)
Lemma unit_scale_transform_is_rigid_witness :
  length (vsub (vadd (mkvec3 5 0 0)
                  (rot_x (PI / 2) (rot_y 0 (rot_z 0 (vmul diagonal (mkvec3 1 1 1))))))
               (vadd (mkvec3 5 0 0)
                  (rot_x (PI / 2) (rot_y 0 (rot_z 0 (vmul diagonal (mkvec3 (-1) (-1) (-1))))))))
  = length (vsub (mkvec3 1 1 1) (mkvec3 (-1) (-1) (-1))).
Proof.
  apply (unit_scale_transform_is_rigid 5 0 0 (PI / 2) 0 0 [] corner_prefab
           (map (fun v => vadd (mkvec3 5 0 0)
                            (rot_x (PI / 2) (rot_y 0 (rot_z 0 (vmul diagonal v)))))
                corner_prefab)
           0 1).
  - apply get_real_vertex_locations_decomposition.
  - reflexivity.
  - reflexivity.
  - reflexivity.
  - reflexivity.
Defined.

(** X12.  A collider built without data has the identity transform: its
    world vertices are the points of the prefab themselves. *)
Theorem Collider_init_default_vertices
    (pts : list vec3) (st : bool) (e : R) :
  exists c, Collider_init None pts st e = Ok c /\
            data c = [0; 0; 0; 1; 1; 1; 0; 0; 0] /\
            vertices c = pts.
Proof.
  unfold Collider_init.
  rewrite (get_real_vertex_locations_decomposition 0 0 0 1 1 1 0 0 0 []).
  cbn [bind].
  assert (Hid : map (fun v => vadd (mkvec3 0 0 0)
                                (rot_x 0 (rot_y 0 (rot_z 0 (vmul (mkvec3 1 1 1) v))))) pts
                = pts).
  { rewrite <- (map_id pts) at 2. apply map_ext. intros v.
    unfold rot_x, rot_y, rot_z, vmul. rewrite cos_0, sin_0.
    destruct v; apply vec3_eq; simpl; ring. }
  rewrite Hid.
  destruct (get_dimensions [0; 0; 0; 1; 1; 1; 0; 0; 0] pts) as [d | err |] eqn:Hd.
  - cbn [bind]. eexists. repeat split.
  - exfalso. unfold get_dimensions in Hd. destruct pts; [discriminate |].
    cbn [nth_error of_option bind] in Hd.
    destruct (minmax _) in Hd. discriminate.
  - exfalso. unfold get_dimensions in Hd. destruct pts; [discriminate |].
    cbn [nth_error of_option bind] in Hd.
    destruct (minmax _) in Hd. discriminate.
Qed.

(** The bounding-box loop from any start: the bounds only widen, they
    enclose every point visited, and each bound is its start value or a
    coordinate of some point. *)
Lemma minmax_fold_spec (vs : list vec3) :
  forall lo hi lo' hi',
    fold_left (fun acc point => minmax_step point acc) vs (lo, hi) = (lo', hi') ->
    (vle lo' lo /\ vle hi hi') /\
    (forall v, In v vs -> vle lo' v /\ vle v hi') /\
    ((x lo' = x lo \/ exists v, In v vs /\ x v = x lo') /\
     (y lo' = y lo \/ exists v, In v vs /\ y v = y lo') /\
     (z lo' = z lo \/ exists v, In v vs /\ z v = z lo')) /\
    ((x hi' = x hi \/ exists v, In v vs /\ x v = x hi') /\
     (y hi' = y hi \/ exists v, In v vs /\ y v = y hi') /\
     (z hi' = z hi \/ exists v, In v vs /\ z v = z hi')).
Proof.
  induction vs as [| p vs IH]; intros lo hi lo' hi'; cbn [fold_left].
  - intros H. injection H as <- <-. unfold vle.
    split; [repeat split; lra |]. split; [intros v [] |].
    repeat split; left; reflexivity.
  - rewrite minmax_step_eq. intros H. apply IH in H.
    destruct H as ((Hlo & Hhi) & Hall & (Lx & Ly & Lz) & (Ux & Uy & Uz)).
    unfold vle in *; cbn [x y z] in *.
    destruct (Rlt_dec (x p) (x lo)), (Rlt_dec (y p) (y lo)), (Rlt_dec (z p) (z lo)),
             (Rgt_dec (x p) (x hi)), (Rgt_dec (y p) (y hi)), (Rgt_dec (z p) (z hi)).
    all: split; [repeat split; lra |].
    all: split;
      [ intros v [<- | Hv]; [repeat split; lra | apply Hall; exact Hv] |].
    all: repeat split;
      match goal with
      | H : ?a = ?b \/ (exists v, In v _ /\ _) |- ?a = _ \/ _ =>
          destruct H as [H | (v & Hv & Hc)];
          [ first [ left; exact H
                  | right; exists p; split; [left; reflexivity | symmetry; exact H] ]
          | right; exists v; split; [right; exact Hv | exact Hc] ]
      end.
Qed.

Lemma minmax_tight (vs : list vec3) (lo hi : vec3) :
  vs <> [] -> (forall v, In v vs -> in_box_range v) ->
  minmax vs = (lo, hi) -> tight_box vs lo hi.
Proof.
  intros Hne Hrange Hmm. unfold minmax in Hmm.
  apply minmax_fold_spec in Hmm.
  destruct Hmm as (_ & Hall & (Lx & Ly & Lz) & (Ux & Uy & Uz)).
  cbn [x y z] in *.
  destruct vs as [| p vs]; [congruence |].
  assert (Hp : vle lo p /\ vle p hi) by (apply Hall; left; reflexivity).
  assert (Rp : in_box_range p) by (apply Hrange; left; reflexivity).
  unfold vle, in_box_range in *.
  split; [exact Hall |].
  repeat split;
    match goal with
    | H : ?a = _ \/ (exists v, _ /\ _ = ?a) |- exists v, _ /\ _ = ?a =>
        destruct H as [H | H]; [exfalso; lra | exact H]
    end.
Qed.

(** X13.  For a non-empty list of vertices whose coordinates lie strictly
    between -1e10 and 1e10, [get_geometric_center] is the midpoint of the
    smallest axis-aligned box around the vertices. *)
Theorem get_geometric_center_is_box_midpoint (vs : list vec3) :
  vs <> [] -> (forall v, In v vs -> in_box_range v) ->
  exists lo hi,
    tight_box vs lo hi /\
    get_geometric_center vs
    = mkvec3 ((x hi + x lo) / 2) ((y hi + y lo) / 2) ((z hi + z lo) / 2).
Proof.
  intros Hne Hrange. unfold get_geometric_center.
  destruct (minmax vs) as [lo hi] eqn:Hmm.
  exists lo, hi. split; [| reflexivity].
  apply minmax_tight; assumption.
Qed.

(** X13 at the two corners of the sample prefab. *)
Lemma get_geometric_center_is_box_midpoint_witness :
  exists lo hi,
    tight_box corner_prefab lo hi /\
    get_geometric_center corner_prefab
    = mkvec3 ((x hi + x lo) / 2) ((y hi + y lo) / 2) ((z hi + z lo) / 2).
Proof.
  apply get_geometric_center_is_box_midpoint.
  - discriminate.
  - intros v [<- | [<- | []]]; unfold in_box_range; simpl; lra.
Defined.

(** X14.  For a non-empty prefab the dimensions are never negative,
    whatever the scale, and the box they measure encloses every scaled
    point: no two scaled points are further apart along an axis than the
    dimension of that axis. *)
Theorem get_dimensions_nonneg (data : list R) (pts : list vec3) (d : vec3) :
  pts <> [] ->
  get_dimensions data pts = Ok d ->
  vle vzero d /\
  exists sx sy sz,
    nth_error data 3 = Some sx /\ nth_error data 4 = Some sy /\
    nth_error data 5 = Some sz /\
    forall p q, In p pts -> In q pts ->
                vle (vsub (vmul (mkvec3 sx sy sz) p) (vmul (mkvec3 sx sy sz) q)) d.
Proof.
  intros Hne. unfold get_dimensions.
  destruct pts as [| p0 pts]; [congruence |].
  destruct (nth_error data 3) as [sx |]; [| discriminate].
  destruct (nth_error data 4) as [sy |]; [| discriminate].
  destruct (nth_error data 5) as [sz |]; [| discriminate].
  cbn [of_option bind].
  set (scaled := map (fun p => mkvec3 (x p * sx) (y p * sy) (z p * sz)) (p0 :: pts)).
  destruct (minmax scaled) as [lo hi] eqn:Hmm.
  intros H. injection H as <-.
  unfold minmax in Hmm. apply minmax_fold_spec in Hmm.
  destruct Hmm as (_ & Hall & _).
  assert (Hin : forall p, In p (p0 :: pts) ->
                          vle lo (vmul (mkvec3 sx sy sz) p)
                          /\ vle (vmul (mkvec3 sx sy sz) p) hi).
  { intros p Hp.
    replace (vmul (mkvec3 sx sy sz) p) with (mkvec3 (x p * sx) (y p * sy) (z p * sz))
      by (unfold vmul; apply vec3_eq; simpl; ring).
    apply Hall. unfold scaled.
    apply (in_map (fun p => mkvec3 (x p * sx) (y p * sy) (z p * sz))). exact Hp. }
  split.
  - destruct (Hin p0 (or_introl eq_refl)) as [H1 H2].
    unfold vle in *; simpl in *. lra.
  - exists sx, sy, sz. repeat split; try reflexivity;
      destruct (Hin p H) as [P1 P2]; destruct (Hin q H0) as [Q1 Q2];
      unfold vle in *; simpl in *; lra.
Qed.

(** X14 at the sample prefab with scale (2, 1, 1). *)
Lemma get_dimensions_nonneg_witness :
  vle vzero (mkvec3 (2 * 2) 2 2) /\
  exists sx sy sz,
    nth_error [0; 0; 0; 2; 1; 1; 0; 0; 0] 3 = Some sx /\
    nth_error [0; 0; 0; 2; 1; 1; 0; 0; 0] 4 = Some sy /\
    nth_error [0; 0; 0; 2; 1; 1; 0; 0; 0] 5 = Some sz /\
    forall p q, In p corner_prefab -> In q corner_prefab ->
                vle (vsub (vmul (mkvec3 sx sy sz) p) (vmul (mkvec3 sx sy sz) q))
                    (mkvec3 (2 * 2) 2 2).
Proof.
  apply (get_dimensions_nonneg [0; 0; 0; 2; 1; 1; 0; 0; 0] corner_prefab).
  - discriminate.
  - apply corner_dimensions. lra.
Defined.

(** Each vertex adds the square of [|r x v|] to the form. *)
Lemma inertia_step_upper_form (center : vec3) (t : mat3) (vertex v : vec3) :
  upper_form (inertia_step center t vertex) v
  = upper_form t v
    + dot (cross (vsub vertex center) v) (cross (vsub vertex center) v).
Proof. unfold upper_form, inertia_step, dot, cross, vsub; simpl. ring. Qed.

Lemma inertia_fold_upper_form (center v : vec3) (vs : list vec3) :
  forall t, upper_form t v <= upper_form (fold_left (inertia_step center) vs t) v.
Proof.
  induction vs as [| vertex vs IH]; intros t; cbn [fold_left].
  - lra.
  - eapply Rle_trans; [| apply IH].
    rewrite inertia_step_upper_form.
    pose proof (dot_self_nonneg (cross (vsub vertex center) v)). lra.
Qed.

(** X15.  The inertia tensor of a non-empty vertex list is symmetric, and
    for a mass that is not negative it is positive semi-definite: its
    quadratic form is never negative. *)
Theorem get_inertia_tensor_psd (vs : list vec3) (center : vec3) (m : R) (v : vec3) :
  vs <> [] -> 0 <= m ->
  symmetric (get_inertia_tensor vs center m) /\
  0 <= quadratic_form (get_inertia_tensor vs center m) v.
Proof.
  intros Hne Hm. pose proof (INR_length_pos vs Hne) as Hn.
  unfold get_inertia_tensor.
  set (t := fold_left (inertia_step center) vs mat3_zero).
  set (n := INR (List.length vs)) in *.
  split.
  - unfold symmetric; simpl. repeat split; reflexivity.
  - assert (Hform : quadratic_form
                      (mat3_div
                         (mat3_scale m
                            (mkmat3 (m0 t)
                               (mkvec3 (y (m0 t)) (y (m1 t)) (z (m1 t)))
                               (mkvec3 (z (m0 t)) (z (m1 t)) (z (m2 t))))) n) v
                    = m * upper_form t v / n).
    { unfold quadratic_form, upper_form, dot, mat3_mulv, mat3_div, mat3_scale,
        vadd, vscale, vdiv; simpl. field. lra. }
    rewrite Hform.
    assert (Hpos : 0 <= upper_form t v).
    { eapply Rle_trans; [| apply inertia_fold_upper_form].
      unfold upper_form, mat3_zero, vzero; simpl. lra. }
    apply Rmult_le_reg_r with n; [exact Hn |].
    replace (m * upper_form t v / n * n) with (m * upper_form t v) by (field; lra).
    rewrite Rmult_0_l. apply Rmult_le_pos; assumption.
Qed.

(** X15 at the vertices of the collider at the origin, mass 2. *)
Lemma get_inertia_tensor_psd_witness :
  symmetric (get_inertia_tensor [mkvec3 1 1 1; mkvec3 (-1) (-1) (-1)] vzero 2) /\
  0 <= quadratic_form
         (get_inertia_tensor [mkvec3 1 1 1; mkvec3 (-1) (-1) (-1)] vzero 2) unit_x.
Proof.
  apply get_inertia_tensor_psd.
  - discriminate.
  - lra.
Defined.

Lemma inertia_fold_translate (t center : vec3) (vs : list vec3) :
  forall acc,
    fold_left (inertia_step (vadd t center)) (map (vadd t) vs) acc
    = fold_left (inertia_step center) vs acc.
Proof.
  induction vs as [| a vs IH]; intros acc; cbn [map fold_left]; [reflexivity |].
  rewrite IH. f_equal.
  unfold inertia_step.
  replace (vsub (vadd t a) (vadd t center)) with (vsub a center)
    by (apply vec3_eq; simpl; ring).
  reflexivity.
Qed.

(** X16.  The inertia tensor depends only on where the vertices lie
    relative to the center: moving vertices and center by the same vector
    does not change it. *)
Theorem get_inertia_tensor_translate
    (t center : vec3) (vs : list vec3) (m : R) :
  get_inertia_tensor (map (vadd t) vs) (vadd t center) m
  = get_inertia_tensor vs center m.
Proof.
  unfold get_inertia_tensor. rewrite inertia_fold_translate, length_map. reflexivity.
Qed.

Lemma list_ne_same (l : list R) : list_ne l l = false.
Proof. unfold list_ne. destruct (list_R_eq_dec l l); [reflexivity | contradiction]. Qed.

Lemma set_position_scale_kept (d arg : list R) :
  List.length arg = 3%nat ->
  slice (arg ++ slice_from d 3) 3 6 = slice d 3 6.
Proof.
  intros Hlen. destruct arg as [| a [| b [| c [| e arg]]]]; try discriminate.
  reflexivity.
Qed.

Lemma set_scale_rotation_kept (d arg : list R) :
  List.length arg = 3%nat ->
  (9 <= List.length (slice d 0 3 ++ arg ++ slice_from d 6))%nat ->
  slice_from (slice d 0 3 ++ arg ++ slice_from d 6) 6 = slice_from d 6.
Proof.
  intros Hlen. destruct arg as [| a [| b [| c [| e arg]]]]; try discriminate.
  destruct d as [| d0 [| d1 [| d2 rest]]];
    cbn [slice slice_from firstn skipn Nat.sub app List.length]; intros H; try lia.
  destruct rest as [| d3 [| d4 [| d5 rest]]]; reflexivity.
Qed.

Lemma set_rotation_scale_kept (d arg : list R) :
  List.length arg = 3%nat ->
  (9 <= List.length (slice d 0 6 ++ arg))%nat ->
  slice (slice d 0 6 ++ arg) 3 6 = slice d 3 6.
Proof.
  intros Hlen. destruct arg as [| a [| b [| c [| e arg]]]]; try discriminate.
  destruct d as [| d0 [| d1 [| d2 [| d3 [| d4 [| d5 rest]]]]]];
    cbn [slice slice_from firstn skipn Nat.sub app List.length]; intros H; try lia.
  reflexivity.
Qed.

Lemma set_data_ok_length (c c' : Collider) (d : list R) :
  set_data c d = Ok c' -> (9 <= List.length d)%nat.
Proof.
  unfold set_data.
  destruct (get_real_vertex_locations d (unique_points c)) as [vs | err |] eqn:Hv;
    cbn [bind]; [| discriminate ..].
  intros _. eapply get_real_vertex_locations_ok_length. exact Hv.
Qed.

(** X17.  None of the three setters refreshes the inertia tensor: whenever
    [set_position], [set_scale] or [set_rotation], given three numbers,
    returns, the collider still stores the tensor it had before. *)
Theorem setters_keep_inertia_tensor (c c' : Collider) (arg : list R) :
  List.length arg = 3%nat ->
  set_position c arg = Ok c' \/ set_scale c arg = Ok c' \/ set_rotation c arg = Ok c' ->
  inertia_tensor c' = inertia_tensor c.
Proof.
  intros Hlen [H | [H | H]].
  - unfold set_position in H. rewrite (set_data_inertia_tensor _ _ _ H).
    rewrite set_position_scale_kept by exact Hlen.
    rewrite list_ne_same. reflexivity.
  - unfold set_scale in H. rewrite (set_data_inertia_tensor _ _ _ H).
    rewrite set_scale_rotation_kept;
      [| exact Hlen | eapply set_data_ok_length; exact H].
    rewrite list_ne_same, andb_false_r. reflexivity.
  - unfold set_rotation in H. rewrite (set_data_inertia_tensor _ _ _ H).
    rewrite set_rotation_scale_kept;
      [| exact Hlen | eapply set_data_ok_length; exact H].
    rewrite list_ne_same. reflexivity.
Qed.

(** X17 at the collider at the origin, its x scale doubled. *)
Lemma setters_keep_inertia_tensor_witness :
  inertia_tensor stretched_collider = inertia_tensor (corner_collider 0).
Proof.
  apply (setters_keep_inertia_tensor (corner_collider 0) stretched_collider [2; 1; 1]).
  - reflexivity.
  - right. left. exact set_data_stretched.
Defined.

(** X18.  [set_data] is idempotent: giving a collider the data it was just
    given changes nothing. *)
Theorem set_data_idempotent (c c' : Collider) (d : list R) :
  set_data c d = Ok c' -> set_data c' d = Ok c'.
Proof.
  unfold set_data.
  destruct (get_real_vertex_locations d (unique_points c)) as [vs | err |] eqn:Hv;
    cbn [bind]; [| discriminate ..].
  destruct (list_ne (slice (data c) 3 6) (slice d 3 6)).
  - destruct (get_dimensions d (unique_points c)) as [dims | err |];
      cbn [bind]; [| discriminate ..].
    intros H. injection H as <-.
    cbn [data unique_points]. rewrite Hv. cbn [bind].
    rewrite list_ne_same. reflexivity.
  - intros H. injection H as <-.
    cbn [data unique_points]. rewrite Hv. cbn [bind].
    rewrite list_ne_same. reflexivity.
Qed.

(** X18 at the stretched collider. *)
Lemma set_data_idempotent_witness :
  set_data stretched_collider [0; 0; 0; 2; 1; 1; 0; 0; 0] = Ok stretched_collider.
Proof.
  apply (set_data_idempotent (corner_collider 0)).
  exact set_data_stretched.
Defined.

(** X19.  [set_scale] stores the scale it is given and nothing else of the
    transform: afterwards the scale entries are the three numbers, the
    position and rotation entries are the old ones, and [get_volume] is
    the base volume times the three numbers. *)
Theorem set_scale_then_get_volume (c c' : Collider) (sx sy sz : R) :
  set_scale c [sx; sy; sz] = Ok c' ->
  slice (data c') 3 6 = [sx; sy; sz] /\
  slice (data c') 0 3 = slice (data c) 0 3 /\
  slice_from (data c') 6 = slice_from (data c) 6 /\
  get_volume c' = Ok (base_volume c * sx * sy * sz).
Proof.
  intros H. pose proof (set_data_ok_length _ _ _ H) as Hlen.
  unfold set_scale in H.
  pose proof (set_data_refreshes_vertices _ _ _ H) as (Hdata & _).
  assert (Hbase : base_volume c' = base_volume c).
  { unfold set_data in H.
    destruct (get_real_vertex_locations _ _); cbn [bind] in H; [| discriminate ..].
    destruct (list_ne _ _).
    - destruct (get_dimensions _ _); cbn [bind] in H; [| discriminate ..].
      injection H as <-. reflexivity.
    - injection H as <-. reflexivity. }
  unfold get_volume. rewrite Hbase, Hdata. clear H Hdata Hbase.
  destruct (data c) as [| d0 [| d1 [| d2 rest]]];
    cbn [slice slice_from firstn skipn Nat.sub app List.length] in *; try lia.
  repeat split.
Qed.

(** X19 at the collider at the origin, its x scale doubled. *)
Lemma set_scale_then_get_volume_witness :
  slice (data stretched_collider) 3 6 = [2; 1; 1] /\
  slice (data stretched_collider) 0 3 = slice (data (corner_collider 0)) 0 3 /\
  slice_from (data stretched_collider) 6 = slice_from (data (corner_collider 0)) 6 /\
  get_volume stretched_collider = Ok (base_volume (corner_collider 0) * 2 * 1 * 1).
Proof.
  apply set_scale_then_get_volume. exact set_data_stretched.
Defined.

(** ** physics/physics_body_handler.py *)

Lemma quat_norm2_mul (p q : quat) :
  quat_norm2 (quat_mul p q) = quat_norm2 p * quat_norm2 q.
Proof. unfold quat_norm2, quat_mul; simpl. ring. Qed.

Lemma quat_norm2_angleAxis (angle : R) (v : vec3) :
  dot v v = 1 -> quat_norm2 (angleAxis angle v) = 1.
Proof.
  intros Hv. unfold quat_norm2, angleAxis; simpl.
  pose proof (sin_cos_square (angle * 0.5)) as H. unfold dot in Hv.
  transitivity (sin (angle * 0.5) * sin (angle * 0.5)
                  * (x v * x v + y v * y v + z v * z v)
                + cos (angle * 0.5) * cos (angle * 0.5)); [ring |].
  rewrite Hv. lra.
Qed.

Lemma dot_normalize (a : vec3) : length a <> 0 -> dot (normalize a) (normalize a) = 1.
Proof.
  intros Hn. pose proof (length_normalize a Hn) as H. unfold length in H.
  rewrite <- (sqrt_sqrt (dot (normalize a) (normalize a)))
    by apply dot_self_nonneg.
  rewrite H. ring.
Qed.

(** X20.  [get_new_rotation] turns the orientation without stretching it:
    the norm of the quaternion is unchanged, so a unit orientation stays a
    unit orientation, whatever the axis stored in the body (even a zero or
    unnormalised one).  It touches nothing but the orientation, returns
    the Euler angles of the new orientation, and leaves the body as it was
    when the rotational velocity or the time step is 0. *)
Theorem get_new_rotation_keeps_norm
    (eulerAngles : quat -> vec3) (b : PhysicsBody) (delta_time : R) :
  let b' := fst (get_new_rotation eulerAngles b delta_time) in
  quat_norm2 (rotation b') = quat_norm2 (rotation b) /\
  point b' = point b /\
  rotational_velocity b' = rotational_velocity b /\
  axis_of_rotation b' = axis_of_rotation b /\
  snd (get_new_rotation eulerAngles b delta_time) = eulerAngles (rotation b') /\
  (rotational_velocity b * delta_time = 0 -> b' = b).
Proof.
  unfold get_new_rotation; cbn [fst snd rotation point rotational_velocity
                                axis_of_rotation].
  repeat split.
  - rewrite quat_norm2_mul, quat_norm2_angleAxis; [ring |].
    destruct (Rgt_dec (length (axis_of_rotation b)) 0) as [Hpos | _].
    + apply dot_normalize. lra.
    + unfold dot; simpl. ring.
  - intros Hzero.
    replace (- rotational_velocity b * delta_time) with 0 by lra.
    unfold angleAxis. replace (0 * 0.5) with 0 by lra. rewrite cos_0, sin_0.
    destruct b as [pt w ax [qw0 qx0 qy0 qz0]]. cbn [point rotational_velocity
      axis_of_rotation rotation].
    f_equal. unfold quat_mul; simpl. f_equal; ring.
Qed.

(** [set_velocity_component] writes the components it is given and
    no others: with no argument the body is unchanged, the call is
    idempotent, two components set one after the other give what setting
    both at once gives, and mass and rotational state are never touched. *)
Lemma set_velocity_component_composes
    (b : PhysicsBody) (vx vy vz : option R) (a c : R) :
  set_velocity_component b None None None = b /\
  set_velocity_component (set_velocity_component b vx vy vz) vx vy vz
    = set_velocity_component b vx vy vz /\
  set_velocity_component (set_velocity_component b (Some a) None None)
      None (Some c) None
    = set_velocity_component b (Some a) (Some c) None /\
  velocity (point (set_velocity_component b (Some a) (Some c) vz))
    = mkvec3 a c (match vz with Some r => r | None => z (velocity (point b)) end) /\
  mass (point (set_velocity_component b vx vy vz)) = mass (point b) /\
  rotational_velocity (set_velocity_component b vx vy vz) = rotational_velocity b /\
  axis_of_rotation (set_velocity_component b vx vy vz) = axis_of_rotation b /\
  rotation (set_velocity_component b vx vy vz) = rotation b.
Proof.
  destruct b as [[m [px py pz]] w ax q].
  unfold set_velocity_component, set_velocity.
  repeat split; destruct vx, vy, vz; reflexivity.
Qed.

(** [add_physics_body] appends: the handler has one body more, the
    new body is the last one and the one returned, the bodies added
    before keep their places, and the arguments left out take their
    defaults (velocity (0, 0, 0), axis (1, 0, 0), identity orientation). *)
Lemma add_physics_body_appends
    (h : Handler) (m : R) (v : option vec3) (w : R) (a : option vec3) :
  exists h' b,
    add_physics_body h m v w a = Ok (h', b) /\
    List.length (physics_bodies h') = S (List.length (physics_bodies h)) /\
    nth_error (physics_bodies h') (List.length (physics_bodies h)) = Some b /\
    (forall i, (i < List.length (physics_bodies h))%nat ->
               nth_error (physics_bodies h') i = nth_error (physics_bodies h) i) /\
    mass (point b) = m /\ rotational_velocity b = w /\
    velocity (point b) = match v with Some u => u | None => vzero end /\
    axis_of_rotation b = match a with Some u => u | None => mkvec3 1 0 0 end /\
    rotation b = quat_identity.
Proof.
  unfold add_physics_body, PhysicsBody_init, PointPhysicsBody_init. cbn [bind].
  eexists. eexists. split; [reflexivity |]. cbn [physics_bodies].
  repeat split.
  - rewrite length_app. simpl. lia.
  - rewrite nth_error_app2 by lia. rewrite Nat.sub_diag. reflexivity.
  - intros i Hi. apply nth_error_app1. exact Hi.
Qed.

(** ** physics/physics_handler.py *)

(** The inner loop of [update] on one body by value, in closed form: the
    velocity gains the time step times the sum of the accelerations. *)
Lemma accelerate_body_closed (accelerations : list vec3) (delta_time : R) :
  forall b,
    accelerate_body accelerations delta_time b
    = set_velocity b (vadd (velocity (point b))
                           (vscale delta_time (fold_left vadd accelerations vzero))).
Proof.
  unfold accelerate_body.
  induction accelerations as [| a l IH]; intros b; cbn [fold_left].
  - destruct b as [[m v] w ax q]. unfold set_velocity; simpl.
    do 2 f_equal. apply vec3_eq; simpl; ring.
  - rewrite IH. rewrite (fold_left_vadd_acc l (vadd vzero a)).
    unfold set_velocity; simpl. do 2 f_equal. apply vec3_eq; simpl; ring.
Qed.

(** Vectors that are left alone keep their sum. *)
Lemma acceleration_sum_ext (heap heap' : Heap) (accelerations : list loc) :
  (forall a, In a accelerations -> vecs heap' a = vecs heap a) ->
  acceleration_sum heap' accelerations = acceleration_sum heap accelerations.
Proof.
  intros Hsame. unfold acceleration_sum. f_equal.
  apply map_ext_in. exact Hsame.
Qed.

(** The inner loop of [update] on a body object whose velocity vector is
    none of the accelerations: that vector gains the time step times the
    sum of the accelerations, and nothing else changes. *)
Lemma object_accelerate_body_closed (accelerations : list loc) (delta_time : R) :
  forall (heap : Heap) (b : Objects.PhysicsBody),
    ~ In (Objects.velocity b) accelerations ->
    lists (Objects.accelerate_body accelerations delta_time heap b) = lists heap /\
    forall r,
      vecs (Objects.accelerate_body accelerations delta_time heap b) r
      = if Nat.eqb r (Objects.velocity b)
        then vadd (vecs heap r)
                  (vscale delta_time (acceleration_sum heap accelerations))
        else vecs heap r.
Proof.
  unfold Objects.accelerate_body.
  induction accelerations as [| a l IH]; intros heap b Hnot; cbn [fold_left].
  - split; [reflexivity |]. intros r.
    destruct (Nat.eqb r (Objects.velocity b)); [| reflexivity].
    unfold acceleration_sum. cbn [map fold_left]. apply vec3_eq; vsimpl; ring.
  - assert (Ha : a <> Objects.velocity b) by (intros ->; apply Hnot; left; reflexivity).
    assert (Hl : ~ In (Objects.velocity b) l) by (intros H; apply Hnot; right; exact H).
    destruct (IH (iadd heap (Objects.velocity b) (vscale delta_time (vecs heap a))) b Hl)
      as [Hlists Hvecs].
    split; [rewrite Hlists; reflexivity |].
    intros r. rewrite Hvecs.
    rewrite (acceleration_sum_ext heap).
    + cbn [vecs iadd].
      destruct (Nat.eqb r (Objects.velocity b)); [| reflexivity].
      unfold acceleration_sum. cbn [map fold_left].
      rewrite (fold_left_vadd_acc _ (vadd vzero (vecs heap a))).
      apply vec3_eq; vsimpl; ring.
    + intros a' Ha'. cbn [vecs iadd].
      destruct (Nat.eqb_spec a' (Objects.velocity b)) as [-> | _];
        [contradiction | reflexivity].
Qed.

(** The outer loop of [update], by induction on the bodies still to be
    visited: every vector has gained one step for each body visited that
    holds it. *)
Lemma update_loop_closed (accelerations : loc) (delta_time : R)
    (bodies : list Objects.PhysicsBody) :
  forall heap,
    (forall b, In b bodies ->
               ~ In (Objects.velocity b) (lists heap accelerations)) ->
    let heap' :=
      fold_left
        (fun heap body =>
           Objects.accelerate_body (lists heap accelerations) delta_time heap body)
        bodies heap in
    lists heap' = lists heap /\
    forall r,
      vecs heap' r
      = vadd (vecs heap r)
             (vscale (INR (holders r bodies) * delta_time)
                     (acceleration_sum heap (lists heap accelerations))).
Proof.
  induction bodies as [| b rest IH]; intros heap Hnot; cbn [fold_left holders].
  - split; [reflexivity |]. intros r. cbn [INR]. apply vec3_eq; vsimpl; ring.
  - assert (Hb : ~ In (Objects.velocity b) (lists heap accelerations))
      by (apply Hnot; left; reflexivity).
    destruct (object_accelerate_body_closed (lists heap accelerations) delta_time
                heap b Hb) as [Hlists Hvecs].
    set (heap1 := Objects.accelerate_body (lists heap accelerations) delta_time heap b)
      in *.
    assert (Hsum : acceleration_sum heap1 (lists heap accelerations)
                   = acceleration_sum heap (lists heap accelerations)).
    { apply acceleration_sum_ext. intros a Ha. rewrite Hvecs.
      destruct (Nat.eqb_spec a (Objects.velocity b)) as [-> | _];
        [contradiction | reflexivity]. }
    assert (Hrest : forall b', In b' rest ->
                      ~ In (Objects.velocity b') (lists heap1 accelerations)).
    { intros b' Hin. rewrite Hlists. apply Hnot. right. exact Hin. }
    destruct (IH heap1 Hrest) as [Hlists' Hvecs'].
    split; [rewrite Hlists', Hlists; reflexivity |].
    intros r. rewrite Hvecs', Hlists, Hsum, Hvecs, plus_INR.
    rewrite (Nat.eqb_sym (Objects.velocity b) r).
    destruct (Nat.eqb r (Objects.velocity b)); cbn [INR];
      apply vec3_eq; vsimpl; ring.
Qed.

(** X21.  [update] does nothing to a handler without scene.  Otherwise,
    when no acceleration of the handler is the velocity vector of a body
    of the scene, the heap it hands to the collection handler has the
    same lists, and every vector in it has gained the time step times
    the sum of the accelerations once for each body that holds it as
    velocity: once when one body holds it, twice when two bodies were
    built from it, not at all when no body holds it. *)
Theorem update_accelerates_bodies
    (CollectionHandler : Type)
    (collection_handler_update :
       Scene CollectionHandler -> Heap -> R -> Scene CollectionHandler * Heap)
    (self : PhysicsHandlerObj CollectionHandler) (heap : Heap) (delta_time : R) :
  (forall sc b,
     scene _ self = Some sc ->
     In b (Objects.physics_bodies (physics_body_handler _ sc)) ->
     ~ In (Objects.velocity b) (lists heap (accelerations _ self))) ->
  match scene _ self with
  | None => update _ collection_handler_update self heap delta_time = (self, heap)
  | Some sc =>
      exists heap1,
        update _ collection_handler_update self heap delta_time
        = (let '(sc', heap') := collection_handler_update sc heap1 delta_time in
           ({| scene := Some sc'; accelerations := accelerations _ self |}, heap')) /\
        lists heap1 = lists heap /\
        forall r,
          vecs heap1 r
          = vadd (vecs heap r)
                 (vscale (INR (holders r (Objects.physics_bodies
                                            (physics_body_handler _ sc)))
                          * delta_time)
                         (acceleration_sum heap (lists heap (accelerations _ self))))
  end.
Proof.
  intros Hnot. unfold update.
  destruct (scene _ self) as [sc |]; [| reflexivity].
  eexists. split; [reflexivity |].
  apply update_loop_closed. intros b Hin. apply (Hnot sc b eq_refl Hin).
Qed.

(** X21 at the scene of three bodies of which two share their velocity
    vector, half a second under the default acceleration. *)
Lemma update_accelerates_bodies_witness :
  exists heap1,
    update unit idle_update twin_handler initial_heap 0.5 = (twin_handler, heap1) /\
    lists heap1 = lists initial_heap /\
    forall r,
      vecs heap1 r
      = vadd (vecs initial_heap r)
             (vscale (INR (holders r twin_bodies) * 0.5)
                     (acceleration_sum initial_heap [default_acceleration])).
Proof.
  apply (update_accelerates_bodies unit idle_update twin_handler initial_heap 0.5).
  intros sc b Hsc Hin. injection Hsc as <-.
  cbn in Hin. cbn.
  destruct Hin as [<- | [<- | [<- | []]]]; cbn; intros [E | []]; discriminate.
Defined.

Lemma fold_left_vadd_perm (l l' : list vec3) :
  Permutation l l' -> fold_left vadd l vzero = fold_left vadd l' vzero.
Proof.
  induction 1 as [| a l l' _ IH | a b l | l l' l'' _ IH1 _ IH2]; cbn [fold_left].
  - reflexivity.
  - rewrite (fold_left_vadd_acc l), (fold_left_vadd_acc l'), IH. reflexivity.
  - rewrite (fold_left_vadd_acc l (vadd (vadd vzero b) a)),
            (fold_left_vadd_acc l (vadd (vadd vzero a) b)).
    apply vec3_eq; simpl; ring.
  - rewrite IH1. exact IH2.
Qed.

(** X22.  The accelerations are constant, so stepping a body composes:
    a step of [dt1] followed by a step of [dt2] is one step of
    [dt1 + dt2], and the order in which the accelerations are listed
    does not matter. *)
Theorem accelerate_body_composes
    (accelerations accelerations' : list vec3) (dt1 dt2 : R) (b : PhysicsBody) :
  accelerate_body accelerations dt2 (accelerate_body accelerations dt1 b)
  = accelerate_body accelerations (dt1 + dt2) b /\
  (Permutation accelerations accelerations' ->
   accelerate_body accelerations dt1 b = accelerate_body accelerations' dt1 b).
Proof.
  split.
  - rewrite !accelerate_body_closed. unfold set_velocity; simpl.
    do 2 f_equal. apply vec3_eq; simpl; ring.
  - intros Hperm. rewrite !accelerate_body_closed.
    rewrite (fold_left_vadd_perm _ _ Hperm). reflexivity.
Qed.

(** X23.  The default list of accelerations is one shared object.  After
    [add_acceleration] on a handler built without [accelerations], every
    other handler built without [accelerations] reads the new acceleration
    too, while a handler built with a list of its own does not. *)
Theorem add_acceleration_is_shared
    (CollectionHandler : Type)
    (s1 s2 s3 : option (Scene CollectionHandler)) (own : loc)
    (heap : Heap) (a : loc) :
  own <> default_accelerations ->
  let h1 := PhysicsHandler_init _ s1 None in
  let h2 := PhysicsHandler_init _ s2 None in
  let h3 := PhysicsHandler_init _ s3 (Some own) in
  let heap' := add_acceleration _ h1 heap a in
  lists heap' (accelerations _ h1) = lists heap (accelerations _ h1) ++ [a] /\
  lists heap' (accelerations _ h2) = lists heap (accelerations _ h2) ++ [a] /\
  lists heap' (accelerations _ h3) = lists heap (accelerations _ h3).
Proof.
  intros Hown. cbn [PhysicsHandler_init accelerations add_acceleration lists].
  rewrite Nat.eqb_refl. repeat split.
  destruct (Nat.eqb own default_accelerations) eqn:E; [| reflexivity].
  apply Nat.eqb_eq in E. contradiction.
Qed.

(** X23 from the heap as it is when the class has just been defined. *)
Lemma add_acceleration_is_shared_witness :
  lists (add_acceleration unit (PhysicsHandler_init unit None None) initial_heap 5%nat)
        (accelerations unit (PhysicsHandler_init unit None None))
    = lists initial_heap (accelerations unit (PhysicsHandler_init unit None None))
      ++ [5%nat] /\
  lists (add_acceleration unit (PhysicsHandler_init unit None None) initial_heap 5%nat)
        (accelerations unit (PhysicsHandler_init unit None None))
    = lists initial_heap (accelerations unit (PhysicsHandler_init unit None None))
      ++ [5%nat] /\
  lists (add_acceleration unit (PhysicsHandler_init unit None None) initial_heap 5%nat)
        (accelerations unit (PhysicsHandler_init unit None (Some 1%nat)))
    = lists initial_heap (accelerations unit (PhysicsHandler_init unit None (Some 1%nat))).
Proof.
  apply (add_acceleration_is_shared unit None None None 1%nat initial_heap 5%nat).
  discriminate.
Defined.

(** X24.  How [calculate_collisions] fails.  The inverse masses are taken
    before the contact points are looked at, so a body of mass 0 raises
    [ZeroDivisionError] even when there is no contact point; with no
    physics body on either side the call does nothing for an empty
    contact list and raises [UnboundLocalError] otherwise; and with
    masses other than 0 an empty contact list leaves the bodies as they
    were. *)
Theorem calculate_collisions_failures
    (normal : vec3) (c1 c2 : Collider) (b b' : PhysicsBody)
    (other : option PhysicsBody) (p : vec3) (contact_points : list vec3) :
  (mass (point b) = 0 ->
   calculate_collisions normal c1 c2 (Some b) other contact_points
   = Raise ZeroDivisionError) /\
  (mass (point b) = 0 ->
   calculate_collisions normal c1 c2 None (Some b) contact_points
   = Raise ZeroDivisionError) /\
  (mass (point b) = 0 -> mass (point b') <> 0 ->
   calculate_collisions normal c1 c2 (Some b') (Some b) contact_points
   = Raise ZeroDivisionError) /\
  calculate_collisions normal c1 c2 None None [] = Ok (None, None) /\
  calculate_collisions normal c1 c2 None None (p :: contact_points)
  = Raise UnboundLocalError /\
  (mass (point b) <> 0 -> mass (point b') <> 0 ->
   calculate_collisions normal c1 c2 (Some b) (Some b') [] = Ok (Some b, Some b') /\
   calculate_collisions normal c1 c2 (Some b) None [] = Ok (Some b, None) /\
   calculate_collisions normal c1 c2 None (Some b) [] = Ok (None, Some b)).
Proof.
  unfold calculate_collisions, physics_data, py_inv.
  repeat split; try (intros Hm; rewrite ?Hm).
  - destruct (Req_dec_T 0 0) as [_ | Hn]; [| contradiction].
    destruct other; reflexivity.
  - destruct (Req_dec_T 0 0) as [_ | Hn]; [| contradiction]. reflexivity.
  - intros Hm'. destruct (Req_dec_T (mass (point b')) 0); [contradiction |].
    cbn [bind]. destruct (Req_dec_T 0 0) as [_ | Hn]; [| contradiction]. reflexivity.
  - destruct (Req_dec_T (mass (point b)) 0); [contradiction |].
    destruct (Req_dec_T (mass (point b')) 0); [contradiction |]. reflexivity.
  - destruct (Req_dec_T (mass (point b)) 0); [contradiction |]. reflexivity.
  - destruct (Req_dec_T (mass (point b)) 0); [contradiction |]. reflexivity.
Qed.

Lemma apply_impulse_rotation
    (radius impulse : vec3) (inv_inertia : mat3) (inv_mass : R) (b : PhysicsBody) :
  rotation (apply_impulse radius impulse inv_inertia inv_mass b) = rotation b.
Proof. unfold apply_impulse. destruct (Rlt_dec _ 1e-6); reflexivity. Qed.

(** What a loop keeps when every iteration keeps it. *)
Lemma for_each_preserves {S A B : Type} (f : S -> B) (step : S -> A -> result S) :
  (forall s a s', step s a = Ok s' -> f s' = f s) ->
  forall l s s', for_each step l s = Ok s' -> f s' = f s.
Proof.
  intros Hstep. induction l as [| a l IH]; intros s s'; cbn [for_each].
  - intros H. injection H as <-. reflexivity.
  - destruct (step s a) as [s1 | |] eqn:E; cbn [bind]; [| discriminate ..].
    intros H. rewrite (IH _ _ H). apply (Hstep _ _ _ E).
Qed.

Lemma apply_impulse_fixed_part
    (radius impulse : vec3) (inv_inertia : mat3) (inv_mass : R) (b : PhysicsBody) :
  fixed_part (apply_impulse radius impulse inv_inertia inv_mass b) = fixed_part b.
Proof.
  unfold fixed_part. rewrite apply_impulse_point, apply_impulse_rotation. reflexivity.
Qed.

Lemma contact_step1_fixed_part
    (normal : vec3) (c : Collider) (im : R) (ii : option mat3) (e k s : R) (n : nat)
    (sign : vec3 -> vec3) (b b' : PhysicsBody) (p : vec3) :
  contact_step1 normal c im ii e k s n sign b p = Ok b' ->
  fixed_part b' = fixed_part b.
Proof.
  unfold contact_step1.
  destruct ii as [ii |]; cbn [finite bind]; [| discriminate].
  destruct (calculate_impluse1 _ _ _ _ _ _ _ _ _) as [J | |]; cbn [bind]; [| discriminate ..].
  intros H. injection H as <-. apply apply_impulse_fixed_part.
Qed.

Lemma contact_step2_fixed_part
    (normal : vec3) (c1 c2 : Collider) (im1 im2 : R) (ii1 ii2 : option mat3)
    (e k s : R) (n : nat) (bs bs' : PhysicsBody * PhysicsBody) (p : vec3) :
  contact_step2 normal c1 c2 im1 im2 ii1 ii2 e k s n bs p = Ok bs' ->
  (fixed_part (fst bs'), fixed_part (snd bs'))
  = (fixed_part (fst bs), fixed_part (snd bs)).
Proof.
  unfold contact_step2. destruct bs as [b1 b2].
  destruct ii1 as [ii1 |]; cbn [finite bind]; [| discriminate].
  destruct ii2 as [ii2 |]; cbn [finite bind]; [| discriminate].
  destruct (calculate_impulse2 _ _ _ _ _ _ _ _ _ _ _ _ _ _) as [J | |];
    cbn [bind]; [| discriminate ..].
  intros H. injection H as <-. cbn [fst snd].
  rewrite !apply_impulse_fixed_part. reflexivity.
Qed.

(** X25.  Resolving a collision changes velocities only.  Whenever
    [calculate_collisions] returns, a body that was absent is still
    absent, and a body that was present is still present with the mass and
    the orientation quaternion it had. *)
Theorem calculate_collisions_keeps_mass_and_orientation
    (normal : vec3) (c1 c2 : Collider) (pb1 pb2 pb1' pb2' : option PhysicsBody)
    (contact_points : list vec3) :
  calculate_collisions normal c1 c2 pb1 pb2 contact_points = Ok (pb1', pb2') ->
  option_map fixed_part pb1' = option_map fixed_part pb1 /\
  option_map fixed_part pb2' = option_map fixed_part pb2.
Proof.
  unfold calculate_collisions.
  destruct pb1 as [b1 |], pb2 as [b2 |].
  - destruct (physics_data c1 b1) as [d1 | |]; cbn [bind]; [| discriminate ..].
    destruct (physics_data c2 b2) as [d2 | |]; cbn [bind]; [| discriminate ..].
    match goal with
    | |- context [for_each ?f contact_points (b1, b2)] =>
        destruct (for_each f contact_points (b1, b2)) as [bs | |] eqn:Hloop
    end; cbn [bind]; [| discriminate ..].
    intros H. injection H as <- <-.
    apply (for_each_preserves
             (fun bs : PhysicsBody * PhysicsBody =>
                (fixed_part (fst bs), fixed_part (snd bs)))) in Hloop.
    + pose proof (f_equal fst Hloop) as E1. pose proof (f_equal snd Hloop) as E2.
      cbn [fst snd] in E1, E2.
      cbn [option_map]. rewrite E1, E2. split; reflexivity.
    + intros s a s'. apply contact_step2_fixed_part.
  - destruct (physics_data c1 b1) as [d1 | |]; cbn [bind]; [| discriminate ..].
    match goal with
    | |- context [for_each ?f contact_points b1] =>
        destruct (for_each f contact_points b1) as [b | |] eqn:Hloop
    end; cbn [bind]; [| discriminate ..].
    intros H. injection H as <- <-.
    apply (for_each_preserves fixed_part) in Hloop.
    + cbn [option_map]. rewrite Hloop. split; reflexivity.
    + intros s a s'. apply contact_step1_fixed_part.
  - destruct (physics_data c2 b2) as [d2 | |]; cbn [bind]; [| discriminate ..].
    match goal with
    | |- context [for_each ?f contact_points b2] =>
        destruct (for_each f contact_points b2) as [b | |] eqn:Hloop
    end; cbn [bind]; [| discriminate ..].
    intros H. injection H as <- <-.
    apply (for_each_preserves fixed_part) in Hloop.
    + cbn [option_map]. rewrite Hloop. split; reflexivity.
    + intros s a s'. apply contact_step1_fixed_part.
  - destruct contact_points; [| discriminate].
    intros H. injection H as <- <-. split; reflexivity.
Qed.

(** X25 at the head-on collision. *)
Lemma calculate_collisions_keeps_mass_and_orientation_witness :
  option_map fixed_part (Some resting_body) = option_map fixed_part (Some moving_body) /\
  option_map fixed_part (Some moving_body) = option_map fixed_part (Some resting_body).
Proof.
  apply (calculate_collisions_keeps_mass_and_orientation unit_x (cube_collider (-1))
           (cube_collider 1) (Some moving_body) (Some resting_body)
           (Some resting_body) (Some moving_body) [vzero]).
  exact calculate_collisions_head_on.
Defined.

Lemma vscale_length_normalize (a : vec3) :
  length a <> 0 -> vscale (length a) (normalize a) = a.
Proof.
  intros Hn. unfold normalize. fold (length a).
  apply vec3_eq; simpl; field; exact Hn.
Qed.

(** X26.  [apply_impulse] stores the new angular velocity as a speed that
    is never negative and an axis.  Speed times axis is again the vector
    [omega + inv_inertia * (radius x impulse)] when that vector is at
    least 1e-6 long, and (0, 0, 0) when it is shorter; the linear velocity
    gains [inv_mass] times the impulse. *)
Theorem apply_impulse_angular_velocity
    (radius impulse : vec3) (inv_inertia : mat3) (inv_mass : R) (b : PhysicsBody) :
  let b' := apply_impulse radius impulse inv_inertia inv_mass b in
  let w := angular_velocity_vector radius impulse inv_inertia b in
  omega_of b' = (if Rlt_dec (length w) 1e-6 then vzero else w) /\
  0 <= rotational_velocity b' /\
  velocity (point b') = vadd (velocity (point b)) (vscale inv_mass impulse).
Proof.
  cbv zeta. split; [| split].
  - unfold apply_impulse, angular_velocity_vector, omega_of.
    destruct (Rlt_dec _ 1e-6) as [Hs | Hb];
      cbn [rotational_velocity axis_of_rotation].
    + apply vec3_eq; simpl; ring.
    + apply vscale_length_normalize. lra.
  - unfold apply_impulse. destruct (Rlt_dec _ 1e-6); cbn [rotational_velocity].
    + lra.
    + apply length_nonneg.
  - rewrite apply_impulse_point. reflexivity.
Qed.

Lemma length_vscale_abs (s : R) (a : vec3) : length (vscale s a) = Rabs s * length a.
Proof.
  unfold length. rewrite dot_vscale.
  rewrite sqrt_mult; [| nra | apply dot_self_nonneg].
  fold (Rsqr s). rewrite sqrt_Rsqr_abs. reflexivity.
Qed.

Lemma dot_vscale_l (s : R) (a b : vec3) : dot (vscale s a) b = s * dot a b.
Proof. unfold dot, vscale; simpl. ring. Qed.

Lemma dot_tangent_unit (v n : vec3) :
  dot n n = 1 -> dot (vsub v (vscale (dot v n) n)) n = 0.
Proof.
  unfold dot, vsub, vscale; simpl. intros Hunit.
  transitivity ((x v * x n + y v * y n + z v * z n)
                * (1 - (x n * x n + y n * y n + z n * z n))); [ring |].
  rewrite Hunit. ring.
Qed.

(** X27.  In the one-body path, when the body slides (tangential speed at
    least 1e-6) and the kinetic coefficient is not negative, the friction
    impulse obeys Coulomb's law: its length is the coefficient times the
    length of the normal impulse, it never points along the sliding
    direction, and for a unit normal it is tangential, like the sliding
    velocity itself. *)
Theorem one_body_friction_is_coulomb
    (b : PhysicsBody) (inv_mass : R) (omega radius : vec3) (inv_inertia : mat3)
    (e k s : R) (n : vec3) (l : impulse_locals) :
  impluse1_locals b inv_mass omega radius inv_inertia e k s n = Ok l ->
  ~ length (rel_tan_vel l) < 1e-6 ->
  0 <= k ->
  length (friction_impulse l) = k * length (normal_impulse l) /\
  dot (friction_impulse l) (rel_tan_vel l) <= 0 /\
  (dot n n = 1 ->
   dot (rel_tan_vel l) n = 0 /\ dot (friction_impulse l) n = 0).
Proof.
  unfold impluse1_locals.
  destruct (Req_dec_T _ 0) as [_ | _]; [discriminate |].
  intros H. injection H as <-. cbn [rel_tan_vel normal_impulse friction_impulse].
  set (rv := vadd (velocity (point b)) (cross omega radius)).
  set (J := vscale (- (1 + e) * dot rv n / _) n).
  set (t := vsub rv (vscale (dot rv n) n)).
  intros Hslide Hk.
  destruct (Rlt_dec (length t) 1e-6) as [Hc | _]; [contradiction |].
  assert (Hlen : length t <> 0) by lra.
  pose proof (length_nonneg J) as HJ.
  assert (Hs : - k * length J <= 0) by nra.
  split; [| split].
  - rewrite length_vscale_abs, (length_normalize t Hlen).
    rewrite Rabs_left1 by exact Hs. ring.
  - unfold normalize. fold (length t). rewrite !dot_vscale_l.
    pose proof (dot_self_nonneg t) as Ht.
    assert (Hinv : 0 <= 1 / length t).
    { apply Rlt_le. apply Rdiv_lt_0_compat; [lra |].
      pose proof (length_nonneg t). lra. }
    assert (Hprod : 0 <= 1 / length t * dot t t) by (apply Rmult_le_pos; assumption).
    nra.
  - intros Hunit.
    assert (Htn : dot t n = 0).
    { unfold t. apply dot_tangent_unit. exact Hunit. }
    split; [exact Htn |].
    unfold normalize. rewrite !dot_vscale_l, Htn. ring.
Qed.

Lemma length_unit_y : length (mkvec3 0 1 0) = 1.
Proof. apply length_eq; [lra | unfold dot; simpl; lra]. Qed.

(** X27 at the sliding body. *)
Lemma one_body_friction_is_coulomb_witness :
  length (mkvec3 0 (-0.8) 0) = 0.8 * length (mkvec3 (-1) 0 0) /\
  dot (mkvec3 0 (-0.8) 0) (mkvec3 0 1 0) <= 0 /\
  (dot unit_x unit_x = 1 ->
   dot (mkvec3 0 1 0) unit_x = 0 /\ dot (mkvec3 0 (-0.8) 0) unit_x = 0).
Proof.
  apply (one_body_friction_is_coulomb sliding_body 1 vzero vzero mat3_id 0 0.8 0.8 unit_x
           {| rel_tan_vel := mkvec3 0 1 0;
              normal_impulse := mkvec3 (-1) 0 0;
              friction_impulse := mkvec3 0 (-0.8) 0 |}).
  - exact impluse1_locals_sliding.
  - cbn [rel_tan_vel]. rewrite length_unit_y. lra.
  - lra.
Defined.

(** ** skeletons/joints.py *)

Lemma length_vsub_self (a : vec3) : length (vsub a a) = 0.
Proof.
  apply length_eq; [lra |]. unfold dot, vsub; simpl. ring.
Qed.

(** X28.  Whenever [restrict] returns, the child is within 1e-7 of the
    anchor, the parent and the child's physics body are untouched, and
    restricting again, with any time step, changes nothing more. *)
Theorem restrict_reaches_anchor
    (self : Joint) (parent child parent' child' : Collection) (delta_time : R) :
  restrict self parent child delta_time = Ok (parent', child') ->
  parent' = parent /\
  physics_body child' = physics_body child /\
  length (vsub (anchor self parent') (position child')) < 1e-7 /\
  forall dt, restrict self parent' child' dt = Ok (parent', child').
Proof.
  intros H. unfold restrict in H. fold (anchor self parent) in H.
  destruct (Rlt_dec (length (vsub (anchor self parent) (position child))) 1e-7)
    as [Hnear | Hfar].
  - injection H as <- <-. repeat split; try assumption.
    intros dt. apply restrict_near_anchor. exact Hnear.
  - cbn [andb] in H. injection H as <- <-. cbn [position physics_body].
    assert (Hzero : length (vsub (anchor self parent) (anchor self parent)) < 1e-7)
      by (rewrite length_vsub_self; lra).
    repeat split; try assumption.
    intros dt. apply restrict_near_anchor. exact Hzero.
Qed.

Lemma restrict_sample :
  restrict unit_joint anchor_parent spring_child 0.5
  = Ok (anchor_parent,
        {| position := anchor unit_joint anchor_parent;
           physics_body := Some resting_body |}).
Proof.
  unfold restrict. fold (anchor unit_joint anchor_parent).
  rewrite length_anchor_gap.
  destruct (Rlt_dec 2 1e-7) as [Hlt | _]; [exfalso; lra | reflexivity].
Qed.

(** X28 at the child two units from its anchor. *)
Lemma restrict_reaches_anchor_witness :
  anchor_parent = anchor_parent /\
  physics_body {| position := anchor unit_joint anchor_parent;
                  physics_body := Some resting_body |}
    = physics_body spring_child /\
  length (vsub (anchor unit_joint anchor_parent)
               (position {| position := anchor unit_joint anchor_parent;
                            physics_body := Some resting_body |})) < 1e-7 /\
  forall dt,
    restrict unit_joint anchor_parent
      {| position := anchor unit_joint anchor_parent;
         physics_body := Some resting_body |} dt
    = Ok (anchor_parent,
          {| position := anchor unit_joint anchor_parent;
             physics_body := Some resting_body |}).
Proof.
  apply (restrict_reaches_anchor unit_joint anchor_parent spring_child anchor_parent
           {| position := anchor unit_joint anchor_parent;
              physics_body := Some resting_body |} 0.5).
  exact restrict_sample.
Defined.

(** ** collisions/sutherland_hodgman.py *)

(** X29.  When [line_intersect] returns a point, the point lies on the
    plane (so [inside_plane] accepts it) and on the line through the two
    given points.  It raises [ZeroDivisionError] exactly when the line is
    parallel to the plane, that is when the normal is orthogonal to the
    direction from the first point to the second. *)
Theorem line_intersect_on_plane
    (point1 point2 plane_point plane_normal : vec3) :
  (dot plane_normal (vsub point2 point1) = 0 /\
   line_intersect point1 point2 plane_point plane_normal = Raise ZeroDivisionError)
  \/
  (dot plane_normal (vsub point2 point1) <> 0 /\
   exists q t,
     line_intersect point1 point2 plane_point plane_normal = Ok q /\
     q = vadd point1 (vscale t (vsub point2 point1)) /\
     dot plane_normal (vsub q plane_point) = 0 /\
     inside_plane q plane_point plane_normal = true).
Proof.
  unfold line_intersect.
  destruct (Req_dec_T (dot plane_normal (vsub point2 point1)) 0) as [Hz | Hnz].
  - left. split; [exact Hz | reflexivity].
  - right. split; [exact Hnz |].
    eexists. eexists. split; [reflexivity |]. split; [reflexivity |].
    assert (Hon : dot plane_normal
                    (vsub (vadd point1
                             (vscale (dot plane_normal (vsub plane_point point1)
                                      / dot plane_normal (vsub point2 point1))
                                     (vsub point2 point1)))
                          plane_point) = 0).
    { unfold dot, vsub, vadd, vscale in *; simpl in *. field. exact Hnz. }
    split; [exact Hon |].
    unfold inside_plane. rewrite Hon.
    destruct (Rge_dec 0 0) as [_ | Hn]; [reflexivity | exfalso; lra].
Qed.

(** X30.  Clipping an edge that crosses the plane never fails: when the
    first point is inside and the second outside, [line_intersect] returns
    a point of the segment between them, at a parameter in [0, 1). *)
Theorem line_intersect_between
    (point1 point2 plane_point plane_normal : vec3) :
  inside_plane point1 plane_point plane_normal = true ->
  inside_plane point2 plane_point plane_normal = false ->
  exists t,
    0 <= t < 1 /\
    line_intersect point1 point2 plane_point plane_normal
    = Ok (vadd point1 (vscale t (vsub point2 point1))).
Proof.
  unfold inside_plane, line_intersect.
  destruct (Rge_dec (dot plane_normal (vsub point1 plane_point)) 0) as [H1 | _];
    [| discriminate].
  destruct (Rge_dec (dot plane_normal (vsub point2 plane_point)) 0) as [_ | H2];
    [discriminate |].
  intros _ _.
  set (d1 := dot plane_normal (vsub point1 plane_point)) in *.
  set (d2 := dot plane_normal (vsub point2 plane_point)) in *.
  assert (Hden : dot plane_normal (vsub point2 point1) = d2 - d1)
    by (unfold d1, d2, dot, vsub; simpl; ring).
  assert (Hnum : dot plane_normal (vsub plane_point point1) = - d1)
    by (unfold d1, dot, vsub; simpl; ring).
  rewrite Hden, Hnum.
  assert (Hneg : d2 - d1 < 0) by lra.
  destruct (Req_dec_T (d2 - d1) 0) as [Hz | _]; [lra |].
  exists (- d1 / (d2 - d1)). split; [| reflexivity].
  replace (- d1 / (d2 - d1)) with (d1 / (d1 - d2)) by (field; lra).
  split.
  - apply Rmult_le_pos; [lra |]. apply Rlt_le, Rinv_0_lt_compat. lra.
  - apply Rmult_lt_reg_r with (d1 - d2); [lra |].
    replace (d1 / (d1 - d2) * (d1 - d2)) with d1 by (field; lra). lra.
Qed.

(** X30 at an edge along x that crosses the plane [x = 1] from the inside,
    which is the side of smaller x. *)
Lemma line_intersect_between_witness :
  exists t,
    0 <= t < 1 /\
    line_intersect vzero (mkvec3 2 0 0) unit_x (mkvec3 (-1) 0 0)
    = Ok (vadd vzero (vscale t (vsub (mkvec3 2 0 0) vzero))).
Proof.
  apply line_intersect_between.
  - unfold inside_plane, dot, vsub, unit_x, vzero; simpl.
    destruct (Rge_dec _ 0) as [_ | Hn]; [reflexivity | exfalso; lra].
  - unfold inside_plane, dot, vsub, unit_x, vzero; simpl.
    destruct (Rge_dec _ 0) as [Hge | _]; [exfalso; lra | reflexivity].
Defined.
